(** * Live-rocket: routing, URL patterns and HTTP framing

    A shallow embedding of the request pipeline of [live_rocket.py],
    [request.py] and [response.py]:

    - Python [str] values are [string]s, read as sequences of code points
      below 256; [bytes] values are [list byte];
    - a call either returns, raises, or leaves the fragment of Python this
      development gives a meaning to ([res]);
    - the [re] module is modelled by a parser for the part of its syntax
      the route compiler produces (and a little more) and a backtracking
      matcher with Python's greedy, leftmost priorities;
    - dictionaries are stdpp [gmap]s, lists are lists. *)

From Stdlib Require Import String Ascii List ZArith Lia Bool.
From Stdlib Require Import Strings.Byte.
From Stdlib Require Import DecimalString Decimal.
From Stdlib Require Import DecimalNat DecimalPos.
From stdpp Require Import gmap strings list fin_maps.

Open Scope string_scope.
Open Scope list_scope.

(** String append computes on the characters of its first argument;
    comparisons of characters stay folded. *)
Arguments String.append !_ _ / : simpl nomatch.
Arguments Ascii.eqb : simpl never.

(* ================================================================= *)
(** ** Outcomes of a call *)

(** A Python exception: its class followed by the classes it derives from,
    and [str(e)]. *)
Record exn : Type := Exn { exn_mro : list string; exn_msg : string }.

Inductive res (A : Type) : Type :=
| Ok (a : A)
| Raise (e : exn)
| Unmodelled.
Arguments Ok {A} a.
Arguments Raise {A} e.
Arguments Unmodelled {A}.

#[global]
Instance res_ret : MRet res := fun A a => Ok a.

#[global]
Instance res_bind : MBind res := fun A B f x =>
  match x with
  | Ok a => f a
  | Raise e => Raise e
  | Unmodelled => Unmodelled
  end.

Definition exception_bases : list string := ["Exception"; "BaseException"].

Definition ValueError (msg : string) : exn :=
  Exn ("ValueError" :: exception_bases) msg.
Definition TypeError (msg : string) : exn :=
  Exn ("TypeError" :: exception_bases) msg.
Definition IndexError (msg : string) : exn :=
  Exn ("IndexError" :: "LookupError" :: exception_bases) msg.
Definition KeyError (msg : string) : exn :=
  Exn ("KeyError" :: "LookupError" :: exception_bases) msg.
Definition AttributeError (msg : string) : exn :=
  Exn ("AttributeError" :: exception_bases) msg.
Definition UnicodeDecodeError (msg : string) : exn :=
  Exn ("UnicodeDecodeError" :: "UnicodeError" :: "ValueError" :: exception_bases) msg.
Definition JSONDecodeError (msg : string) : exn :=
  Exn ("JSONDecodeError" :: "ValueError" :: exception_bases) msg.
Definition OSError (msg : string) : exn :=
  Exn ("OSError" :: exception_bases) msg.
Definition OverflowError (msg : string) : exn :=
  Exn ("OverflowError" :: "ArithmeticError" :: exception_bases) msg.

(** [isinstance(e, cls)]. *)
Definition isinstance (e : exn) (cls : string) : bool :=
  existsb (String.eqb cls) (exn_mro e).

(** [try: body / except (classes) as e: handler e]. *)
Definition try_except {A} (body : res A) (classes : list string)
    (handler : exn -> res A) : res A :=
  match body with
  | Raise e => if existsb (isinstance e) classes then handler e else Raise e
  | _ => body
  end.

(* ================================================================= *)
(** ** Strings *)

Module Str.

Definition CR : ascii := ascii_of_nat 13.
Definition LF : ascii := ascii_of_nat 10.
Definition CRLF : string := String CR (String LF "").

Definition code (c : ascii) : nat := nat_of_ascii c.

Definition in_range (lo hi : nat) (c : ascii) : bool :=
  Nat.leb lo (code c) && Nat.leb (code c) hi.

(** [c in s] for a one-character [c]. *)
Fixpoint mem (c : ascii) (s : string) : bool :=
  match s with
  | "" => false
  | String d s' => if Ascii.eqb c d then true else mem c s'
  end.

Fixpoint forallb (p : ascii -> bool) (s : string) : bool :=
  match s with
  | "" => true
  | String c s' => p c && forallb p s'
  end.

(** [s.startswith(p)], and the rest of [s] after [p]. *)
Fixpoint strip_prefix (p s : string) : option string :=
  match p with
  | "" => Some s
  | String c p' =>
      match s with
      | "" => None
      | String d s' => if Ascii.eqb c d then strip_prefix p' s' else None
      end
  end.

(** [sub in s] for strings. *)
Fixpoint contains (sub s : string) : bool :=
  match strip_prefix sub s with
  | Some _ => true
  | None =>
      match s with
      | "" => false
      | String _ s' => contains sub s'
      end
  end.

(** [s.replace(old, new, 1)]: the first occurrence only. *)
Fixpoint replace_first (old new s : string) : string :=
  match strip_prefix old s with
  | Some rest => new +:+ rest
  | None =>
      match s with
      | "" => ""
      | String c s' => String c (replace_first old new s')
      end
  end.

(** The first [n] characters of [s]. *)
Fixpoint take (n : nat) (s : string) : string :=
  match n, s with
  | S n', String c s' => String c (take n' s')
  | _, _ => ""
  end.

(** The text consumed between the suffix [s0] and its later suffix [s1]. *)
Definition consumed (s0 s1 : string) : string :=
  take (String.length s0 - String.length s1) s0.

Definition is_digit (c : ascii) : bool := in_range 48 57 c.

(** [str.isspace] on code points below 256. *)
Definition is_space (c : ascii) : bool :=
  in_range 9 13 c || in_range 28 32 c
  || Nat.eqb (code c) 133 || Nat.eqb (code c) 160.

(** [str.lower] on code points below 256 (each maps to one below 256). *)
Definition lower_char (c : ascii) : ascii :=
  if in_range 65 90 c
     || (in_range 192 222 c && negb (Nat.eqb (code c) 215))
  then ascii_of_nat (code c + 32) else c.

Fixpoint lower (s : string) : string :=
  match s with
  | "" => ""
  | String c s' => String (lower_char c) (lower s')
  end.

(** [sep.join(parts)]. *)
Fixpoint join (sep : string) (parts : list string) : string :=
  match parts with
  | [] => ""
  | [p] => p
  | p :: rest => p +:+ sep +:+ join sep rest
  end.

(** [str(n)] for a natural number. *)
Definition of_nat (n : nat) : string := NilEmpty.string_of_uint (Nat.to_uint n).

(** [str.upper] of one character, when the result is one code point
    below 256 (not so for 181, 223 and 255). *)
Definition upper_char (c : ascii) : option ascii :=
  if in_range 97 122 c
     || (in_range 224 254 c && negb (Nat.eqb (code c) 247))
  then Some (ascii_of_nat (code c - 32))
  else if Nat.eqb (code c) 181 || Nat.eqb (code c) 223 || Nat.eqb (code c) 255
  then None
  else Some c.

Fixpoint upper (s : string) : option string :=
  match s with
  | "" => Some ""
  | String c s' =>
      match upper_char c, upper s' with
      | Some c', Some t => Some (String c' t)
      | _, _ => None
      end
  end.

(** [s.replace(old, new)] for one-character [old] and [new]. *)
Fixpoint replace_char (old new : ascii) (s : string) : string :=
  match s with
  | "" => ""
  | String c s' =>
      String (if Ascii.eqb c old then new else c) (replace_char old new s')
  end.

Definition cons_head (c : ascii) (parts : list string) : list string :=
  match parts with
  | p :: ps => String c p :: ps
  | [] => [String c ""]
  end.

(** [s.split(sep)] for a non-empty [sep]; [skip] counts the characters of
    the separator just found that are still to pass. *)
Fixpoint split_go (sep : string) (skip : nat) (s : string) : list string :=
  match s with
  | "" => [""]
  | String c s' =>
      match skip with
      | S k => split_go sep k s'
      | 0 =>
          match strip_prefix sep s with
          | Some _ => "" :: split_go sep (String.length sep - 1) s'
          | None => cons_head c (split_go sep 0 s')
          end
      end
  end.

Definition split (sep s : string) : list string := split_go sep 0 s.

(** [s.split(sep, 1)] for a one-character [sep]: the text before its
    first occurrence and the text after it. *)
Fixpoint split_once (sep : ascii) (s : string) : option (string * string) :=
  match s with
  | "" => None
  | String c s' =>
      if Ascii.eqb c sep then Some ("", s')
      else match split_once sep s' with
           | Some (a, b) => Some (String c a, b)
           | None => None
           end
  end.

Fixpoint lstrip (s : string) : string :=
  match s with
  | String c s' => if is_space c then lstrip s' else s
  | "" => ""
  end.

Fixpoint rstrip (s : string) : string :=
  match s with
  | String c s' =>
      match rstrip s' with
      | "" => if is_space c then "" else String c ""
      | t => String c t
      end
  | "" => ""
  end.

(** [s.strip()]. *)
Definition strip (s : string) : string := rstrip (lstrip s).

(** The longest prefix of [s] whose characters satisfy [p], and the rest. *)
Fixpoint span (p : ascii -> bool) (s : string) : string * string :=
  match s with
  | "" => ("", "")
  | String c s' =>
      if p c then let '(w, r) := span p s' in (String c w, r) else ("", s)
  end.

(** [s.replace(old, new)] for a non-empty [old]: every occurrence, from
    the left, none overlapping another; [skip] as in [split_go]. *)
Fixpoint replace_go (old new : string) (skip : nat) (s : string) : string :=
  match s with
  | "" => ""
  | String c s' =>
      match skip with
      | S k => replace_go old new k s'
      | 0 =>
          match strip_prefix old s with
          | Some _ => new +:+ replace_go old new (String.length old - 1) s'
          | None => String c (replace_go old new 0 s')
          end
      end
  end.

Definition replace (old new s : string) : string := replace_go old new 0 s.

(** The decimal text of an integer: what [str(z)] returns when it
    returns (see [Conv.int_str] for the bound on the digits). *)
Definition of_Z (z : Z) : string :=
  match z with
  | Z0 => "0"
  | Zpos p => NilEmpty.string_of_uint (Pos.to_uint p)
  | Zneg p => "-" +:+ NilEmpty.string_of_uint (Pos.to_uint p)
  end.

(** Two hexadecimal digits, in lower case. *)
Definition hex_digit (n : nat) : ascii :=
  if Nat.ltb n 10 then ascii_of_nat (48 + n) else ascii_of_nat (87 + n).

Definition hex2 (n : nat) : string :=
  String (hex_digit (n / 16)) (String (hex_digit (n mod 16)) "").

Definition quote : ascii := "'"%char.
Definition dquote : ascii := ascii_of_nat 34.
Definition backslash : ascii := "\"%char.

(** [str.isprintable] on one code point below 256. *)
Definition is_printable (c : ascii) : bool :=
  in_range 32 126 c || (in_range 161 255 c && negb (Nat.eqb (code c) 173)).

(** One character of [repr(s)], between the quotes [q]. *)
Definition repr_char (q c : ascii) : string :=
  if Ascii.eqb c q || Ascii.eqb c backslash then String backslash (String c "")
  else if Nat.eqb (code c) 9 then String backslash "t"
  else if Nat.eqb (code c) 10 then String backslash "n"
  else if Nat.eqb (code c) 13 then String backslash "r"
  else if is_printable c then String c ""
  else String backslash (String "x" (hex2 (code c))).

Fixpoint repr_body (q : ascii) (s : string) : string :=
  match s with
  | "" => String q ""
  | String c s' => repr_char q c +:+ repr_body q s'
  end.

(** [repr(s)]: double quotes when [s] holds a single quote and no double
    quote, single quotes otherwise. *)
Definition repr (s : string) : string :=
  let q := if mem quote s && negb (mem dquote s) then dquote else quote in
  String q (repr_body q s).

End Str.

(* ================================================================= *)
(** ** The [re] module: syntax *)

Module Re.

(** Regular expressions, as [re] reads them without flags.  A capturing
    group carries the number Python gives it: the rank of its opening
    parenthesis.  [RRepeat mn mx r] is the greedy repetition of [r], at
    least [mn] times and at most [mx] times when [mx] is given: [*], [+],
    [?] and [{n}].  A non-capturing group is its body. *)
Inductive regex : Type :=
| REmpty
| RChar (c : ascii)
| RAny
| RDigit
| RSet (neg : bool) (items : list (ascii * ascii))
| RBol
| REol
| RSeq (r1 r2 : regex)
| RGroup (idx : nat) (r : regex)
| RRepeat (mn : nat) (mx : option nat) (r : regex).

Definition seq_of (items : list regex) : regex := foldr RSeq REmpty items.

Fixpoint nullable (r : regex) : bool :=
  match r with
  | REmpty | RBol | REol => true
  | RChar _ | RAny | RDigit | RSet _ _ => false
  | RSeq r1 r2 => nullable r1 && nullable r2
  | RGroup _ r => nullable r
  | RRepeat mn _ r => Nat.eqb mn 0 || nullable r
  end.

(** What a quantifier may follow in the modelled syntax: one character, a
    class or a group, not yet quantified. *)
Definition quantifiable (r : regex) : bool :=
  match r with
  | REmpty | RBol | REol | RRepeat _ _ _ => false
  | _ => true
  end.

(** The parser reads the pattern one character at a time. *)
Inductive pmode : Type :=
| MNormal
| MEscape                       (* after a backslash *)
| MOpen                         (* after an opening parenthesis *)
| MOpenQ                        (* after "(?" *)
| MSet0                         (* after an opening bracket *)
| MSet (neg : bool) (items : list (ascii * ascii))
       (pending : option ascii) (dash : bool)
| MBrace (count : option nat).  (* after an opening brace *)

Record pstate : Type := PState {
  p_mode : pmode;
  (** the enclosing groups: capture number (if capturing) and the items
      read before the group opened, last first *)
  p_frames : list (option nat * list regex);
  (** the items of the sequence being read, last first *)
  p_cur : list regex;
  (** capturing groups opened so far *)
  p_groups : nat
}.

Definition with_mode (m : pmode) (st : pstate) : pstate :=
  PState m (p_frames st) (p_cur st) (p_groups st).

Definition push (r : regex) (st : pstate) : pstate :=
  PState MNormal (p_frames st) (r :: p_cur st) (p_groups st).

Definition quantify (mn : nat) (mx : option nat) (st : pstate) : option pstate :=
  match p_cur st with
  | r :: cur =>
      if quantifiable r && negb (nullable r)
      then Some (PState MNormal (p_frames st) (RRepeat mn mx r :: cur) (p_groups st))
      else None
  | [] => None
  end.

Definition open_group (capturing : bool) (st : pstate) : pstate :=
  if capturing
  then PState MNormal ((Some (S (p_groups st)), p_cur st) :: p_frames st) []
              (S (p_groups st))
  else PState MNormal ((None, p_cur st) :: p_frames st) [] (p_groups st).

Definition close_group (st : pstate) : option pstate :=
  match p_frames st with
  | (kind, outer) :: frames =>
      let body := seq_of (rev (p_cur st)) in
      let item := match kind with Some i => RGroup i body | None => body end in
      Some (PState MNormal frames (item :: outer) (p_groups st))
  | [] => None
  end.

Definition step_normal (st : pstate) (c : ascii) : option pstate :=
  match c with
  | "("%char => Some (with_mode MOpen st)
  | ")"%char => close_group st
  | "["%char => Some (with_mode MSet0 st)
  | "\"%char => Some (with_mode MEscape st)
  | "{"%char => Some (with_mode (MBrace None) st)
  | "]"%char | "}"%char | "|"%char => None
  | "."%char => Some (push RAny st)
  | "^"%char => Some (push RBol st)
  | "$"%char => Some (push REol st)
  | "*"%char => quantify 0 None st
  | "+"%char => quantify 1 None st
  | "?"%char => quantify 0 (Some 1) st
  | _ => Some (push (RChar c) st)
  end.

(** Printable ASCII that is neither a letter nor a digit: after a
    backslash it stands for itself. *)
Definition is_punct (c : ascii) : bool :=
  Str.in_range 33 47 c || Str.in_range 58 64 c
  || Str.in_range 91 96 c || Str.in_range 123 126 c.

Definition flush_set (items : list (ascii * ascii)) (pending : option ascii)
    (dash : bool) : list (ascii * ascii) :=
  match pending with
  | None => items
  | Some p => if dash then ("-"%char, "-"%char) :: (p, p) :: items
              else (p, p) :: items
  end.

Definition step_set (st : pstate) (neg : bool) (items : list (ascii * ascii))
    (pending : option ascii) (dash : bool) (c : ascii) : option pstate :=
  match c with
  | "]"%char =>
      match items, pending with
      | [], None => None
      | _, _ => Some (push (RSet neg (rev (flush_set items pending dash))) st)
      end
  | "\"%char | "["%char => None
  | _ =>
      match pending with
      | None => Some (with_mode (MSet neg items (Some c) false) st)
      | Some p =>
          if dash then
            if Nat.leb (Str.code p) (Str.code c)
            then Some (with_mode (MSet neg ((p, c) :: items) None false) st)
            else None
          else if Ascii.eqb c "-"
          then Some (with_mode (MSet neg items pending true) st)
          else Some (with_mode (MSet neg ((p, p) :: items) (Some c) false) st)
      end
  end.

Definition digit_value (c : ascii) : nat := Str.code c - 48.

Definition step (st : pstate) (c : ascii) : option pstate :=
  match p_mode st with
  | MNormal => step_normal st c
  | MEscape =>
      if Ascii.eqb c "d" then Some (push RDigit st)
      else if is_punct c then Some (push (RChar c) st)
      else None
  | MOpen =>
      if Ascii.eqb c "?" then Some (with_mode MOpenQ st)
      else step_normal (open_group true st) c
  | MOpenQ =>
      if Ascii.eqb c ":" then Some (open_group false st) else None
  | MSet0 =>
      if Ascii.eqb c "^" then Some (with_mode (MSet true [] None false) st)
      else step_set st false [] None false c
  | MSet neg items pending dash => step_set st neg items pending dash c
  | MBrace count =>
      if Str.is_digit c
      then Some (with_mode (MBrace (Some (10 * default 0 count + digit_value c))) st)
      else if Ascii.eqb c "}"
      then match count with
           | Some n => quantify n (Some n) (with_mode MNormal st)
           | None => None
           end
      else None
  end.

Fixpoint parse_from (st : pstate) (src : string) : option pstate :=
  match src with
  | "" => Some st
  | String c src' =>
      match step st c with
      | Some st' => parse_from st' src'
      | None => None
      end
  end.

(** A compiled pattern: the expression and how many capturing groups it
    has.  [None]: the pattern is outside the modelled syntax. *)
Definition parse (src : string) : option (regex * nat) :=
  match parse_from (PState MNormal [] [] 0) src with
  | Some (PState MNormal [] cur n) => Some (seq_of (rev cur), n)
  | _ => None
  end.

(* ----------------------------------------------------------------- *)
(** *** Matching *)

(** What one-character expressions accept. *)
Definition in_items (items : list (ascii * ascii)) (c : ascii) : bool :=
  existsb (fun '(lo, hi) => Str.in_range (Str.code lo) (Str.code hi) c) items.

Definition accepts (r : regex) (c : ascii) : bool :=
  match r with
  | RChar d => Ascii.eqb d c
  | RAny => negb (Ascii.eqb c Str.LF)
  | RDigit => Str.is_digit c
  | RSet neg items => xorb neg (in_items items c)
  | _ => false
  end.

(** [$] without [re.MULTILINE]: the end of the string, or just before a
    newline that ends it. *)
Definition at_eol (s : string) : bool :=
  match s with
  | "" => true
  | String c "" => Ascii.eqb c Str.LF
  | _ => false
  end.

Abbreviation captures := (gmap nat string).

Section Matcher.
Context {A : Type}.

(** A continuation gets the position reached, the text left and the
    groups captured so far; [None] makes the matcher backtrack. *)
Definition cont := nat -> string -> captures -> option A.

Definition one_char (r : regex) (pos : nat) (s : string) (caps : captures)
    (k : cont) : option A :=
  match s with
  | String c s' => if accepts r c then k (S pos) s' caps else None
  | "" => None
  end.

Definition may_repeat (mx : option nat) (count : nat) : bool :=
  match mx with
  | Some m => Nat.ltb count m
  | None => true
  end.

(** The greedy loop of [RRepeat]: one more round of [body] first, the
    rest of the pattern when that fails and [mn] rounds are done.  A round
    that consumes nothing is not taken. *)
Fixpoint repeat_loop
    (body : nat -> string -> captures -> cont -> option A)
    (mn : nat) (mx : option nat) (k : cont)
    (fuel count pos : nat) (s : string) (caps : captures) : option A :=
  match fuel with
  | 0 => None
  | S fuel' =>
      let more :=
        if may_repeat mx count then
          body pos s caps (fun pos' s' caps' =>
            if Nat.ltb (String.length s') (String.length s)
            then repeat_loop body mn mx k fuel' (S count) pos' s' caps'
            else None)
        else None in
      match more with
      | Some a => Some a
      | None => if Nat.leb mn count then k pos s caps else None
      end
  end.

Fixpoint rmatch (r : regex) (pos : nat) (s : string) (caps : captures)
    (k : cont) : option A :=
  match r with
  | REmpty => k pos s caps
  | RChar _ | RAny | RDigit | RSet _ _ => one_char r pos s caps k
  | RBol => if Nat.eqb pos 0 then k pos s caps else None
  | REol => if at_eol s then k pos s caps else None
  | RSeq r1 r2 =>
      rmatch r1 pos s caps (fun pos' s' caps' => rmatch r2 pos' s' caps' k)
  | RGroup i r1 =>
      rmatch r1 pos s caps (fun pos' s' caps' =>
        k pos' s' (<[i := Str.consumed s s']> caps'))
  | RRepeat mn mx r1 =>
      repeat_loop (rmatch r1) mn mx k (S (String.length s)) 0 pos s caps
  end.

End Matcher.

(* ----------------------------------------------------------------- *)
(** *** What a match is *)

(** A state of the matcher: position, text left, groups captured. *)
Definition mstate : Type := nat * string * captures.

(** Rounds of a repetition, counted from [count]: each round is a step of
    [body] that consumes something; the repetition may stop once [mn]
    rounds are done. *)
Inductive reps (body : mstate -> mstate -> Prop) (mn : nat) (mx : option nat)
  : nat -> mstate -> mstate -> Prop :=
| reps_stop count st :
    mn <= count -> reps body mn mx count st st
| reps_more count pos s caps pos1 s1 caps1 st' :
    may_repeat mx count = true ->
    body (pos, s, caps) (pos1, s1, caps1) ->
    String.length s1 < String.length s ->
    reps body mn mx (S count) (pos1, s1, caps1) st' ->
    reps body mn mx count (pos, s, caps) st'.

(** [spans r st st']: the expression [r] can take the matcher from [st]
    to [st'].  The claims about matches are read off this relation. *)
Fixpoint spans (r : regex) (st st' : mstate) : Prop :=
  match r with
  | REmpty => st' = st
  | RChar _ | RAny | RDigit | RSet _ _ =>
      exists c, st.1.2 = String c st'.1.2 /\ accepts r c = true
                /\ st'.1.1 = S st.1.1 /\ st'.2 = st.2
  | RBol => st.1.1 = 0 /\ st' = st
  | REol => at_eol st.1.2 = true /\ st' = st
  | RSeq r1 r2 => exists mid, spans r1 st mid /\ spans r2 mid st'
  | RGroup i r1 =>
      exists caps1, spans r1 st (st'.1, caps1)
                    /\ st'.2 = <[i := Str.consumed st.1.2 st'.1.2]> caps1
  | RRepeat mn mx r1 => reps (spans r1) mn mx 0 st st'
  end.

(** One-character expressions. *)
Definition is_atom (r : regex) : bool :=
  match r with
  | RChar _ | RAny | RDigit | RSet _ _ => true
  | _ => false
  end.

(** [rest] does not start by a character [r] accepts. *)
Definition stops (r : regex) (rest : string) : bool :=
  match rest with
  | "" => true
  | String c _ => negb (accepts r c)
  end.

(** What [repeat_loop] computes over a run [w] of characters its body
    accepts, followed by [rest]: the longest split first, then the shorter
    ones, down to the least the repetition allows. *)
Fixpoint greedy {A : Type} (mn : nat) (k : cont (A:=A)) (count pos : nat)
    (w rest : string) (caps : captures) : option A :=
  match w with
  | "" => if Nat.leb mn count then k pos rest caps else None
  | String c w' =>
      match greedy mn k (S count) (S pos) w' rest caps with
      | Some a => Some a
      | None => if Nat.leb mn count then k pos (String c w' +:+ rest) caps else None
      end
  end.

(** The capture numbers an expression writes. *)
Fixpoint group_ids (r : regex) : list nat :=
  match r with
  | RSeq r1 r2 => group_ids r1 ++ group_ids r2
  | RGroup i r1 => i :: group_ids r1
  | RRepeat _ _ r1 => group_ids r1
  | _ => []
  end.

(** A match object: [group(0)], the groups that took part, the number of
    groups of the pattern, and the text after the match. *)
Record match_obj : Type := Match {
  m_text : string;
  m_groups : captures;
  m_ngroups : nat;
  m_rest : string
}.

Definition match_at (r : regex) (n pos : nat) (s : string) : option match_obj :=
  rmatch r pos s ∅ (fun _ s' caps => Some (Match (Str.consumed s s') caps n s')).

(** [m.group(i)]: [None] for a group that took no part in the match. *)
Definition group (m : match_obj) (i : nat) : res (option string) :=
  if Nat.eqb i 0 then Ok (Some (m_text m))
  else if Nat.leb i (m_ngroups m) then Ok (m_groups m !! i)
  else Raise (IndexError "no such group").

(** [re.match(pattern, s)]: the pattern applies at the start of [s]. *)
Definition re_match (pattern s : string) : res (option match_obj) :=
  match parse pattern with
  | Some (r, n) => Ok (match_at r n 0 s)
  | None => Unmodelled
  end.

(** The scan of [re.finditer]: leftmost matches that do not overlap.
    [skip] counts the characters of the last match still to pass.  An empty
    match is outside the model. *)
Fixpoint scan (r : regex) (n pos skip : nat) (s : string) : res (list match_obj) :=
  match skip with
  | S skip' =>
      match s with
      | String _ s' => scan r n (S pos) skip' s'
      | "" => Ok []
      end
  | 0 =>
      match match_at r n pos s with
      | Some m =>
          match String.length (m_text m), s with
          | S len, String _ s' => ms ← scan r n (S pos) len s'; Ok (m :: ms)
          | _, _ => Unmodelled
          end
      | None =>
          match s with
          | String _ s' => scan r n (S pos) 0 s'
          | "" => Ok []
          end
      end
  end.

Definition re_finditer (pattern s : string) : res (list match_obj) :=
  match parse pattern with
  | Some (r, n) => scan r n 0 0 s
  | None => Unmodelled
  end.

End Re.

(* ================================================================= *)
(** ** Conversions of captured text *)

(** The value of a path parameter.  [PFloat text] is the float that
    [float(text)] returns; [PNone] is Python's [None]. *)
Inductive pvalue : Type :=
| PStr (s : string)
| PInt (z : Z)
| PFloat (text : string)
| PNone.

Module Conv.

(** The white space [int] passes over around the number: ASCII white
    space, and the two other white-space code points below 256.  (The
    separators 28 to 31, which [str.strip] removes, are not among them.) *)
Definition int_space (c : ascii) : bool :=
  Str.in_range 9 13 c || Nat.eqb (Str.code c) 32
  || Nat.eqb (Str.code c) 133 || Nat.eqb (Str.code c) 160.

Fixpoint skip_space (s : string) : string :=
  match s with
  | String c s' => if int_space c then skip_space s' else s
  | "" => ""
  end.

(** The run of digits and underscores at the start of [s]: its value, the
    number of its digits and the text after it.  [None]: an underscore
    starts the run, follows another, or ends the run. *)
Fixpoint int_run (s : string) (acc : Z) (digits : nat) (after_digit : bool)
  : option (Z * nat * string) :=
  let stop := if after_digit || Nat.eqb digits 0
              then Some (acc, digits, s) else None in
  match s with
  | "" => stop
  | String c s' =>
      if Str.is_digit c
      then int_run s' (10 * acc + Z.of_nat (Re.digit_value c))%Z (S digits) true
      else if Ascii.eqb c "_"
      then if after_digit then int_run s' acc digits false else None
      else stop
  end.

(** The default of [sys.get_int_max_str_digits()]: the longest decimal
    text [int] reads and [str] writes. *)
Definition max_str_digits : nat := 4300.

(** [int(raw)] in base ten for a [str] (or [None]): white space, a sign,
    digits with single underscores between them, white space.  The checks
    come in CPython's order: the underscores, the number of digits, then
    what follows the digits.  The message quotes [repr(raw)], cut at 200
    characters. *)
Definition py_int (raw : option string) : res Z :=
  match raw with
  | None =>
      Raise (TypeError
        "int() argument must be a string, a bytes-like object or a real number, not 'NoneType'")
  | Some s =>
      let invalid :=
        ValueError ("invalid literal for int() with base 10: "
                    +:+ Str.take 200 (Str.repr s)) in
      let t := skip_space s in
      let '(negative, body) :=
        match t with
        | String "-" b => (true, b)
        | String "+" b => (false, b)
        | _ => (false, t)
        end in
      match int_run body 0 0 false with
      | None => Raise invalid
      | Some (z, digits, rest) =>
          if Nat.ltb max_str_digits digits
          then Raise (ValueError
                 ("Exceeds the limit (4300 digits) for integer string conversion: value has "
                  +:+ Str.of_nat digits
                  +:+ " digits; use sys.set_int_max_str_digits() to increase the limit"))
          else if Nat.eqb digits 0 then Raise invalid
          else match skip_space rest with
               | "" => Ok (if negative then (- z)%Z else z)
               | _ => Raise invalid
               end
      end
  end.

(** [str(z)], also [format(z, '')] in an f-string: the decimal text, for
    an integer of at most [max_str_digits] digits. *)
Definition int_str (z : Z) : res string :=
  if Nat.ltb max_str_digits (String.length (Str.of_Z (Z.abs z)))
  then Raise (ValueError
         "Exceeds the limit (4300 digits) for integer string conversion; use sys.set_int_max_str_digits() to increase the limit")
  else Ok (Str.of_Z z).

(** Digits, then possibly a point and more digits. *)
Fixpoint decimal_tail (s : string) (seen_point : bool) : bool :=
  match s with
  | "" => true
  | String c s' =>
      if Str.is_digit c then decimal_tail s' seen_point
      else if Ascii.eqb c "." && negb seen_point then decimal_tail s' true
      else false
  end.

Definition plain_decimal (s : string) : bool :=
  match s with
  | String c s' => Str.is_digit c && decimal_tail s' false
  | "" => false
  end.

(** [float(raw)], given a meaning on plain decimals only. *)
Definition py_float (raw : option string) : res pvalue :=
  match raw with
  | None =>
      Raise (TypeError
        "float() argument must be a string or a real number, not 'NoneType'")
  | Some s => if plain_decimal s then Ok (PFloat s) else Unmodelled
  end.

End Conv.

(* ================================================================= *)
(** ** [URLPattern] *)

Record URLPattern : Type := MkURLPattern {
  pattern : string;
  regex_pattern : option string;
  parameter_names : list (string * string)
}.

Definition parameter_regex : string := "<(?:([^:>]+):)?([^>]+)>".

Definition type_patterns : list (string * string) :=
  [ ("string", "([^/]+)");
    ("int", "(\d+)");
    ("float", "(\d+\.?\d*)");
    ("path", "(.+)");
    ("uuid", "([0-9a-f]{8}-[0-9a-f]{4}-[0-9a-f]{4}-[0-9a-f]{4}-[0-9a-f]{12})") ].

(** [d.get(key, default)] on a dictionary literal. *)
Fixpoint dict_get (d : list (string * string)) (key default : string) : string :=
  match d with
  | [] => default
  | (k, v) :: d' => if String.eqb k key then v else dict_get d' key default
  end.

(** One round of the loop of [_compile_pattern]. *)
Definition compile_step (m : Re.match_obj)
    (st : list (string * string) * string) : res (list (string * string) * string) :=
  let '(names, regex) := st in
  g1 ← Re.group m 1;
  g2 ← Re.group m 2;
  g0 ← Re.group m 0;
  let param_type :=
    match g1 with
    | Some (String c t) => String c t
    | _ => "string"
    end in
  match g2, g0 with
  | Some param_name, Some whole =>
      let type_pattern := dict_get type_patterns param_type "([^/]+)" in
      Ok (names ++ [(param_name, param_type)],
          Str.replace_first whole type_pattern regex)
  | _, _ => Unmodelled
  end.

Fixpoint compile_loop (ms : list Re.match_obj)
    (st : list (string * string) * string) : res (list (string * string) * string) :=
  match ms with
  | [] => Ok st
  | m :: ms' => st' ← compile_step m st; compile_loop ms' st'
  end.

Definition _compile_pattern (self : URLPattern) : res URLPattern :=
  ms ← Re.re_finditer parameter_regex (pattern self);
  '(names, regex) ← compile_loop ms (parameter_names self, pattern self);
  Ok (MkURLPattern (pattern self) (Some ("^" +:+ regex +:+ "$")) names).

(** [URLPattern(pattern)]. *)
Definition URLPattern_init (pat : string) : res URLPattern :=
  _compile_pattern (MkURLPattern pat None []).

Abbreviation params := (gmap string pvalue).

(** The loop of [match] over [enumerate(self.parameter_names)]; [None] is
    the early [return None]. *)
Fixpoint convert_params (m : Re.match_obj) (i : nat)
    (names : list (string * string)) (acc : params) : res (option params) :=
  match names with
  | [] => Ok (Some acc)
  | (param_name, param_type) :: rest =>
      raw_value ← Re.group m (i + 1);
      converted ←
        try_except
          (if String.eqb param_type "int"
           then z ← Conv.py_int raw_value; Ok (Some (PInt z))
           else if String.eqb param_type "float"
           then v ← Conv.py_float raw_value; Ok (Some v)
           else Ok (Some (match raw_value with Some s => PStr s | None => PNone end)))
          ["ValueError"; "TypeError"]
          (fun _ => Ok None);
      match converted with
      | Some v => convert_params m (S i) rest (<[param_name := v]> acc)
      | None => Ok None
      end
  end.

(** [URLPattern.match(url)]: [Some params], or [None] for no match. *)
Definition URLPattern_match (self : URLPattern) (url : string) : res (option params) :=
  match regex_pattern self with
  | None | Some "" =>
      Ok (if String.eqb url (pattern self) then Some ∅ else None)
  | Some rx =>
      m ← Re.re_match rx url;
      match m with
      | None => Ok None
      | Some mo => convert_params mo 0 (parameter_names self) ∅
      end
  end.

(* ================================================================= *)
(** ** The parameter expression, read by hand *)

(** [parameter_regex] as [re] parses it (shown by [parse_parameter_regex]
    below), and what it finds at the start of a text, written out as plain
    functions (shown equal to the matcher's answer by [match_at_param]). *)

Import Re.

Definition name_set : regex := RSet true [(">"%char, ">"%char)].
Definition type_set : regex := RSet true [(":"%char, ":"%char); (">"%char, ">"%char)].

Definition param_ast : regex :=
  seq_of [RChar "<";
          RRepeat 0 (Some 1)
            (seq_of [RGroup 1 (seq_of [RRepeat 1 None type_set]); RChar ":"]);
          RGroup 2 (seq_of [RRepeat 1 None name_set]);
          RChar ">"].

Definition name_part : regex :=
  RSeq (RGroup 2 (seq_of [RRepeat 1 None name_set])) (RSeq (RChar ">") REmpty).
Definition type_part : regex :=
  RSeq (RGroup 1 (seq_of [RRepeat 1 None type_set])) (RSeq (RChar ":") REmpty).

(** The name part: the longest run without [>], then [>]. *)
Definition find_name (s : string) : option (string * string) :=
  match Str.span (accepts name_set) s with
  | (String c n, String ">" rest) => Some (String c n, rest)
  | _ => None
  end.

(** The type part: the longest run without [:] or [>], then [:]. *)
Definition find_type (s : string) : option (string * string) :=
  match Str.span (accepts type_set) s with
  | (String c t, String ":" rest) => Some (String c t, rest)
  | _ => None
  end.

(** A placeholder at the start of [s]: its type if it has one, its name, and
    the text after it. *)
Definition find_param (s : string) : option (option string * string * string) :=
  match s with
  | String "<" body =>
      let typed :=
        match find_type body with
        | Some (ty, after) =>
            match find_name after with
            | Some (name, rest) => Some (Some ty, name, rest)
            | None => None
            end
        | None => None
        end in
      match typed with
      | Some found => Some found
      | None =>
          match find_name body with
          | Some (name, rest) => Some (None, name, rest)
          | None => None
          end
      end
  | _ => None
  end.

(** The groups of a match of the parameter expression. *)
Definition param_caps (ty : option string) (name : string) : captures :=
  match ty with
  | Some t => <[2 := name]> (<[1 := t]> ∅)
  | None => <[2 := name]> ∅
  end.

(* ================================================================= *)
(** ** Templates by their parts *)

(** A template as a sequence of literal characters and placeholders; the
    properties that speak of every template of some shape quantify over
    these. *)
Inductive segment : Type :=
| Lit (c : ascii)
| Hole (ty : option string) (name : string).

Definition hole_text (ty : option string) (name : string) : string :=
  match ty with
  | Some t => "<" +:+ t +:+ ":" +:+ name +:+ ">"
  | None => "<" +:+ name +:+ ">"
  end.

Definition render_segment (seg : segment) : string :=
  match seg with
  | Lit c => String c ""
  | Hole ty name => hole_text ty name
  end.

Fixpoint render (segs : list segment) : string :=
  match segs with
  | [] => ""
  | seg :: segs' => render_segment seg +:+ render segs'
  end.

(** A template of literal characters. *)
Fixpoint lits (s : string) : list segment :=
  match s with
  | "" => []
  | String c s' => Lit c :: lits s'
  end.

Definition nonempty (s : string) : bool :=
  match s with "" => false | _ => true end.

(** A placeholder as the compiler reads it back: [<name>] with a name free
    of [:] and [>], or [<type:name>] with a type free of [:] and [>] and a
    name free of [>]. *)
Definition hole_ok (ty : option string) (name : string) : bool :=
  nonempty name &&
  match ty with
  | Some t => nonempty t && Str.forallb (accepts type_set) t
              && Str.forallb (accepts name_set) name
  | None => Str.forallb (accepts type_set) name
  end.

(** A literal character is any that [lit_ok] admits, the opening angle
    bracket apart. *)
Definition segment_ok (lit_ok : ascii -> bool) (seg : segment) : bool :=
  match seg with
  | Lit c => lit_ok c && negb (Ascii.eqb c "<")
  | Hole ty name => hole_ok ty name
  end.

Definition template_ok (lit_ok : ascii -> bool) (segs : list segment) : bool :=
  forallb (segment_ok lit_ok) segs.

Definition any_char (_ : ascii) : bool := true.

(** Characters that stand for themselves in a pattern: all but the
    metacharacters of [re]. *)
Definition plain (c : ascii) : bool := negb (Str.mem c ".^$*+?{}[]\|()").

(** The type the compiler records for a placeholder. *)
Definition hole_type (ty : option string) : string :=
  match ty with
  | Some (String c t) => String c t
  | _ => "string"
  end.

(** The parameters of a template, in order: name and recorded type. *)
Fixpoint holes (segs : list segment) : list (string * string) :=
  match segs with
  | [] => []
  | Lit _ :: segs' => holes segs'
  | Hole ty name :: segs' => (name, hole_type ty) :: holes segs'
  end.

Fixpoint hole_names (segs : list segment) : list string :=
  match segs with
  | [] => []
  | Lit _ :: segs' => hole_names segs'
  | Hole _ name :: segs' => name :: hole_names segs'
  end.

(** The matches [finditer] yields on a template given by its parts. *)
Fixpoint matches_of (segs : list segment) : list match_obj :=
  match segs with
  | [] => []
  | Lit _ :: segs' => matches_of segs'
  | Hole ty name :: segs' =>
      Match (hole_text ty name) (param_caps ty name) 2 (render segs')
      :: matches_of segs'
  end.

(** A match object of the parameter expression. *)
Definition is_param_match (m : match_obj) : Prop :=
  exists ty name rest,
    m = Match (hole_text ty name) (param_caps ty name) 2 rest
    /\ name <> "" /\ match ty with Some t => t <> "" | None => True end.

(** [type_patterns.get(param_type, '([^/]+)')]. *)
Definition type_pattern (param_type : string) : string :=
  dict_get type_patterns param_type "([^/]+)".

(** The source of the expression a template compiles to, anchors apart. *)
Fixpoint regex_src (segs : list segment) : string :=
  match segs with
  | [] => ""
  | Lit c :: segs' => String c (regex_src segs')
  | Hole ty _ :: segs' => type_pattern (hole_type ty) +:+ regex_src segs'
  end.

Definition hex_set : regex := RSet false [("0"%char, "9"%char); ("a"%char, "f"%char)].

(** The body of the group each type pattern parses to. *)
Definition type_body (param_type : string) : regex :=
  if String.eqb "string" param_type then seq_of [RRepeat 1 None (RSet true [("/"%char, "/"%char)])]
  else if String.eqb "int" param_type then seq_of [RRepeat 1 None RDigit]
  else if String.eqb "float" param_type then
    seq_of [RRepeat 1 None RDigit; RRepeat 0 (Some 1) (RChar "."); RRepeat 0 None RDigit]
  else if String.eqb "path" param_type then seq_of [RRepeat 1 None RAny]
  else if String.eqb "uuid" param_type then
    seq_of [RRepeat 8 (Some 8) hex_set; RChar "-"; RRepeat 4 (Some 4) hex_set;
            RChar "-"; RRepeat 4 (Some 4) hex_set; RChar "-";
            RRepeat 4 (Some 4) hex_set; RChar "-"; RRepeat 12 (Some 12) hex_set]
  else seq_of [RRepeat 1 None (RSet true [("/"%char, "/"%char)])].

(** The items of the compiled expression, groups numbered from [n + 1]. *)
Fixpoint items (segs : list segment) (n : nat) : list regex :=
  match segs with
  | [] => []
  | Lit c :: segs' => RChar c :: items segs' n
  | Hole ty _ :: segs' =>
      RGroup (S n) (type_body (hole_type ty)) :: items segs' (S n)
  end.

(** The expression a template given by its parts compiles to. *)
Definition compiled_ast (segs : list segment) : regex :=
  seq_of (RBol :: items segs 0 ++ [REol]).

(** The groups of the placeholders typed [int], after a match of the
    items of [segs] numbered from [n + 1]. *)
Definition int_groups_ok (segs : list segment) (n : nat) (caps : captures) : Prop :=
  forall i name,
    holes segs !! i = Some (name, "int") ->
    exists w, caps !! (S (n + i)) = Some w /\ w <> ""
              /\ Str.forallb Str.is_digit w = true.


(** Expressions made of one-character items and their repetitions: the
    bodies of the type patterns are such. *)
Fixpoint simple (r : regex) : bool :=
  match r with
  | REmpty | RChar _ | RAny | RDigit | RSet _ _ => true
  | RSeq r1 r2 => simple r1 && simple r2
  | RRepeat _ _ r1 => is_atom r1
  | _ => false
  end.

(** The characters such an expression can consume, and the least number
    of them. *)
Fixpoint char_ok (r : regex) (c : ascii) : bool :=
  match r with
  | RSeq r1 r2 => char_ok r1 c || char_ok r2 c
  | RRepeat _ _ r1 => accepts r1 c
  | _ => accepts r c
  end.

Fixpoint min_len (r : regex) : nat :=
  match r with
  | RChar _ | RAny | RDigit | RSet _ _ => 1
  | RSeq r1 r2 => min_len r1 + min_len r2
  | RRepeat mn _ _ => mn
  | _ => 0
  end.

(** What a placeholder of type [ty] may capture: never the empty text;
    no slash, or for a [path] no newline. *)
Definition fits_type (ty w : string) : Prop :=
  w <> ""
  /\ if String.eqb "path" ty then Str.mem Str.LF w = false
     else Str.mem "/" w = false.

Definition groups_fit (segs : list segment) (n : nat) (caps : captures) : Prop :=
  forall i name ty,
    holes segs !! i = Some (name, ty) ->
    exists w, caps !! (S (n + i)) = Some w /\ fits_type ty w.

(** What a match may bind to [name], given the parameters declared: a
    text is not empty and holds a slash only under a [path] placeholder;
    [None] is never bound. *)
Definition value_fits (names : list (string * string)) (name : string)
    (v : pvalue) : Prop :=
  match v with
  | PStr s =>
      s <> ""
      /\ (Str.mem "/" s = false
          \/ ((name, "path") ∈ names /\ Str.mem Str.LF s = false))
  | PNone => False
  | _ => True
  end.







(* ================================================================= *)
(** ** [RouteManager] *)

Section Routes.
(** Handlers and middlewares are Python callables; the route table only
    stores them. *)
Context {H M : Type}.

(** An entry of [static_routes[path]]. *)
Record route_info : Type := RouteInfo {
  ri_handler : H;
  ri_middlewares : list M
}.

(** An entry of [dynamic_routes]. *)
Record dyn_route : Type := DynRoute {
  dr_pattern : URLPattern;
  dr_original_pattern : string;
  dr_method : string;
  dr_handler : H;
  dr_middlewares : list M
}.

Record RouteManager : Type := MkRouteManager {
  static_routes : gmap string (gmap string route_info);
  dynamic_routes : list dyn_route
}.

Definition RouteManager_init : RouteManager := MkRouteManager ∅ [].

(** The test of [add_route] that sends a path to the pattern routes. *)
Definition is_dynamic (pat : string) : bool :=
  Str.mem "<" pat && Str.mem ">" pat.

(** [middlewares or []]. *)
Definition or_empty (middlewares : option (list M)) : list M :=
  match middlewares with
  | Some (m :: ms) => m :: ms
  | _ => []
  end.

(** [add_route(pattern, method, handler, middlewares=None)]. *)
Definition add_route (self : RouteManager) (pat method : string) (handler : H)
    (middlewares : option (list M)) : res RouteManager :=
  let middlewares := or_empty middlewares in
  if is_dynamic pat then
    url_pattern ← URLPattern_init pat;
    Ok (MkRouteManager (static_routes self)
          (dynamic_routes self ++
             [DynRoute url_pattern pat method handler middlewares]))
  else
    let static :=
      match static_routes self !! pat with
      | None => <[pat := ∅]> (static_routes self)
      | Some _ => static_routes self
      end in
    Ok (MkRouteManager
          (<[pat := <[method := RouteInfo handler middlewares]>
                      (default ∅ (static !! pat))]> static)
          (dynamic_routes self)).

(** The loop of [find_route] over [dynamic_routes]. *)
Fixpoint find_dynamic (routes : list dyn_route) (path method : string)
  : res (option H * params * list M) :=
  match routes with
  | [] => Ok (None, ∅, [])
  | route :: rest =>
      if String.eqb (dr_method route) method then
        ps ← URLPattern_match (dr_pattern route) path;
        match ps with
        | Some ps => Ok (Some (dr_handler route), ps, dr_middlewares route)
        | None => find_dynamic rest path method
        end
      else find_dynamic rest path method
  end.

(** [find_route(path, method)]: handler (or [None]), parameters and
    middlewares. *)
Definition find_route (self : RouteManager) (path method : string)
  : res (option H * params * list M) :=
  match static_routes self !! path with
  | Some by_method =>
      match by_method !! method with
      | Some route_info =>
          Ok (Some (ri_handler route_info), ∅, ri_middlewares route_info)
      | None => find_dynamic (dynamic_routes self) path method
      end
  | None => find_dynamic (dynamic_routes self) path method
  end.

(** The entry of the exact-match index for a path and a method. *)
Definition static_lookup (self : RouteManager) (path method : string)
  : option route_info :=
  static_routes self !! path ≫= (.!! method).

(** A registration: the arguments of one [add_route] call. *)
Record registration : Type := Reg {
  reg_path : string;
  reg_method : string;
  reg_handler : H;
  reg_middlewares : option (list M)
}.

(** The table after a start-up that makes the calls of [regs] in order. *)
Fixpoint register_all (regs : list registration) (self : RouteManager)
  : res RouteManager :=
  match regs with
  | [] => Ok self
  | r :: regs' =>
      self' ← add_route self (reg_path r) (reg_method r) (reg_handler r)
                (reg_middlewares r);
      register_all regs' self'
  end.

(** The pattern routes are the registrations that [add_route] sends to
    [dynamic_routes]. *)
Definition dynamic_regs (regs : list registration) : list registration :=
  List.filter (fun r => is_dynamic (reg_path r)) regs.

(** What the matcher compiled from a registration's path says of [path]. *)
Definition route_matches (r : registration) (path : string) : res (option params) :=
  url_pattern ← URLPattern_init (reg_path r);
  URLPattern_match url_pattern path.

(** A pattern route of the table made from a registration. *)
Definition compiled (r : registration) (d : dyn_route) : Prop :=
  exists u, URLPattern_init (reg_path r) = Ok u
    /\ d = DynRoute u (reg_path r) (reg_method r) (reg_handler r)
                    (or_empty (reg_middlewares r)).

(** A registration that answers a request neither as an exact route nor
    as a pattern route. *)
Definition passes_over (path m : string) (r : registration) : Prop :=
  if is_dynamic (reg_path r)
  then reg_method r <> m \/ route_matches r path = Ok None
  else ~ (reg_path r = path /\ reg_method r = m).

End Routes.

Arguments route_info : clear implicits.
Arguments dyn_route : clear implicits.
Arguments RouteManager : clear implicits.
Arguments registration : clear implicits.

(* ================================================================= *)
(** ** Bytes and UTF-8 *)

Module Bytes.

Definition bytes := list byte.

Definition of_code (n : nat) : byte := default x00 (Byte.of_nat n).

(** UTF-8 of one code point below 256. *)
Definition encode_char (c : ascii) : bytes :=
  if Nat.ltb (Str.code c) 128 then [byte_of_ascii c]
  else [of_code (192 + Str.code c / 64); of_code (128 + Str.code c mod 64)].

(** [s.encode('utf-8')], also [s.encode()]. *)
Fixpoint encode (s : string) : bytes :=
  match s with
  | "" => []
  | String c s' => encode_char c ++ encode s'
  end.

Definition is_continuation (b : byte) : bool :=
  Nat.leb 128 (Byte.to_nat b) && Nat.ltb (Byte.to_nat b) 192.

(** The [UnicodeDecodeError] for one byte that cannot be decoded. *)
Definition decode_error (b : byte) (pos : nat) (reason : string) : exn :=
  UnicodeDecodeError
    ("'utf-8' codec can't decode byte 0x" +:+ Str.hex2 (Byte.to_nat b)
     +:+ " in position " +:+ Str.of_nat pos +:+ ": " +:+ reason).

(** The decoding of [b], whose first byte is at position [pos] of the
    input.  A result when every code point is below 256; the error of the
    first byte that starts no sequence, or of the lead byte of a two-byte
    sequence that is cut short or not continued.  Sequences of two bytes
    for code points from 256 on and sequences of three and four bytes are
    outside the model. *)
Fixpoint decode_from (pos : nat) (b : bytes) : res string :=
  match b with
  | [] => Ok ""
  | x :: rest =>
      let n := Byte.to_nat x in
      if Nat.ltb n 128 then
        s ← decode_from (S pos) rest; Ok (String (ascii_of_byte x) s)
      else if Nat.ltb n 194 || Nat.ltb 244 n
      then Raise (decode_error x pos "invalid start byte")
      else if Nat.ltb n 224 then
        match rest with
        | y :: rest' =>
            if is_continuation y then
              if Nat.ltb n 196 then
                s ← decode_from (S (S pos)) rest';
                Ok (String (ascii_of_nat ((n - 192) * 64 + (Byte.to_nat y - 128))) s)
              else Unmodelled
            else Raise (decode_error x pos "invalid continuation byte")
        | [] => Raise (decode_error x pos "unexpected end of data")
        end
      else Unmodelled
  end.

(** [b.decode('utf-8')]. *)
Definition decode (b : bytes) : res string := decode_from 0 b.

End Bytes.

(* ================================================================= *)
(** ** [Response] (response.py) *)

Definition header : Type := string * string.

Record Response : Type := MkResponse {
  status_code : string;
  text : string;
  headers : list header
}.

(** [Response(status_code="404 Not Found", text="Route not Found")]. *)
Definition Response_init (status_code text : option string) : Response :=
  MkResponse (default "404 Not Found" status_code)
             (default "Route not Found" text)
             [("Content-Type", "text/plain")].

(** The [status_code] argument of [send]: an [int], a [bool] (which
    [isinstance(status_code, int)] takes for an [int] too) or a string. *)
Inductive status_arg : Type :=
| StatusInt (z : Z)
| StatusBool (b : bool)
| StatusStr (s : string).

(** The f-string [f"{status_code} OK"] of [send], and what [send] stores
    for a string. *)
Definition status_line (status : status_arg) : res string :=
  match status with
  | StatusInt z => t ← Conv.int_str z; Ok (t +:+ " OK")
  | StatusBool b => Ok ((if b then "True" else "False") +:+ " OK")
  | StatusStr s => Ok s
  end.

(** [send(text="", status_code="200 OK")], for a [text] that is a string:
    the response after the call, and whether the call returned.  The text
    is stored first, so it is changed also when the f-string raises. *)
Definition Response_send (self : Response) (text : string) (status : status_arg)
  : Response * res unit :=
  let stored := MkResponse (status_code self) text (headers self) in
  match status_line status with
  | Ok line => (MkResponse line text (headers self), Ok tt)
  | Raise e => (stored, Raise e)
  | Unmodelled => (stored, Unmodelled)
  end.

(** What a WSGI application hands back: the arguments of its last call
    of [start_response], if it made one, and the chunks it returns. *)
Inductive chunk : Type :=
| ChunkStr (s : string)
| ChunkBytes (b : Bytes.bytes).

Record wsgi_result : Type := WsgiResult {
  started : option (string * list header);
  chunks : list chunk
}.

(** [as_wsgi(start_response)]. *)
Definition as_wsgi (self : Response) : wsgi_result :=
  let headers := match headers self with
                 | [] => [("Content-Type", "text/plain")]
                 | hs => hs
                 end in
  WsgiResult (Some (status_code self, headers))
             [ChunkBytes (Bytes.encode (text self))].

(** The loop of [__set_content_type]: the first header named
    Content-Type, in whatever case, is replaced; [None] when there is
    none. *)
Fixpoint set_first_content_type (content_type : string) (headers : list header)
  : option (list header) :=
  match headers with
  | [] => None
  | (name, value) :: rest =>
      if String.eqb (Str.lower name) "content-type"
      then Some (("Content-Type", content_type) :: rest)
      else cons (name, value) <$> set_first_content_type content_type rest
  end.

(** [__set_content_type(content_type)]. *)
Definition Response_set_content_type (self : Response) (content_type : string)
  : Response :=
  MkResponse (status_code self) (text self)
    (match set_first_content_type content_type (headers self) with
     | Some updated => updated
     | None => headers self ++ [("Content-Type", content_type)]
     end).

(** A header named Content-Type, in whatever case. *)
Definition names_content_type (h : header) : bool :=
  String.eqb (Str.lower (fst h)) "content-type".

(** The argument of [redirect]: a handler function, or a string. *)
Inductive redirect_target (H : Type) : Type :=
| ToHandler (h : H)
| ToText (s : string).
Arguments ToHandler {H} h.
Arguments ToText {H} s.

(** [redirect(funct, peramanent=False)]; [app] is the [route_map] of the
    application the response belongs to, if it has one.  The status and
    text written when the handler has a route are overwritten by the
    lines that follow.  Two cases are left out: a handler without a route
    (the [Location] value is then [None], not a string) and a handler
    given to a response without application ([str] of a function). *)
Definition Response_redirect {H : Type} `{Countable H}
    (app : option (gmap H string)) (self : Response)
    (funct : redirect_target H) (peramanent : bool) : res Response :=
  '(self, location) ←
    match funct, app with
    | ToHandler h, Some route_map =>
        match route_map !! h with
        | Some "" => Ok (self, "")
        | Some location =>
            Ok (MkResponse "500 Internal server error"
                           "Unalbe to resolve redirect target !!!"
                           (headers self),
                location)
        | None => Unmodelled
        end
    | ToHandler _, None => Unmodelled
    | ToText s, _ => Ok (self, s)
    end;
  Ok (MkResponse
        (if peramanent then "301 Moved Permanently " else "302 Found")
        ("Redirecting to " +:+ location)
        [("Location", location)]).

(* ================================================================= *)
(** ** [Request] (request.py) *)

(** [environ['wsgi.input']]: the socket server passes an [io.StringIO];
    the binary stream of a WSGI server is taken to be an [io.BytesIO]. *)
Inductive wsgi_input : Type :=
| InputStr (s : string)
| InputBytes (b : Bytes.bytes).

(** What [wsgi.input.read(n)] returns. *)
Inductive body_data : Type :=
| DataStr (s : string)
| DataBytes (b : Bytes.bytes).

(** The first [n] characters or bytes of the stream. *)
Definition input_read (input : wsgi_input) (n : nat) : body_data :=
  match input with
  | InputStr s => DataStr (Str.take n s)
  | InputBytes b => DataBytes (firstn n b)
  end.

(** The largest size [read] takes: [sys.maxsize] of a 64-bit CPython. *)
Definition maxsize : Z := (2 ^ 63 - 1)%Z.

(** [wsgi.input.read(size)] on a fresh [io.StringIO] or [io.BytesIO], for
    a positive [size]: a size that does not fit an index raises. *)
Definition stream_read (input : wsgi_input) (size : Z) : res body_data :=
  if (maxsize <? size)%Z
  then Raise (OverflowError "cannot fit 'int' into an index-sized integer")
  else Ok (input_read input (Z.to_nat size)).

(** [request_body.decode('utf-8')]: a [str] has no such method. *)
Definition data_decode (d : body_data) : res string :=
  match d with
  | DataStr _ => Raise (AttributeError "'str' object has no attribute 'decode'")
  | DataBytes b => Bytes.decode b
  end.

(** The WSGI environment, by the keys the framework reads; [http_headers]
    holds the other request headers by normalised name (their keys carry
    the prefix [HTTP_] in Python). *)
Record environ : Type := Environ {
  REQUEST_METHOD : option string;
  PATH_INFO : option string;
  QUERY_STRING : option string;
  CONTENT_TYPE : option string;
  CONTENT_LENGTH : option string;
  wsgi_input_of : option wsgi_input;
  REMOTE_ADDR : option string;
  http_headers : gmap string string
}.

Section Request.
(** The standard library's [urllib.parse.parse_qsl], [urllib.parse.parse_qs]
    and [json.loads] ([None]: it raises [json.JSONDecodeError]), and the
    values of JSON. *)
Context {J : Type}.
Variable parse_qsl : string -> list (string * string).
Variable parse_qs : string -> list (string * list string).
Variable json_loads : string -> option J.

(** A field of a decoded form: one value, or the list of several. *)
Inductive form_value : Type :=
| FormOne (v : string)
| FormMany (vs : list string).

(** [self.body]: a dictionary, or whatever [json.loads] returned. *)
Inductive body_value : Type :=
| BodyDict (fields : gmap string form_value)
| BodyJson (j : J).

Record Request : Type := MkRequest {
  req_environ : environ;
  method : string;
  query_params : gmap string string;
  path_info : string;
  body : body_value;
  body_raw : option body_data
}.

Definition form_fields (items : list (string * list string))
  : gmap string form_value :=
  foldl (fun acc '(key, val) =>
           <[key := match val with [v] => FormOne v | _ => FormMany val end]> acc)
        ∅ items.

(** The body part of [Request.__init__], entered when [CONTENT_LENGTH] is
    not empty: the new [body] and [body_raw]. *)
Definition read_body (env : environ) (content_length : string)
  : res (body_value * option body_data) :=
  content_length ← Conv.py_int (Some content_length);
  if (0 <? content_length)%Z then
    match wsgi_input_of env with
    | None => Raise (KeyError "'wsgi.input'")
    | Some input =>
        request_body ← stream_read input content_length;
        let content_type := default "" (CONTENT_TYPE env) in
        if Str.contains "application/x-www-form-urlencoded" content_type then
          decoded ← data_decode request_body;
          Ok (BodyDict (form_fields (parse_qs decoded)), None)
        else if Str.contains "application/json" content_type then
          b ← try_except
                 (decoded ← data_decode request_body;
                  match json_loads decoded with
                  | Some j => Ok (BodyJson j)
                  | None => Raise (JSONDecodeError "Expecting value")
                  end)
                 ["JSONDecodeError"]
                 (fun _ => Ok (BodyDict ∅));
          Ok (b, None)
        else Ok (BodyDict ∅, Some request_body)
    end
  else Ok (BodyDict ∅, None).

(** [Request(environ)]. *)
Definition Request_init (env : environ) : res Request :=
  let method := default "GET" (REQUEST_METHOD env) in
  let query_string := default "" (QUERY_STRING env) in
  let query_params :=
    match query_string with
    | "" => ∅
    | _ => foldl (fun acc '(key, val) => <[key := val]> acc) ∅
                 (parse_qsl query_string)
    end in
  let path_info := default "/" (PATH_INFO env) in
  '(body, body_raw) ←
    match default "" (CONTENT_LENGTH env) with
    | "" => Ok (BodyDict ∅, None)
    | content_length => read_body env content_length
    end;
  Ok (MkRequest env method query_params path_info body body_raw).

(** [get_query_param(key, default=None)]; [None] is Python's [None]. *)
Definition get_query_param (self : Request) (key : string)
    (default : option string) : option string :=
  match query_params self !! key with
  | Some val => Some val
  | None => default
  end.

(** [get_body_param(key, default=None)], for a body that is a dictionary
    of form fields. *)
Definition get_body_param (self : Request) (key : string)
    (default : option form_value) : res (option form_value) :=
  match body self with
  | BodyDict fields =>
      Ok (match fields !! key with
          | Some val => Some val
          | None => default
          end)
  | BodyJson _ => Unmodelled
  end.

(* ================================================================= *)
(** ** The application: [live_rocket.__call__] *)

(** A handler receives the request, the response to fill and the path
    parameters; it returns the response as it left it, or raises. *)
Definition handler : Type := Request -> Response -> params -> res Response.

(** A middleware: a function over the request, or some other object. *)
Inductive middleware : Type :=
| MwFunction (f : Request -> res Request)
| MwOther.

Record live_rocket : Type := MkApp {
  route_manager : RouteManager handler middleware;
  middlewares : list middleware
}.

(** [for mw in mws: mw(request) if it is a function, else raise]. *)
Fixpoint run_middlewares (mws : list middleware) (complaint : string)
    (request : Request) : res Request :=
  match mws with
  | [] => Ok request
  | MwFunction f :: rest =>
      request ← f request; run_middlewares rest complaint request
  | MwOther :: _ => Raise (ValueError complaint)
  end.

(** [self(environ, start_response)]. *)
Definition live_rocket_call (self : live_rocket) (env : environ) : res wsgi_result :=
  let response := Response_init None None in
  request ← Request_init env;
  request ← run_middlewares (middlewares self)
              "You can pass function as middlewares !" request;
  '(found, ps, route_middlewares) ←
     find_route (route_manager self) (path_info request) (method request);
  match found with
  | Some handler =>
      request ← run_middlewares route_middlewares
                  "You can pass only function as middlewares !!" request;
      response ← handler request response ps;
      Ok (as_wsgi response)
  | None =>
      let response := Response_init (Some "404 Not Found") (Some "Route not found") in
      Ok (as_wsgi response)
  end.

(** The run of [__call__] up to the call of the handler: the request is
    built, the global middlewares run, a route is found, its middlewares
    run. *)
Definition reaches_handler (self : live_rocket) (env : environ)
    (h : handler) (request : Request) (ps : params) : Prop :=
  exists req req' route_middlewares,
    Request_init env = Ok req
    /\ run_middlewares (middlewares self)
         "You can pass function as middlewares !" req = Ok req'
    /\ find_route (route_manager self) (path_info req') (method req')
       = Ok (Some h, ps, route_middlewares)
    /\ run_middlewares route_middlewares
         "You can pass only function as middlewares !!" req' = Ok request.

End Request.

(* ================================================================= *)
(** ** [SocketHTTPServer] *)

Module Server.

(** [build_http_response(status, headers, body)]. *)
Definition build_http_response (status : string) (headers : list header)
    (body : Bytes.bytes) : Bytes.bytes :=
  let response_lines := ["HTTP/1.1 " +:+ status] in
  let response_lines :=
    foldl (fun lines '(header_name, header_value) =>
             lines ++ [header_name +:+ ": " +:+ header_value])
          response_lines headers in
  let has_content_length :=
    existsb (fun h => String.eqb (Str.lower (fst h)) "content-length") headers in
  let response_lines :=
    if negb has_content_length
    then response_lines ++ ["Content-Length: " +:+ Str.of_nat (length body)]
    else response_lines in
  let response_lines := response_lines ++ ["Connection: close"] in
  let response_header := Str.join Str.CRLF response_lines +:+ Str.CRLF +:+ Str.CRLF in
  Bytes.encode response_header ++ body.

(** [status_messages.get(status_code, "Error")]. *)
Definition status_text (status_code : nat) : string :=
  match status_code with
  | 400 => "Bad Request"
  | 404 => "Not Found"
  | 500 => "Internal Server Error"
  | _ => "Error"
  end.

(** [create_error_response(status_code, message)]. *)
Definition create_error_response (status_code : nat) (message : string)
  : Bytes.bytes :=
  let status_text := status_text status_code in
  let body :=
    Bytes.encode ("<h1>" +:+ Str.of_nat status_code +:+ " " +:+ status_text
                  +:+ "</h1><p>" +:+ message +:+ "</p>") in
  Bytes.encode
    ("HTTP/1.1 " +:+ Str.of_nat status_code +:+ " " +:+ status_text +:+ Str.CRLF
     +:+ "Content-Type: text/html" +:+ Str.CRLF
     +:+ "Content-Length: " +:+ Str.of_nat (length body) +:+ Str.CRLF
     +:+ "Connection: close" +:+ Str.CRLF
     +:+ Str.CRLF)
  ++ body.

Definition chunk_bytes (c : chunk) : Bytes.bytes :=
  match c with
  | ChunkStr s => Bytes.encode s
  | ChunkBytes b => b
  end.

(** [handle_wsgi_request(environ)] for the application [app].  An
    application that never called [start_response] leaves [headers] at
    [None], and the loop of [build_http_response] over it raises. *)
Definition handle_wsgi_request (app : environ -> res wsgi_result) (env : environ)
  : res Bytes.bytes :=
  try_except
    (result ← app env;
     let response_parts := map chunk_bytes (chunks result) in
     match started result with
     | Some (status, headers) =>
         Ok (build_http_response status headers (concat response_parts))
     | None => Raise (TypeError "'NoneType' object is not iterable")
     end)
    ["Exception"]
    (fun e => Ok (create_error_response 500
                    ("Internal Server Error: " +:+ exn_msg e))).

Section Parse.
(** [urllib.parse.unquote]. *)
Variable unquote : string -> string.

Definition normalize_key (key : string) : option string :=
  Str.replace_char "-" "_" <$> Str.upper (Str.strip key).

(** The header loop of [parse_http_request]: the headers read, and the
    lines after the one that stopped the loop. *)
Fixpoint read_headers (lines : list string) (headers : gmap string string)
  : res (gmap string string * list string) :=
  match lines with
  | [] => Ok (headers, [])
  | "" :: rest => Ok (headers, rest)
  | header_line :: rest =>
      match Str.split_once ":" header_line with
      | Some (key, value) =>
          match normalize_key key with
          | Some k => read_headers rest (<[k := Str.strip value]> headers)
          | None => Unmodelled
          end
      | None => read_headers rest headers
      end
  end.

(** [parse_http_request(request_data, client_address)]. *)
Definition parse_http_request (request_data : string) (client_host : string)
  : res environ :=
  match Str.split Str.CRLF request_data with
  | [] => Raise (IndexError "list index out of range")
  | request_line :: rest =>
      match Str.split " " request_line with
      | [method; path; protocol] =>
          let '(path, query_string) :=
            match Str.split_once "?" path with
            | Some (p, q) => (p, q)
            | None => (path, "")
            end in
          '(headers, body_lines) ← read_headers rest ∅;
          let body := Str.join Str.CRLF body_lines in
          Ok (Environ (Some method) (Some (unquote path)) (Some query_string)
                (Some (default "" (headers !! "CONTENT_TYPE")))
                (Some (default "" (headers !! "CONTENT_LENGTH")))
                (Some (InputStr body))
                (Some client_host)
                (delete "CONTENT_TYPE" (delete "CONTENT_LENGTH" headers)))
      | [] => Raise (ValueError "not enough values to unpack (expected 3, got 0)")
      | [_] => Raise (ValueError "not enough values to unpack (expected 3, got 1)")
      | [_; _] =>
          Raise (ValueError "not enough values to unpack (expected 3, got 2)")
      | _ => Raise (ValueError "too many values to unpack (expected 3)")
      end
  end.

(** The client socket: the bytes the peer sent, whether the peer is gone
    (a [send] then raises), what was sent, and whether it is closed. *)
Record socket : Type := Socket {
  incoming : Bytes.bytes;
  peer_gone : bool;
  sent : list Bytes.bytes;
  closed : bool
}.

Definition sock_send (sock : socket) (data : Bytes.bytes) : socket * res unit :=
  if peer_gone sock then (sock, Raise (OSError "[Errno 32] Broken pipe"))
  else (Socket (incoming sock) (peer_gone sock) (sent sock ++ [data]) (closed sock),
        Ok tt).

Definition sock_close (sock : socket) : socket :=
  Socket (incoming sock) (peer_gone sock) (sent sock) true.

(** The [try] block of [handle_request]. *)
Definition handle_request_body (app : environ -> res wsgi_result)
    (sock : socket) (client_host : string) : socket * res unit :=
  match Bytes.decode (firstn 4096 (incoming sock)) with
  | Ok "" => (sock, Ok tt)
  | Ok request_data =>
      match parse_http_request request_data client_host with
      | Ok env =>
          match handle_wsgi_request app env with
          | Ok response_data => sock_send sock response_data
          | Raise e => (sock, Raise e)
          | Unmodelled => (sock, Unmodelled)
          end
      | Raise e => (sock, Raise e)
      | Unmodelled => (sock, Unmodelled)
      end
  | Raise e => (sock, Raise e)
  | Unmodelled => (sock, Unmodelled)
  end.

(** [handle_request(client_socket, client_address)]: the socket when the
    call ends, and whether it returned or let an exception out. *)
Definition handle_request (app : environ -> res wsgi_result)
    (sock : socket) (client_host : string) : socket * res unit :=
  let '(sock, outcome) := handle_request_body app sock client_host in
  let '(sock, outcome) :=
    match outcome with
    | Raise e =>
        if isinstance e "Exception"
        then sock_send sock (create_error_response 500 (exn_msg e))
        else (sock, Raise e)
    | _ => (sock, outcome)
    end in
  (sock_close sock, outcome).

End Parse.

End Server.

(** The header lines of a well-formed request, each given by its name as
    sent, the key [parse_http_request] files it under and its value; a
    name holds no colon, and neither name nor value a carriage return. *)
Definition header_block (hs : list (string * string * string)) : string :=
  foldr (fun '(name, _, value) acc =>
           name +:+ ":" +:+ value +:+ Str.CRLF +:+ acc)
        "" hs.

Definition header_ok (h : string * string * string) : Prop :=
  let '(name, key, value) := h in
  Str.mem Str.CR name = false /\ Str.mem Str.CR value = false
  /\ Str.mem ":" name = false /\ Server.normalize_key name = Some key.

(* ================================================================= *)
(** ** Registration: [route_common], the method decorators, [url_for] *)

(** [str(value)] for a value given to [url_for]. *)
Definition py_str (v : pvalue) : res string :=
  match v with
  | PStr s => Ok s
  | PInt z => Conv.int_str z
  | PNone => Ok "None"
  | PFloat _ => Unmodelled
  end.

(** The spellings of a placeholder that [url_for] looks for. *)
Definition param_patterns (param_name : string) : list string :=
  [ "<" +:+ param_name +:+ ">";
    "<string:" +:+ param_name +:+ ">";
    "<int:" +:+ param_name +:+ ">";
    "<float:" +:+ param_name +:+ ">";
    "<path:" +:+ param_name +:+ ">";
    "<uuid:" +:+ param_name +:+ ">" ].

(** The inner loop of [url_for]: the first spelling found in [url] is
    replaced everywhere, and the loop ends. *)
Fixpoint replace_param (patterns : list string) (param_value : pvalue)
    (url : string) : res string :=
  match patterns with
  | [] => Ok url
  | param_pattern :: rest =>
      if Str.contains param_pattern url
      then value ← py_str param_value; Ok (Str.replace param_pattern value url)
      else replace_param rest param_value url
  end.

(** The loop of [url_for] over [params.items()]. *)
Fixpoint fill_params (params : list (string * pvalue)) (url : string)
  : res string :=
  match params with
  | [] => Ok url
  | (param_name, param_value) :: rest =>
      url ← replace_param (param_patterns param_name) param_value url;
      fill_params rest url
  end.

(** The types whose spelling [url_for] looks for; [None] is a placeholder
    without type. *)
Definition url_for_knows (ty : option string) : bool :=
  match ty with
  | None => true
  | Some t => existsb (String.eqb t) ["string"; "int"; "float"; "path"; "uuid"]
  end.

(** A text without angle brackets. *)
Definition no_bracket (s : string) : bool :=
  negb (Str.mem "<" s) && negb (Str.mem ">" s).

Section Registration.
(** Handlers are function objects: dictionary keys by identity, which the
    equality of [H] stands for; [name_of] is [handler.__name__]. *)
Context {H M : Type} `{Countable H}.
Variable name_of : H -> string.

(** The attributes of a [live_rocket] object that registration writes. *)
Record rocket : Type := Rocket {
  rocket_manager : RouteManager H M;
  route_map : gmap H string;
  routes : gmap string (gmap string H);
  middlewares_for_route : gmap string (gmap string (option (list M)))
}.

(** [live_rocket()]. *)
Definition rocket_init : rocket := Rocket RouteManager_init ∅ ∅ ∅.

(** [path or f"/{handler.__name__}"]. *)
Definition path_or_name (path : option string) (handler : H) : string :=
  match path with
  | Some (String c p) => String c p
  | _ => "/" +:+ name_of handler
  end.

(** [route_common(path, handler, method_name, middlewares)]. *)
Definition route_common (self : rocket) (path : option string) (handler : H)
    (method_name : string) (middlewares : option (list M)) : res rocket :=
  let path_name := path_or_name path handler in
  let route_map := <[handler := path_name]> (route_map self) in
  route_manager ←
    add_route (rocket_manager self) path_name method_name handler middlewares;
  let routes :=
    <[path_name := <[method_name := handler]>
                     (default ∅ (routes self !! path_name))]> (routes self) in
  let middlewares_for_route :=
    <[path_name := <[method_name := middlewares]>
                     (default ∅ (middlewares_for_route self !! path_name))]>
      (middlewares_for_route self) in
  Ok (Rocket route_manager route_map routes middlewares_for_route).

(** [@app.get(path, middlewares)] applied to [handler], and the like. *)
Definition rocket_get (self : rocket) (path : option string)
    (middlewares : option (list M)) (handler : H) : res rocket :=
  route_common self path handler "GET" middlewares.
Definition rocket_post (self : rocket) (path : option string)
    (middlewares : option (list M)) (handler : H) : res rocket :=
  route_common self path handler "POST" middlewares.
Definition rocket_put (self : rocket) (path : option string)
    (middlewares : option (list M)) (handler : H) : res rocket :=
  route_common self path handler "PUT" middlewares.
Definition rocket_delete (self : rocket) (path : option string)
    (middlewares : option (list M)) (handler : H) : res rocket :=
  route_common self path handler "DELETE" middlewares.
Definition rocket_patch (self : rocket) (path : option string)
    (middlewares : option (list M)) (handler : H) : res rocket :=
  route_common self path handler "PATCH" middlewares.

(** [url_for(handler_func, **params)]. *)
Definition url_for (self : rocket) (handler_func : H)
    (params : list (string * pvalue)) : res string :=
  match route_map self !! handler_func with
  | None =>
      Raise (ValueError ("No route found for handler " +:+ name_of handler_func))
  | Some pattern => fill_params params pattern
  end.

End Registration.

Arguments rocket : clear implicits.
Arguments rocket H M {_ _}.

(* ================================================================= *)
(** ** [QuerySet] (ObjectMapper.py): the text of a query *)

Module ObjectMapper.

Section QuerySet.
(** The values compared with, which the query hands to the database
    beside its text. *)
Context {V : Type}.

(** A query set; [model_class] is the [_table_name] of its model, and the
    counts are integers or [None]. *)
Record QuerySet : Type := MkQuerySet {
  model_class : string;
  conditions : list (string * string * V);
  order_by_fields : list string;
  limit_count : option Z;
  offset_count : option Z
}.

(** [QuerySet(model_class)]. *)
Definition QuerySet_init (model_class : string) : QuerySet :=
  MkQuerySet model_class [] [] None None.

(** [_clone()]. *)
Definition _clone (self : QuerySet) : QuerySet :=
  MkQuerySet (model_class self) (conditions self) (order_by_fields self)
             (limit_count self) (offset_count self).

Definition add_conditions (operator : string) (self : QuerySet)
    (kwargs : list (string * V)) : QuerySet :=
  let new_qs := _clone self in
  MkQuerySet (model_class new_qs)
    (foldl (fun conds '(field_name, value) =>
              conds ++ [(field_name, operator, value)])
           (conditions new_qs) kwargs)
    (order_by_fields new_qs) (limit_count new_qs) (offset_count new_qs).

(** [filter] and [exclude], on the keyword arguments in their order. *)
Definition filter (self : QuerySet) (kwargs : list (string * V)) : QuerySet :=
  add_conditions "=" self kwargs.
Definition exclude (self : QuerySet) (kwargs : list (string * V)) : QuerySet :=
  add_conditions "!=" self kwargs.

(** [order_by], on its arguments. *)
Definition order_by (self : QuerySet) (fields : list string) : QuerySet :=
  let new_qs := _clone self in
  MkQuerySet (model_class new_qs) (conditions new_qs) fields
             (limit_count new_qs) (offset_count new_qs).

(** [limit(count)] and [offset(count)]. *)
Definition limit (self : QuerySet) (count : option Z) : QuerySet :=
  let new_qs := _clone self in
  MkQuerySet (model_class new_qs) (conditions new_qs) (order_by_fields new_qs)
             count (offset_count new_qs).
Definition offset (self : QuerySet) (count : option Z) : QuerySet :=
  let new_qs := _clone self in
  MkQuerySet (model_class new_qs) (conditions new_qs) (order_by_fields new_qs)
             (limit_count new_qs) count.

(** [_build_where()]: the clause and its parameters. *)
Definition _build_where (self : QuerySet) : string * list V :=
  let '(conds, params) :=
    foldl (fun '(conds, params) '(field_name, operator, value) =>
             (conds ++ [field_name +:+ " " +:+ operator +:+ " ?"],
              params ++ [value]))
          ([], []) (conditions self) in
  (Str.join " AND " conds, params).

(** One entry of the [ORDER BY] list. *)
Definition order_field (field : string) : string :=
  match field with
  | String "-" rest => rest +:+ " DESC"
  | _ => field +:+ " ASC"
  end.

(** The truth value of a count: [None] and zero are false. *)
Definition truthy (count : option Z) : option Z :=
  match count with
  | Some 0%Z | None => None
  | Some z => Some z
  end.

(** [if count: query += f" KEYWORD {count}"]: the text added. *)
Definition count_clause (keyword : string) (count : option Z) : res string :=
  match truthy count with
  | Some z => t ← Conv.int_str z; Ok (" " +:+ keyword +:+ " " +:+ t)
  | None => Ok ""
  end.

(** [_build_query()]: the text of the [SELECT] and its parameters; the
    f-string of a count raises when the count has too many digits. *)
Definition _build_query (self : QuerySet) : res (string * list V) :=
  let query := "SELECT * FROM " +:+ model_class self in
  let '(query, params) :=
    match conditions self with
    | [] => (query, [])
    | _ =>
        let '(where_clause, where_params) := _build_where self in
        (query +:+ " WHERE " +:+ where_clause, where_params)
    end in
  let query :=
    match order_by_fields self with
    | [] => query
    | fields =>
        query +:+ " ORDER BY " +:+ Str.join ", " (map order_field fields)
    end in
  limit_text ← count_clause "LIMIT" (limit_count self);
  let query := query +:+ limit_text in
  offset_text ← count_clause "OFFSET" (offset_count self);
  let query := query +:+ offset_text in
  Ok (query, params).

End QuerySet.

Arguments QuerySet : clear implicits.

(** The text of one condition of a [WHERE] clause. *)
Definition condition_text {V : Type} (c : string * string * V) : string :=
  let '(field_name, operator, _) := c in
  field_name +:+ " " +:+ operator +:+ " ?".

End ObjectMapper.

(* ================================================================= *)
(** ** A small application *)

Module Demo.

(** Stand-ins for the library functions the requests below never reach. *)
Definition no_pairs (_ : string) : list (string * string) := [].
Definition no_lists (_ : string) : list (string * list string) := [].
Definition no_json (_ : string) : option unit := None.
Definition same (s : string) : string := s.

(** A handler that leaves the response alone, and one that raises. *)
Definition idle : handler (J:=unit) := fun _ response _ => Ok response.
Definition boom : handler (J:=unit) := fun _ _ _ => Raise (ValueError "kaboom").

(** The application after [@app.get("/ping")] on [idle] and
    [@app.get("/boom")] on [boom]. *)
Definition app : live_rocket (J:=unit) :=
  MkApp (MkRouteManager
           {[ "/ping" := {[ "GET" := RouteInfo idle [] ]};
              "/boom" := {[ "GET" := RouteInfo boom [] ]} ]}
           [])
        [].

Definition raw_get (path : string) : string :=
  "GET " +:+ path +:+ " HTTP/1.1" +:+ Str.CRLF
  +:+ "Host: example" +:+ Str.CRLF +:+ Str.CRLF.

(** What [parse_http_request] makes of [raw_get path], and the request
    built from it. *)
Definition get (path : string) : environ :=
  Environ (Some "GET") (Some path) (Some "") (Some "") (Some "")
          (Some (InputStr "")) (Some "127.0.0.1") {[ "HOST" := "example" ]}.

Definition request (path : string) : Request (J:=unit) :=
  MkRequest (get path) "GET" ∅ path (BodyDict ∅) None.

(** The environment of a POST of five bytes under a JSON content type,
    with the stream a server hands over. *)
Definition post_json (input : wsgi_input) : environ :=
  Environ (Some "POST") (Some "/items") (Some "") (Some "application/json")
          (Some "5") (Some input) (Some "127.0.0.1") ∅.

(** The same under a form content type, sixteen bytes long. *)
Definition post_form (input : wsgi_input) : environ :=
  Environ (Some "POST") (Some "/items") (Some "")
          (Some "application/x-www-form-urlencoded")
          (Some "16") (Some input) (Some "127.0.0.1") ∅.

(** [parse_qsl] and [parse_qs] on the one text each the examples give
    them. *)
Definition pairs (qs : string) : list (string * string) :=
  if String.eqb qs "q=cats&page=1&q=dogs"
  then [("q", "cats"); ("page", "1"); ("q", "dogs")]
  else [].
Definition lists (qs : string) : list (string * list string) :=
  if String.eqb qs "name=Ada&t=a&t=b"
  then [("name", ["Ada"]); ("t", ["a"; "b"])]
  else [].

(** A handler that answers with [send], and the application after
    [@app.get("/hello")] on it. *)
Definition hello : handler (J:=unit) :=
  fun _ response _ =>
    let '(response, outcome) := Response_send response "hi" (StatusInt 201) in
    _ ← outcome; Ok response.

Definition app_hello : live_rocket (J:=unit) :=
  MkApp (MkRouteManager {[ "/hello" := {[ "GET" := RouteInfo hello [] ]} ]} [])
        [].

(** A WSGI application that answers every request alike. *)
Definition fixed (_ : environ) : res wsgi_result :=
  Ok (WsgiResult (Some ("200 OK", [])) [ChunkStr "hi"]).

End Demo.

(* ################################################################# *)
(** * Properties *)

(* ================================================================= *)
(** ** Strings and bytes *)

Lemma str_app_nil_r (s : string) : s +:+ "" = s.
Proof. induction s as [|c s IH]; simpl; [done|by rewrite IH]. Qed.

Lemma str_app_assoc (a b c : string) : (a +:+ b) +:+ c = a +:+ (b +:+ c).
Proof. induction a as [|x a IH]; simpl; [done|by rewrite IH]. Qed.

Lemma str_length_app (a b : string) :
  String.length (a +:+ b) = String.length a + String.length b.
Proof. induction a as [|x a IH]; simpl; [done|by rewrite IH]. Qed.

Lemma encode_app (a b : string) :
  Bytes.encode (a +:+ b) = Bytes.encode a ++ Bytes.encode b.
Proof.
  induction a as [|x a IH]; simpl; [done|]. by rewrite IH, app_assoc.
Qed.

(** Joining lines with a separator and ending the block with one more is
    ending every line with it. *)
Lemma join_terminated (sep : string) (first : string) (rest : list string) :
  Str.join sep (first :: rest) +:+ sep
  = first +:+ sep +:+ foldr (fun l acc => l +:+ sep +:+ acc) "" rest.
Proof.
  revert first. induction rest as [|l rest IH]; intros first.
  - simpl. by rewrite str_app_nil_r.
  - change (Str.join sep (first :: l :: rest))
      with (first +:+ sep +:+ Str.join sep (l :: rest)).
    rewrite !str_app_assoc. by rewrite IH.
Qed.

(** The text consumed before a suffix. *)
Lemma consumed_app (w rest : string) : Str.consumed (w +:+ rest) rest = w.
Proof.
  unfold Str.consumed. rewrite str_length_app.
  replace (String.length w + String.length rest - String.length rest)
    with (String.length w) by lia.
  induction w as [|c w IH]; simpl; [by destruct rest|by rewrite IH].
Qed.

Lemma mem_app c (a b : string) : Str.mem c (a +:+ b) = Str.mem c a || Str.mem c b.
Proof.
  induction a as [|x a IH]; simpl; [done|]. by destruct (Ascii.eqb c x).
Qed.

Lemma strip_prefix_app (p rest : string) : Str.strip_prefix p (p +:+ rest) = Some rest.
Proof.
  induction p as [|c p IH]; simpl; [done|]. by rewrite Ascii.eqb_refl.
Qed.

Lemma strip_prefix_spec p : forall s rest,
  Str.strip_prefix p s = Some rest <-> s = p +:+ rest.
Proof.
  induction p as [|c p IH]; intros s rest; simpl.
  - split; [by intros [= ->]|by intros ->].
  - destruct s as [|d s]; [done|].
    destruct (Ascii.eqb_spec c d) as [->|Hne].
    + rewrite IH. split; [by intros ->|by intros [= ->]].
    + split; [done|]. intros [= -> _]. done.
Qed.

Lemma span_spec p s :
  s = (Str.span p s).1 +:+ (Str.span p s).2
  /\ Str.forallb p (Str.span p s).1 = true
  /\ match (Str.span p s).2 with "" => true | String c _ => negb (p c) end = true.
Proof.
  induction s as [|c s (IH1 & IH2 & IH3)]; simpl; [done|].
  destruct (p c) eqn:Hp.
  - destruct (Str.span p s) as [w r]; simpl in *. rewrite Hp. by rewrite <- IH1.
  - simpl. by rewrite Hp.
Qed.

Lemma span_app p w rest :
  Str.forallb p w = true ->
  match rest with "" => true | String c _ => negb (p c) end = true ->
  Str.span p (w +:+ rest) = (w, rest).
Proof.
  intros Hall Hstop. induction w as [|c w IH]; simpl in *.
  - destruct rest as [|c rest]; [done|]. simpl.
    by destruct (p c).
  - apply andb_true_iff in Hall as [Hc Hall]. rewrite Hc, IH; done.
Qed.

(** The first occurrence of a text that starts with [<], after a prefix free
    of [<], is the one that follows the prefix. *)
Lemma replace_first_at (o new rest : string) : forall before,
  Str.mem "<" before = false ->
  Str.replace_first (String "<" o) new (before +:+ String "<" o +:+ rest)
  = before +:+ new +:+ rest.
Proof.
  induction before as [|c before IH]; intros Hfree.
  - change ("" +:+ String "<" o +:+ rest) with (String "<" o +:+ rest).
    change (String "<" o +:+ rest) with (String "<" (o +:+ rest)) at 1.
    cbn [Str.replace_first].
    change (String "<" (o +:+ rest)) with (String "<" o +:+ rest).
    rewrite strip_prefix_app. reflexivity.
  - revert Hfree. simpl.
    destruct (Ascii.eqb "<" c) eqn:Hc; [done|]. intros Hfree.
    f_equal. by apply IH.
Qed.

(* ================================================================= *)
(** ** The matcher *)

Lemma repeat_loop_sound {A} (body : nat -> string -> captures -> cont -> option A)
    (P : mstate -> mstate -> Prop) mn mx (k : cont) :
  (forall k' pos s caps a, body pos s caps k' = Some a ->
     exists pos' s' caps', P (pos, s, caps) (pos', s', caps')
                           /\ k' pos' s' caps' = Some a) ->
  forall fuel count pos s caps a,
    repeat_loop body mn mx k fuel count pos s caps = Some a ->
    exists pos' s' caps',
      reps P mn mx count (pos, s, caps) (pos', s', caps')
      /\ k pos' s' caps' = Some a.
Proof.
  intros Hbody. induction fuel as [|fuel IH]; intros count pos s caps a Hrun;
    simpl in Hrun; [done|].
  destruct (may_repeat mx count) eqn:Hmay.
  - destruct (body pos s caps _) as [a'|] eqn:Hmore.
    + injection Hrun as ->.
      apply Hbody in Hmore as (pos1 & s1 & caps1 & Hstep & Hk).
      destruct (Nat.ltb_spec (String.length s1) (String.length s)) as [Hlt|];
        [|done].
      apply IH in Hk as (pos' & s' & caps' & Hreps & Hk).
      exists pos', s', caps'. split; [|done].
      eapply reps_more; eauto.
    + destruct (Nat.leb_spec mn count) as [Hle|]; [|done].
      exists pos, s, caps. split; [by apply reps_stop|done].
  - destruct (Nat.leb_spec mn count) as [Hle|]; [|done].
    exists pos, s, caps. split; [by apply reps_stop|done].
Qed.

(** Soundness: when the matcher answers, its continuation answered at a
    state the expression spans to. *)
Lemma rmatch_sound {A} (r : regex) :
  forall (k : cont) pos s caps (a : A),
    rmatch r pos s caps k = Some a ->
    exists pos' s' caps',
      spans r (pos, s, caps) (pos', s', caps') /\ k pos' s' caps' = Some a.
Proof.
  assert (Hatom : forall r0 (k : cont) pos s caps (a : A),
            one_char r0 pos s caps k = Some a ->
            exists pos' s' caps',
              (exists c, s = String c s' /\ accepts r0 c = true
                         /\ pos' = S pos /\ caps' = caps)
              /\ k pos' s' caps' = Some a).
  { intros r0 k pos s caps a. unfold one_char.
    destruct s as [|c s']; [done|]. destruct (accepts r0 c) eqn:Hacc; [|done].
    intros Hk. exists (S pos), s', caps. split; [|done]. by exists c. }
  induction r as [|c| | |neg items| | |r1 IH1 r2 IH2|i r1 IH1|mn mx r1 IH1];
    intros k pos s caps a Hrun; cbn [rmatch] in Hrun.
  - by exists pos, s, caps.
  - apply Hatom in Hrun as (pos' & s' & caps' & H & Hk). by exists pos', s', caps'.
  - apply Hatom in Hrun as (pos' & s' & caps' & H & Hk). by exists pos', s', caps'.
  - apply Hatom in Hrun as (pos' & s' & caps' & H & Hk). by exists pos', s', caps'.
  - apply Hatom in Hrun as (pos' & s' & caps' & H & Hk). by exists pos', s', caps'.
  - destruct (Nat.eqb_spec pos 0) as [->|]; [|done]. by exists 0, s, caps.
  - destruct (at_eol s) eqn:Heol; [|done]. by exists pos, s, caps.
  - apply IH1 in Hrun as (pos1 & s1 & caps1 & H1 & Hrun).
    apply IH2 in Hrun as (pos2 & s2 & caps2 & H2 & Hk).
    exists pos2, s2, caps2. split; [|done]. by exists (pos1, s1, caps1).
  - apply IH1 in Hrun as (pos1 & s1 & caps1 & H1 & Hk).
    exists pos1, s1, (<[i := Str.consumed s s1]> caps1). split; [|done].
    by exists caps1.
  - eapply repeat_loop_sound in Hrun; [exact Hrun|]. intros. by apply IH1.
Qed.

Lemma repeat_loop_ext {A} (body : nat -> string -> captures -> cont -> option A)
    mn mx (k1 k2 : cont) :
  (forall (j1 j2 : cont) pos s caps,
     (forall p t c, j1 p t c = j2 p t c) ->
     body pos s caps j1 = body pos s caps j2) ->
  (forall p t c, k1 p t c = k2 p t c) ->
  forall fuel count pos s caps,
    repeat_loop body mn mx k1 fuel count pos s caps
    = repeat_loop body mn mx k2 fuel count pos s caps.
Proof.
  intros Hbody Hk. induction fuel as [|fuel IH]; intros count pos s caps; [done|].
  cbn [repeat_loop]. rewrite Hk.
  destruct (may_repeat mx count); [|done].
  erewrite Hbody; [reflexivity|]. intros p t c. cbv beta.
  destruct (Nat.ltb _ _); [apply IH|done].
Qed.

Lemma rmatch_ext {A} (r : regex) :
  forall (k1 k2 : cont (A:=A)) pos s caps,
    (forall p t c, k1 p t c = k2 p t c) ->
    rmatch r pos s caps k1 = rmatch r pos s caps k2.
Proof.
  induction r as [|c| | |neg items| | |r1 IH1 r2 IH2|i r1 IH1|mn mx r1 IH1];
    intros k1 k2 pos s caps Hk; cbn [rmatch];
    try (unfold one_char; destruct s; [done|]; by rewrite Hk).
  - by rewrite Hk.
  - by rewrite Hk.
  - apply IH1. intros. by apply IH2.
  - apply IH1. intros. apply Hk.
  - apply repeat_loop_ext; [|done]. intros. by apply IH1.
Qed.

(** An optional part: taken when it matches and consumes something. *)
Lemma rmatch_optional {A} (x : regex) (k : cont (A:=A)) pos s caps :
  rmatch (RRepeat 0 (Some 1) x) pos s caps k
  = match rmatch x pos s caps (fun pos' s' caps' =>
            if Nat.ltb (String.length s') (String.length s)
            then k pos' s' caps' else None) with
    | Some a => Some a
    | None => k pos s caps
    end.
Proof.
  cbn [rmatch repeat_loop may_repeat]. simpl Nat.ltb. cbv iota.
  erewrite rmatch_ext; [reflexivity|]. intros p t c. cbv beta.
  destruct (Nat.ltb_spec (String.length t) (String.length s)) as [Hlt|]; [|done].
  destruct s as [|c0 s]; [simpl in Hlt; lia|]. reflexivity.
Qed.

Section Greedy.
Context {A : Type}.
Variables (mn : nat) (k : cont (A:=A)).

Lemma rmatch_atom r pos s caps (k' : cont (A:=A)) :
  is_atom r = true -> rmatch r pos s caps k' = one_char r pos s caps k'.
Proof. by destruct r. Qed.

Lemma repeat_loop_greedy r w :
  is_atom r = true ->
  forall fuel count pos caps rest,
    String.length w + String.length rest < fuel ->
    Str.forallb (accepts r) w = true ->
    stops r rest = true ->
    repeat_loop (rmatch r) mn None k fuel count pos (w +:+ rest) caps
    = greedy mn k count pos w rest caps.
Proof.
  intros Hatom. induction w as [|c w IH];
    intros fuel count pos caps rest Hfuel Hall Hstop.
  - destruct fuel as [|fuel]; [simpl in Hfuel; lia|].
    cbn [repeat_loop may_repeat greedy String.append].
    rewrite rmatch_atom by done. unfold one_char.
    destruct rest as [|c rest]; [done|].
    simpl in Hstop. by destruct (accepts r c).
  - destruct fuel as [|fuel]; [simpl in Hfuel; lia|].
    cbn [repeat_loop may_repeat greedy String.append].
    rewrite rmatch_atom by done. unfold one_char.
    simpl in Hall. apply andb_true_iff in Hall as [Hc Hall]. rewrite Hc.
    destruct (Nat.ltb_spec (String.length (w +:+ rest))
                (String.length (String c (w +:+ rest)))) as [_|Hbad];
      [|simpl in Hbad; lia].
    rewrite IH; [done| |done..]. simpl in Hfuel. lia.
Qed.

(** When the continuation refuses every shorter split, only the longest
    counts. *)
Lemma greedy_only_full w :
  forall count pos caps rest,
    (forall w1 c w2, w = w1 +:+ String c w2 ->
       k (pos + String.length w1) (String c w2 +:+ rest) caps = None) ->
    greedy mn k count pos w rest caps
    = if Nat.leb mn (count + String.length w)
      then k (pos + String.length w) rest caps else None.
Proof.
  induction w as [|c w IH]; intros count pos caps rest Hshort.
  - simpl. by rewrite !Nat.add_0_r.
  - cbn [greedy String.length].
    rewrite IH.
    + replace (S count + String.length w) with (count + S (String.length w)) by lia.
      replace (S pos + String.length w) with (pos + S (String.length w)) by lia.
      destruct (Nat.leb_spec mn (count + S (String.length w))) as [Hle|Hgt].
      * destruct (k _ rest caps); [done|].
        specialize (Hshort "" c w eq_refl). simpl in Hshort.
        rewrite Nat.add_0_r in Hshort. cbn [String.append]. rewrite Hshort.
        by destruct (Nat.leb mn count).
      * destruct (Nat.leb_spec mn count); [lia|done].
    + intros w1 c' w2 ->.
      specialize (Hshort (String c w1) c' w2 eq_refl). simpl in Hshort.
      replace (S pos + String.length w1) with (pos + S (String.length w1)) by lia.
      exact Hshort.
Qed.

End Greedy.

(** A repetition of one set, at least once, then a continuation that
    wants the character [next]: the longest run decides. *)
Lemma rmatch_run {A} (set : regex) (next : ascii) (k' k : cont (A:=A))
    (f : string -> captures -> captures) pos s caps :
  is_atom set = true ->
  accepts set next = false ->
  (forall pos' s' caps',
     k' pos' s' caps' = one_char (RChar next) pos' s' (f s' caps') k) ->
  repeat_loop (rmatch set) 1 None k' (S (String.length s)) 0 pos s caps
  = match Str.span (accepts set) s with
    | (String c w, String d rest) =>
        if Ascii.eqb next d
        then k (pos + S (String.length (String c w))) rest
               (f (String d rest) caps)
        else None
    | _ => None
    end.
Proof.
  intros Hatom Hnext Hk'.
  destruct (span_spec (accepts set) s) as (Hs & Hall & Hstop).
  destruct (Str.span (accepts set) s) as [w r]; simpl in Hs, Hall, Hstop.
  rewrite Hs at 2.
  rewrite repeat_loop_greedy; [|done| |done|].
  - rewrite greedy_only_full.
    + destruct w as [|c w]; [done|].
      replace (Nat.leb 1 (0 + String.length (String c w))) with true by done.
      rewrite Hk'. unfold one_char. destruct r as [|d rest]; [done|].
      cbn [accepts]. destruct (Ascii.eqb next d); [|done].
      f_equal. simpl. lia.
    + intros w1 c w2 ->. rewrite Hk'. unfold one_char. cbn [String.append accepts].
      destruct (Ascii.eqb_spec next c) as [->|]; [|done].
      apply (f_equal negb) in Hnext. simpl in Hnext.
      clear - Hall Hnext. exfalso.
      induction w1 as [|x w1 IH]; simpl in Hall.
      * rewrite andb_true_iff in Hall. destruct Hall as [Hc _].
        rewrite Hc in Hnext. done.
      * rewrite andb_true_iff in Hall. destruct Hall as [_ Hall]. by apply IH.
  - rewrite Hs at 1. rewrite str_length_app. lia.
  - destruct r; [done|]. exact Hstop.
Qed.

(** A group that holds such a run, then the character [next], then the
    rest of the pattern. *)
Lemma rmatch_group_run {A} (i : nat) (set : regex) (next : ascii) (tail : regex)
    (k : cont (A:=A)) pos s caps :
  is_atom set = true ->
  accepts set next = false ->
  rmatch (RSeq (RGroup i (seq_of [RRepeat 1 None set])) (RSeq (RChar next) tail))
         pos s caps k
  = match Str.span (accepts set) s with
    | (String c w, String d rest) =>
        if Ascii.eqb next d
        then rmatch tail (pos + S (String.length (String c w))) rest
                    (<[i := String c w]> caps) k
        else None
    | _ => None
    end.
Proof.
  intros Hatom Hnext. cbn [rmatch seq_of foldr].
  erewrite (rmatch_run set next _ (fun p t c => rmatch tail p t c k)
              (fun s' caps' => <[i := Str.consumed s s']> caps'));
    [|done..].
  destruct (span_spec (accepts set) s) as (Hs & _ & _).
  destruct (Str.span (accepts set) s) as [[|c w] [|d rest]]; try done.
  simpl in Hs. destruct (Ascii.eqb next d); [|done].
  rewrite Hs at 1.
  change (String c (w +:+ String d rest)) with (String c w +:+ String d rest).
  by rewrite consumed_app.
Qed.

Lemma reps_frame (body : mstate -> mstate -> Prop) mn mx (j : nat) :
  (forall st st', body st st' -> st'.2 !! j = st.2 !! j) ->
  forall count st st', reps body mn mx count st st' -> st'.2 !! j = st.2 !! j.
Proof.
  intros Hbody count st st' Hreps.
  induction Hreps as [|count pos s caps pos1 s1 caps1 st' _ Hstep _ _ IH]; [done|].
  rewrite IH. exact (Hbody _ _ Hstep).
Qed.

(** A match leaves alone the groups its expression does not hold. *)
Lemma spans_frame (r : regex) (j : nat) :
  j ∉ group_ids r ->
  forall st st', spans r st st' -> st'.2 !! j = st.2 !! j.
Proof.
  induction r as [|c| | |neg items| | |r1 IH1 r2 IH2|i r1 IH1|mn mx r1 IH1];
    intros Hj st st' Hspan; cbn [spans group_ids] in *.
  - by subst.
  - destruct Hspan as (c' & _ & _ & _ & ->). done.
  - destruct Hspan as (c' & _ & _ & _ & ->). done.
  - destruct Hspan as (c' & _ & _ & _ & ->). done.
  - destruct Hspan as (c' & _ & _ & _ & ->). done.
  - by destruct Hspan as [_ ->].
  - by destruct Hspan as [_ ->].
  - destruct Hspan as (mid & H1 & H2).
    rewrite not_elem_of_app in Hj. destruct Hj as [Hj1 Hj2].
    rewrite (IH2 Hj2 _ _ H2). exact (IH1 Hj1 _ _ H1).
  - destruct Hspan as (caps1 & H1 & ->).
    rewrite not_elem_of_cons in Hj. destruct Hj as [Hne Hj].
    rewrite lookup_insert_ne by done. exact (IH1 Hj _ _ H1).
  - eapply reps_frame; [|exact Hspan]. intros. by apply IH1.
Qed.

(** A repetition of a one-character expression consumes a run of
    characters it accepts, at least as many as it must. *)
Lemma reps_run (r : regex) mn mx :
  is_atom r = true ->
  forall count st st', reps (spans r) mn mx count st st' ->
    exists w, st.1.2 = w +:+ st'.1.2
              /\ Str.forallb (accepts r) w = true
              /\ mn <= count + String.length w.
Proof.
  intros Hatom count st st' Hreps.
  induction Hreps as [count st Hle
                     |count pos s caps pos1 s1 caps1 st' _ Hstep _ _ IH].
  - exists "". split; [done|]. split; [done|]. simpl. lia.
  - destruct IH as (w & Hw & Hall & Hle). cbn [fst snd] in *.
    assert (Hone : exists c, s = String c s1 /\ accepts r c = true).
    { destruct r; try done; destruct Hstep as (x & Hs & Hacc & _);
        by exists x. }
    destruct Hone as (x & -> & Hc).
    exists (String x w). cbn [String.append Str.forallb String.length].
    rewrite Hw, Hc, Hall. split; [done|]. split; [done|]. lia.
Qed.

(* ================================================================= *)
(** ** The parameter expression *)

Lemma parse_parameter_regex : parse parameter_regex = Some (param_ast, 2).
Proof. reflexivity. Qed.

Lemma find_name_shorter s name rest :
  find_name s = Some (name, rest) ->
  s = name +:+ String ">" rest /\ name <> "".
Proof.
  unfold find_name. destruct (span_spec (accepts name_set) s) as (Hs & _ & _).
  destruct (Str.span (accepts name_set) s) as [[|c w] [|d r]]; try done.
  simpl in Hs. intros Hf.
  destruct (Ascii.eqb_spec d ">") as [->|Hne].
  - injection Hf as <- <-. by split.
  - exfalso. revert Hf. clear - Hne.
    destruct d as [[] [] [] [] [] [] [] []]; try done.
Qed.

Lemma find_type_shorter s ty rest :
  find_type s = Some (ty, rest) ->
  s = ty +:+ String ":" rest /\ ty <> "".
Proof.
  unfold find_type. destruct (span_spec (accepts type_set) s) as (Hs & _ & _).
  destruct (Str.span (accepts type_set) s) as [[|c w] [|d r]]; try done.
  simpl in Hs. intros Hf.
  destruct (Ascii.eqb_spec d ":") as [->|Hne].
  - injection Hf as <- <-. by split.
  - exfalso. revert Hf. clear - Hne.
    destruct d as [[] [] [] [] [] [] [] []]; try done.
Qed.

Lemma find_name_eqb s :
  match Str.span (accepts name_set) s with
  | (String c w, String d rest) =>
      if Ascii.eqb ">" d then Some (String c w, rest) else None
  | _ => None
  end = find_name s.
Proof.
  unfold find_name.
  destruct (Str.span (accepts name_set) s) as [[|c w] [|d r]]; try done.
  destruct (Ascii.eqb_spec ">" d) as [<-|Hne]; [done|].
  destruct d as [[] [] [] [] [] [] [] []]; try done.
Qed.

Lemma find_type_eqb s :
  match Str.span (accepts type_set) s with
  | (String c w, String d rest) =>
      if Ascii.eqb ":" d then Some (String c w, rest) else None
  | _ => None
  end = find_type s.
Proof.
  unfold find_type.
  destruct (Str.span (accepts type_set) s) as [[|c w] [|d r]]; try done.
  destruct (Ascii.eqb_spec ":" d) as [<-|Hne]; [done|].
  destruct d as [[] [] [] [] [] [] [] []]; try done.
Qed.

Lemma rmatch_name_part {A} (k : cont (A:=A)) pos s caps :
  rmatch name_part pos s caps k
  = match find_name s with
    | Some (name, rest) =>
        k (pos + S (String.length name)) rest (<[2 := name]> caps)
    | None => None
    end.
Proof.
  unfold name_part. rewrite rmatch_group_run by done.
  rewrite <- find_name_eqb.
  destruct (Str.span (accepts name_set) s) as [[|c w] [|d r]]; try done.
  by destruct (Ascii.eqb ">" d).
Qed.

Lemma rmatch_type_part {A} (k : cont (A:=A)) pos s caps :
  rmatch type_part pos s caps k
  = match find_type s with
    | Some (ty, rest) =>
        k (pos + S (String.length ty)) rest (<[1 := ty]> caps)
    | None => None
    end.
Proof.
  unfold type_part. rewrite rmatch_group_run by done.
  rewrite <- find_type_eqb.
  destruct (Str.span (accepts type_set) s) as [[|c w] [|d r]]; try done.
  by destruct (Ascii.eqb ":" d).
Qed.

Lemma param_ast_parts :
  param_ast = RSeq (RChar "<") (RSeq (RRepeat 0 (Some 1) type_part) name_part).
Proof. reflexivity. Qed.

(** The matcher on the parameter expression finds what [find_param]
    finds, on every text. *)
Lemma match_at_param pos s :
  match_at param_ast 2 pos s
  = match find_param s with
    | Some (ty, name, rest) =>
        Some (Match (Str.consumed s rest) (param_caps ty name) 2 rest)
    | None => None
    end.
Proof.
  unfold match_at. rewrite param_ast_parts.
  destruct s as [|c0 body]; [done|].
  cbn [rmatch]. unfold one_char at 1. cbn [accepts].
  destruct (Ascii.eqb_spec "<" c0) as [<-|Hne].
  2:{ unfold find_param. destruct c0 as [[] [] [] [] [] [] [] []]; done. }
  change (rmatch (RRepeat 0 (Some 1) type_part) (S pos) body ∅
            (fun p t c => rmatch name_part p t c
               (fun _ s' caps => Some (Match (Str.consumed (String "<" body) s')
                                         caps 2 s')))
          = match find_param (String "<" body) with
            | Some (ty, name, rest) =>
                Some (Match (Str.consumed (String "<" body) rest)
                        (param_caps ty name) 2 rest)
            | None => None
            end).
  rewrite rmatch_optional, rmatch_type_part.
  cbn [find_param].
  destruct (find_type body) as [[ty after]|] eqn:Hty.
  - apply find_type_shorter in Hty as Hbody. destruct Hbody as [Hbody Hne].
    destruct (Nat.ltb_spec (String.length after) (String.length body)) as [_|Hbad].
    2:{ rewrite Hbody, str_length_app in Hbad. simpl in Hbad. lia. }
    rewrite !rmatch_name_part.
    destruct (find_name after) as [[name rest]|] eqn:Hname; [done|].
    by destruct (find_name body) as [[name rest]|].
  - rewrite rmatch_name_part. by destruct (find_name body) as [[name rest]|].
Qed.

Lemma type_set_weaker t :
  Str.forallb (accepts type_set) t = true ->
  Str.forallb (accepts name_set) t = true.
Proof.
  induction t as [|c t IH]; simpl; [done|].
  rewrite !andb_true_iff. intros [Hc Ht]. split; [|by apply IH].
  revert Hc. unfold in_items. simpl. rewrite !orb_false_r.
  by destruct (Str.in_range _ _ c), (Str.in_range _ _ c).
Qed.

Lemma hole_text_typed t name rest :
  hole_text (Some t) name +:+ rest
  = String "<" (t +:+ String ":" (name +:+ String ">" rest)).
Proof. unfold hole_text. rewrite !str_app_assoc. reflexivity. Qed.

Lemma hole_text_untyped name rest :
  hole_text None name +:+ rest = String "<" (name +:+ String ">" rest).
Proof. unfold hole_text. rewrite !str_app_assoc. reflexivity. Qed.

Lemma find_param_hole ty name rest :
  hole_ok ty name = true ->
  find_param (hole_text ty name +:+ rest) = Some (ty, name, rest).
Proof.
  unfold hole_ok. rewrite andb_true_iff. intros [Hname Hok].
  destruct ty as [t|].
  - rewrite !andb_true_iff in Hok. destruct Hok as [[Ht Htall] Hnall].
    rewrite hole_text_typed. cbn [find_param].
    unfold find_type, find_name.
    rewrite (span_app (accepts type_set) t) by done.
    destruct t as [|t0 t]; [done|].
    rewrite (span_app (accepts name_set) name) by done.
    by destruct name.
  - rewrite hole_text_untyped. cbn [find_param].
    unfold find_type, find_name.
    rewrite (span_app (accepts type_set) name) by done.
    rewrite (span_app (accepts name_set) name);
      [|by apply type_set_weaker|done].
    by destruct name.
Qed.

(** What [find_param] finds is a placeholder at the start of the text. *)
Lemma find_param_text s ty name rest :
  find_param s = Some (ty, name, rest) ->
  s = hole_text ty name +:+ rest /\ name <> ""
  /\ match ty with Some t => t <> "" | None => True end.
Proof.
  destruct s as [|c0 body]; [done|]. unfold find_param.
  destruct (Ascii.eqb_spec c0 "<") as [->|Hne].
  2:{ destruct c0 as [[] [] [] [] [] [] [] []]; done. }
  destruct (find_type body) as [[t after]|] eqn:Ht.
  - apply find_type_shorter in Ht as [-> Htne].
    destruct (find_name after) as [[n r]|] eqn:Hn.
    + apply find_name_shorter in Hn as [-> Hnne].
      intros [= <- <- <-]. unfold hole_text. by rewrite !str_app_assoc.
    + destruct (find_name (t +:+ String ":" after)) as [[n r]|] eqn:Hn2; [|done].
      apply find_name_shorter in Hn2 as [Heq Hnne].
      intros [= <- <- <-]. unfold hole_text. simpl. by rewrite Heq, str_app_assoc.
  - destruct (find_name body) as [[n r]|] eqn:Hn; [|done].
    apply find_name_shorter in Hn as [-> Hnne].
    intros [= <- <- <-]. unfold hole_text. by rewrite !str_app_assoc.
Qed.

Lemma scan_skip r n w : forall pos rest,
  scan r n pos (String.length w) (w +:+ rest)
  = scan r n (pos + String.length w) 0 rest.
Proof.
  induction w as [|c w IH]; intros pos rest; simpl.
  - by rewrite Nat.add_0_r.
  - rewrite IH. f_equal. lia.
Qed.

(** Scanning at a placeholder. *)
Lemma scan_at_param pos s ty name rest :
  find_param s = Some (ty, name, rest) ->
  scan param_ast 2 pos 0 s
  = ms ← scan param_ast 2 (pos + String.length (hole_text ty name)) 0 rest;
    Ok (Match (hole_text ty name) (param_caps ty name) 2 rest :: ms).
Proof.
  intros Hfind. destruct (find_param_text _ _ _ _ Hfind) as (-> & _ & _).
  assert (Hshape : exists tl, hole_text ty name = String "<" tl)
    by (destruct ty; eexists; reflexivity).
  destruct Hshape as [tl Htl].
  rewrite Htl at 1. cbn [String.append scan].
  change (String "<" (tl +:+ rest)) with (String "<" tl +:+ rest).
  rewrite <- Htl, match_at_param, Hfind. cbn [m_text].
  rewrite consumed_app, Htl. cbn [String.length].
  rewrite scan_skip. do 2 f_equal. lia.
Qed.

Lemma scan_no_param pos c s :
  find_param (String c s) = None ->
  scan param_ast 2 pos 0 (String c s) = scan param_ast 2 (S pos) 0 s.
Proof. intros Hnone. cbn [scan]. by rewrite match_at_param, Hnone. Qed.

Lemma scan_render lit_ok segs : forall pos,
  template_ok lit_ok segs = true ->
  scan param_ast 2 pos 0 (render segs) = Ok (matches_of segs).
Proof.
  induction segs as [|[c|ty name] segs IH]; intros pos Hok; simpl in Hok.
  - reflexivity.
  - apply andb_true_iff in Hok as [Hc Hok]. apply andb_true_iff in Hc as [_ Hc].
    cbn [render render_segment String.append matches_of].
    rewrite scan_no_param; [by apply IH|].
    unfold find_param. destruct (Ascii.eqb_spec c "<") as [->|Hne]; [done|].
    destruct c as [[] [] [] [] [] [] [] []]; done.
  - apply andb_true_iff in Hok as [Hh Hok].
    cbn [render render_segment matches_of].
    rewrite (scan_at_param _ _ ty name (render segs)) by by apply find_param_hole.
    by rewrite IH.
Qed.

Lemma scan_total s : forall pos skip,
  exists ms, scan param_ast 2 pos skip s = Ok ms /\ Forall is_param_match ms.
Proof.
  assert (Hn : forall n s, String.length s <= n -> forall pos skip,
             exists ms, scan param_ast 2 pos skip s = Ok ms
                        /\ Forall is_param_match ms).
  { induction n as [|n IH]; intros s' Hlen pos skip.
    - destruct s' as [|c s']; [|simpl in Hlen; lia].
      destruct skip; by exists [].
    - destruct skip as [|skip].
      + destruct (find_param s') as [[[ty name] rest]|] eqn:Hfind.
        * rewrite (scan_at_param _ _ _ _ _ Hfind).
          destruct (find_param_text _ _ _ _ Hfind) as (Hs & Hname & Hty).
          destruct (IH rest) with (pos := pos + String.length (hole_text ty name))
                                  (skip := 0) as (ms & -> & Hms).
          { rewrite Hs, str_length_app in Hlen. destruct ty; simpl in Hlen; lia. }
          eexists. split; [reflexivity|]. constructor; [|done].
          by exists ty, name, rest.
        * destruct s' as [|c s']; [by exists []|].
          rewrite (scan_no_param _ _ _ Hfind).
          apply IH. simpl in Hlen. lia.
      + destruct s' as [|c s']; [by exists []|]. cbn [scan].
        apply IH. simpl in Hlen. lia. }
  intros pos skip. by apply (Hn (String.length s)).
Qed.

(* ================================================================= *)
(** ** Compiling a template *)

Lemma compile_step_param ty name rest names regex :
  name <> "" ->
  compile_step (Match (hole_text ty name) (param_caps ty name) 2 rest)
               (names, regex)
  = Ok (names ++ [(name, hole_type ty)],
        Str.replace_first (hole_text ty name) (type_pattern (hole_type ty)) regex).
Proof.
  intros Hname. unfold compile_step, group. cbn [Nat.eqb Nat.leb m_ngroups m_groups m_text].
  cbn [mbind res_bind].
  assert (H2 : param_caps ty name !! 2 = Some name).
  { destruct ty; unfold param_caps; by rewrite lookup_insert_eq. }
  assert (H1 : param_caps ty name !! 1 = ty).
  { destruct ty; unfold param_caps.
    - rewrite lookup_insert_ne by done. by rewrite lookup_insert_eq.
    - rewrite lookup_insert_ne by done. by rewrite lookup_empty. }
  rewrite H1, H2. by destruct ty as [[|c t]|].
Qed.

Lemma compile_loop_total ms : forall st,
  Forall is_param_match ms ->
  exists st', compile_loop ms st = Ok st'.
Proof.
  induction ms as [|m ms IH]; intros [names regex] Hms; [by eexists|].
  apply Forall_cons in Hms as [(ty & name & rest & -> & Hname & _) Hms].
  cbn [compile_loop]. rewrite compile_step_param by done. cbn [mbind res_bind].
  by apply IH.
Qed.

(** Compilation never leaves the model: [URLPattern(pattern)] returns for
    every template. *)
Lemma URLPattern_init_total (pat : string) :
  exists u, URLPattern_init pat = Ok u /\ pattern u = pat.
Proof.
  unfold URLPattern_init, _compile_pattern, re_finditer.
  rewrite parse_parameter_regex. cbn [pattern parameter_names].
  destruct (scan_total pat 0 0) as (ms & -> & Hms). cbn [mbind res_bind].
  destruct (compile_loop_total ms ([], pat) Hms) as ([names regex] & ->).
  cbn [mbind res_bind]. by eexists.
Qed.

Lemma type_pattern_cases ty :
  type_pattern ty = "([^/]+)" \/ type_pattern ty = "(\d+)"
  \/ type_pattern ty = "(\d+\.?\d*)" \/ type_pattern ty = "(.+)"
  \/ type_pattern ty
     = "([0-9a-f]{8}-[0-9a-f]{4}-[0-9a-f]{4}-[0-9a-f]{4}-[0-9a-f]{12})".
Proof.
  unfold type_pattern, type_patterns, dict_get.
  repeat match goal with
         | |- context [String.eqb ?a ?b] => destruct (String.eqb a b)
         end; tauto.
Qed.

Lemma type_pattern_no_angle ty : Str.mem "<" (type_pattern ty) = false.
Proof.
  destruct (type_pattern_cases ty) as [->|[->|[->|[->| ->]]]]; reflexivity.
Qed.

Lemma compile_loop_render lit_ok segs : forall names before,
  template_ok lit_ok segs = true ->
  Str.mem "<" before = false ->
  compile_loop (matches_of segs) (names, before +:+ render segs)
  = Ok (names ++ holes segs, before +:+ regex_src segs).
Proof.
  induction segs as [|[c|ty name] segs IH]; intros names before Hok Hfree;
    simpl in Hok.
  - cbn [matches_of compile_loop render regex_src holes]. by rewrite app_nil_r.
  - apply andb_true_iff in Hok as [Hc Hok]. apply andb_true_iff in Hc as [_ Hc].
    cbn [matches_of render render_segment regex_src holes].
    specialize (IH names (before +:+ String c "")).
    rewrite !str_app_assoc in IH. apply IH; [done|].
    rewrite mem_app, Hfree. simpl. rewrite Ascii.eqb_sym.
    by destruct (Ascii.eqb c "<").
  - apply andb_true_iff in Hok as [Hh Hok].
    assert (Hname : name <> "").
    { unfold hole_ok in Hh. by destruct name. }
    cbn [matches_of compile_loop render render_segment regex_src holes].
    rewrite compile_step_param by done. cbn [mbind res_bind].
    assert (Hshape : exists o, hole_text ty name = String "<" o)
      by (destruct ty; eexists; reflexivity).
    destruct Hshape as [o Ho]. rewrite Ho.
    rewrite replace_first_at by done.
    rewrite <- str_app_assoc, IH; [|done|].
    + by rewrite <- app_assoc, str_app_assoc.
    + by rewrite mem_app, Hfree, type_pattern_no_angle.
Qed.

(** What a template given by its parts compiles to. *)
Lemma URLPattern_init_render lit_ok segs :
  template_ok lit_ok segs = true ->
  URLPattern_init (render segs)
  = Ok (MkURLPattern (render segs) (Some ("^" +:+ regex_src segs +:+ "$"))
                     (holes segs)).
Proof.
  intros Hok.
  unfold URLPattern_init, _compile_pattern, re_finditer.
  rewrite parse_parameter_regex. cbn [pattern parameter_names].
  rewrite (scan_render lit_ok) by done. cbn [mbind res_bind].
  pose proof (compile_loop_render lit_ok segs [] "" Hok eq_refl) as Hloop.
  change ("" +:+ render segs) with (render segs) in Hloop.
  rewrite Hloop. reflexivity.
Qed.

Lemma holes_names segs : map fst (holes segs) = hole_names segs.
Proof.
  induction segs as [|[c|ty name] segs IH]; simpl; [done|done|by rewrite IH].
Qed.

Lemma template_ok_weaken (p q : ascii -> bool) segs :
  (forall c, p c = true -> q c = true) ->
  template_ok p segs = true -> template_ok q segs = true.
Proof.
  intros Hpq. unfold template_ok. rewrite !forallb_forall.
  intros Hok seg Hin. specialize (Hok seg Hin). destruct seg as [c|ty name]; [|done].
  simpl in *. apply andb_true_iff in Hok as [Hc Hlt].
  by rewrite (Hpq c Hc), Hlt.
Qed.

Lemma render_lits s : render (lits s) = s.
Proof. induction s as [|c s IH]; simpl; [done|by rewrite IH]. Qed.

Lemma holes_lits s : holes (lits s) = [].
Proof. induction s as [|c s IH]; simpl; done. Qed.

Lemma template_ok_lits s :
  Str.forallb plain s = true -> Str.mem "<" s = false ->
  template_ok plain (lits s) = true.
Proof.
  induction s as [|c s IH]; [done|]. simpl.
  intros Hall Hfree. apply andb_true_iff in Hall as [Hc Hall].
  rewrite Hc. rewrite Ascii.eqb_sym. destruct (Ascii.eqb "<" c); [done|].
  by apply IH.
Qed.

Lemma step_plain c st :
  plain c = true -> p_mode st = MNormal ->
  step st c = Some (push (RChar c) st).
Proof.
  intros Hc Hm. unfold step. rewrite Hm. unfold step_normal.
  revert Hc. unfold plain.
  destruct c as [[] [] [] [] [] [] [] []]; try reflexivity; by vm_compute.
Qed.

Lemma parse_from_app a : forall st b,
  parse_from st (a +:+ b)
  = match parse_from st a with
    | Some st' => parse_from st' b
    | None => None
    end.
Proof.
  induction a as [|c a IH]; intros st b; simpl; [done|].
  destruct (step st c); [apply IH|done].
Qed.

Lemma parse_type_pattern ty fr cur n :
  parse_from (PState MNormal fr cur n) (type_pattern ty)
  = Some (PState MNormal fr (RGroup (S n) (type_body ty) :: cur) (S n)).
Proof.
  unfold type_pattern, type_body, type_patterns, dict_get.
  repeat match goal with
         | |- context [String.eqb ?a ty] => destruct (String.eqb a ty)
         end; reflexivity.
Qed.

Lemma parse_from_src segs : forall fr cur n,
  template_ok plain segs = true ->
  parse_from (PState MNormal fr cur n) (regex_src segs)
  = Some (PState MNormal fr (rev (items segs n) ++ cur)
                 (n + length (holes segs))).
Proof.
  induction segs as [|[c|ty name] segs IH]; intros fr cur n Hok; simpl in Hok.
  - simpl. by rewrite Nat.add_0_r.
  - apply andb_true_iff in Hok as [Hc Hok]. apply andb_true_iff in Hc as [Hc _].
    cbn [regex_src parse_from items holes].
    rewrite step_plain by done. unfold push. cbn [p_frames p_cur p_groups].
    rewrite IH by done. cbn [rev]. by rewrite <- app_assoc.
  - apply andb_true_iff in Hok as [_ Hok].
    cbn [regex_src items holes]. rewrite parse_from_app, parse_type_pattern.
    rewrite IH by done. cbn [rev length]. rewrite <- app_assoc.
    do 2 f_equal. lia.
Qed.

Lemma parse_compiled segs :
  template_ok plain segs = true ->
  parse ("^" +:+ regex_src segs +:+ "$")
  = Some (compiled_ast segs, length (holes segs)).
Proof.
  intros Hok. unfold parse.
  change ("^" +:+ regex_src segs +:+ "$")
    with (String "^" (regex_src segs +:+ "$")).
  cbn [parse_from]. change (step (PState MNormal [] [] 0) "^")
    with (Some (PState MNormal [] [RBol] 0)). cbv iota.
  rewrite parse_from_app, parse_from_src by done.
  cbn [parse_from]. change (step ?st "$") with (Some (push REol st)).
  cbv iota. unfold push. cbn [p_frames p_cur p_groups parse_from].
  unfold compiled_ast. cbn [rev]. rewrite !rev_app_distr, rev_involutive.
  reflexivity.
Qed.

(* ================================================================= *)
(** ** Matching a compiled template *)

(** What an [int] group captures: a non-empty run of digits. *)
Lemma spans_int_body st st' :
  spans (type_body "int") st st' ->
  exists w, st.1.2 = w +:+ st'.1.2 /\ w <> ""
            /\ Str.forallb Str.is_digit w = true.
Proof.
  change (type_body "int") with (RSeq (RRepeat 1 None RDigit) REmpty).
  cbn [spans]. intros (mid & Hreps & ->).
  apply (reps_run RDigit 1 None eq_refl) in Hreps as (w & Hw & Hall & Hlen).
  exists w. split; [done|]. split; [|done].
  intros ->. simpl in Hlen. lia.
Qed.

Lemma items_group_ids segs : forall n j,
  j ∈ group_ids (seq_of (items segs n ++ [REol])) -> n < j.
Proof.
  induction segs as [|[c|ty name] segs IH]; intros n j; cbn [items app seq_of foldr group_ids].
  - intros Hin. by apply elem_of_nil in Hin.
  - apply IH.
  - assert (Hbody : group_ids (type_body (hole_type ty)) = []).
    { unfold type_body.
      repeat match goal with
             | |- context [String.eqb ?a ?b] => destruct (String.eqb a b)
             end; reflexivity. }
    rewrite Hbody. cbn [app]. rewrite elem_of_cons. intros [->|Hin]; [lia|].
    apply IH in Hin. lia.
Qed.

Lemma spans_items segs : forall n st st',
  spans (seq_of (items segs n ++ [REol])) st st' ->
  int_groups_ok segs n st'.2.
Proof.
  induction segs as [|[c|ty name] segs IH]; intros n st st' Hspan;
    cbn [items app seq_of foldr spans] in Hspan.
  - intros i nm Hi. done.
  - destruct Hspan as (mid & _ & Hrest). exact (IH _ _ _ Hrest).
  - destruct Hspan as (mid & (caps1 & Hbody & Hcaps) & Hrest).
    intros [|i] nm Hi; cbn [holes lookup list_lookup] in Hi.
    + injection Hi as <- Hty. rewrite Nat.add_0_r.
      rewrite (spans_frame (seq_of (items segs (S n) ++ [REol])) (S n)
                 (fun Hin => Nat.lt_irrefl _ (items_group_ids _ _ _ Hin))
                 mid st' Hrest).
      rewrite Hcaps, lookup_insert_eq. rewrite Hty in Hbody.
      apply spans_int_body in Hbody as (w & Hw & Hne & Hall). cbn [fst snd] in Hw.
      exists w. rewrite Hw, consumed_app. done.
    + destruct (IH _ _ _ Hrest i nm Hi) as (w & Hw & Hok).
      exists w. split; [|done]. rewrite <- Hw. f_equal. lia.
Qed.

(** A match of the compiled expression. *)
Lemma match_compiled segs url m :
  match_at (compiled_ast segs) (length (holes segs)) 0 url = Some m ->
  m_ngroups m = length (holes segs) /\ int_groups_ok segs 0 (m_groups m).
Proof.
  unfold match_at. intros Hm.
  apply rmatch_sound in Hm as (pos' & s' & caps' & Hspan & Hm).
  injection Hm as <-. split; [done|]. cbn [m_groups].
  unfold compiled_ast in Hspan. cbn [seq_of foldr spans] in Hspan.
  destruct Hspan as (mid & _ & Hrest).
  exact (spans_items _ _ _ _ Hrest).
Qed.

Lemma rmatch_lits {A} s : forall n pos url caps (k : cont (A:=A)),
  rmatch (seq_of (items (lits s) n ++ [REol])) pos url caps k
  = match Str.strip_prefix s url with
    | Some rest =>
        if at_eol rest then k (pos + String.length s) rest caps else None
    | None => None
    end.
Proof.
  induction s as [|c s IH]; intros n pos url caps k.
  - cbn [lits items app seq_of foldr rmatch Str.strip_prefix String.length].
    by rewrite Nat.add_0_r.
  - cbn [lits items app seq_of foldr rmatch Str.strip_prefix String.length].
    unfold one_char. destruct url as [|d url]; [done|]. cbn [accepts].
    destruct (Ascii.eqb c d); [|done].
    change (foldr RSeq REmpty (items (lits s) n ++ [REol]))
      with (seq_of (items (lits s) n ++ [REol])).
    rewrite IH. destruct (Str.strip_prefix s url); [|done].
    destruct (at_eol s0); [|done]. f_equal. lia.
Qed.

Lemma at_eol_spec rest :
  at_eol rest = true <-> rest = "" \/ rest = String Str.LF "".
Proof.
  destruct rest as [|c [|d rest]]; simpl.
  - split; [by left|done].
  - destruct (Ascii.eqb_spec c Str.LF) as [->|Hne].
    + split; [by right|done].
    + split; [done|]. intros [|[= ->]]; done.
  - split; [done|]. intros [|]; done.
Qed.

Lemma digit_cases c :
  Str.is_digit c = true ->
  Conv.int_space c = false /\ Ascii.eqb c "_" = false
  /\ (forall (X : Type) (minus plus other : X),
        match c with
        | "-"%char => minus
        | "+"%char => plus
        | _ => other
        end = other).
Proof.
  destruct c as [[] [] [] [] [] [] [] []]; intros Hc; try discriminate Hc;
    repeat split; reflexivity.
Qed.



(** *** Templates whose literal text opens no group *)

Lemma holes_app a b : holes (a ++ b) = holes a ++ holes b.
Proof. induction a as [|[c|ty name] a IH]; simpl; [done|done|by rewrite IH]. Qed.


Lemma template_ok_app lit_ok a b :
  template_ok lit_ok (a ++ b) = template_ok lit_ok a && template_ok lit_ok b.
Proof. apply forallb_app. Qed.





















(* ================================================================= *)
(** ** URL patterns *)

(** C5 (what the code does).  A template without placeholders is still
    used as a regular expression: the point of [/a.b] accepts any
    character, [+] repeats, and [$] accepts a final newline.  So [match]
    succeeds on paths that differ from the template and can fail on the
    template itself. *)
Theorem literal_template_is_a_regex :
  exists u1 u2 u3 : URLPattern,
    URLPattern_init "/a.b" = Ok u1
    /\ parameter_names u1 = []
    /\ URLPattern_match u1 "/aXb" = Ok (Some ∅)
    /\ URLPattern_init "/home" = Ok u2
    /\ URLPattern_match u2 ("/home" +:+ String Str.LF "") = Ok (Some ∅)
    /\ URLPattern_init "/a+" = Ok u3
    /\ URLPattern_match u3 "/a+" = Ok None.
Proof.
  do 3 eexists. repeat split; vm_compute; reflexivity.
Qed.

(** What holds of literal templates: a template of plain characters (no
    metacharacter of [re], no opening angle bracket) accepts itself,
    itself followed by one newline, and nothing else. *)
Theorem plain_template_matches (tpl url : string) :
  Str.forallb plain tpl = true ->
  Str.mem "<" tpl = false ->
  exists u, URLPattern_init tpl = Ok u
    /\ (url = tpl \/ url = tpl +:+ String Str.LF "" ->
        URLPattern_match u url = Ok (Some ∅))
    /\ (url <> tpl -> url <> tpl +:+ String Str.LF "" ->
        URLPattern_match u url = Ok None).
Proof.
  intros Hall Hfree.
  pose proof (template_ok_lits tpl Hall Hfree) as Hok.
  pose proof (URLPattern_init_render any_char (lits tpl)
                (template_ok_weaken plain any_char _ (fun _ _ => eq_refl) Hok))
    as Hinit.
  rewrite render_lits, holes_lits in Hinit.
  eexists. split; [exact Hinit|].
  assert (Hrun : URLPattern_match
                   (MkURLPattern tpl (Some ("^" +:+ regex_src (lits tpl) +:+ "$")) [])
                   url
                 = Ok (match Str.strip_prefix tpl url with
                       | Some rest => if at_eol rest then Some ∅ else None
                       | None => None
                       end)).
  { unfold URLPattern_match. cbn [regex_pattern parameter_names].
    change ("^" +:+ regex_src (lits tpl) +:+ "$")
      with (String "^" (regex_src (lits tpl) +:+ "$")).
    cbv iota.
    change (String "^" (regex_src (lits tpl) +:+ "$"))
      with ("^" +:+ regex_src (lits tpl) +:+ "$").
    unfold re_match. rewrite (parse_compiled _ Hok). cbn [mbind res_bind].
    unfold match_at, compiled_ast.
    change (seq_of (RBol :: items (lits tpl) 0 ++ [REol]))
      with (RSeq RBol (seq_of (items (lits tpl) 0 ++ [REol]))).
    cbn [rmatch Nat.eqb]. rewrite rmatch_lits.
    destruct (Str.strip_prefix tpl url); [|done].
    by destruct (at_eol s). }
  rewrite Hrun. split.
  - intros [->| ->].
    + rewrite (proj2 (strip_prefix_spec tpl tpl "")); [done|].
      by rewrite str_app_nil_r.
    + rewrite (proj2 (strip_prefix_spec tpl _ _) eq_refl).
      cbn [at_eol]. by rewrite Ascii.eqb_refl.
  - intros Hne1 Hne2.
    destruct (Str.strip_prefix tpl url) as [rest|] eqn:Hp; [|done].
    apply strip_prefix_spec in Hp as ->.
    destruct (at_eol rest) eqn:He; [|done].
    apply at_eol_spec in He as [->| ->]; [|done].
    by rewrite str_app_nil_r in Hne1.
Qed.

Lemma plain_template_matches_witness :
  exists u, URLPattern_init "/home" = Ok u
    /\ ("/home" = "/home" \/ "/home" = "/home" +:+ String Str.LF "" ->
        URLPattern_match u "/home" = Ok (Some ∅))
    /\ ("/home" <> "/home" -> "/home" <> "/home" +:+ String Str.LF "" ->
        URLPattern_match u "/home" = Ok None).
Proof.
  apply (plain_template_matches "/home" "/home"); reflexivity.
Defined.

(** Every template compiles, and the compiled pattern always carries a
    regular expression that is not the empty string: the branch of
    [match] that compares the path with the template is never taken, and
    [match] is [re.match] followed by the conversions. *)
Theorem compiled_pattern_has_regex (pat url : string) :
  exists u rx,
    URLPattern_init pat = Ok u
    /\ pattern u = pat
    /\ regex_pattern u = Some rx
    /\ rx <> ""
    /\ URLPattern_match u url
       = (m ← re_match rx url;
          match m with
          | None => Ok None
          | Some mo => convert_params mo 0 (parameter_names u) ∅
          end).
Proof.
  unfold URLPattern_init, _compile_pattern, re_finditer.
  rewrite parse_parameter_regex. cbn [pattern parameter_names].
  destruct (scan_total pat 0 0) as (ms & -> & Hms). cbn [mbind res_bind].
  destruct (compile_loop_total ms ([], pat) Hms) as ([names regex] & ->).
  cbn [mbind res_bind]. do 2 eexists.
  split; [reflexivity|]. split; [reflexivity|]. split; [reflexivity|].
  split; [discriminate|]. reflexivity.
Qed.

(** C8, amended.  The parameter list of a compiled pattern holds one
    (name, type) pair per placeholder of the template, in the order of the
    template, a name that occurs twice included twice; so its names are
    pairwise distinct exactly when the names of the placeholders are.
    Templates are taken by their parts: literal characters other than [<],
    and placeholders [<name>] or [<type:name>] that the compiler reads
    back as written. *)
Theorem parameter_names_follow_template (segs : list segment) :
  template_ok any_char segs = true ->
  exists u, URLPattern_init (render segs) = Ok u
    /\ parameter_names u = holes segs
    /\ (NoDup (map fst (parameter_names u)) <-> NoDup (hole_names segs)).
Proof.
  intros Hok. eexists. split; [by apply (URLPattern_init_render any_char)|].
  cbn [parameter_names]. split; [done|]. by rewrite holes_names.
Qed.

Lemma parameter_names_follow_template_witness :
  exists u, URLPattern_init "/users/<int:id>/posts/<slug>" = Ok u
    /\ parameter_names u = [("id", "int"); ("slug", "string")]
    /\ (NoDup (map fst (parameter_names u)) <-> NoDup ["id"; "slug"]).
Proof.
  apply (parameter_names_follow_template
           [Lit "/"; Lit "u"; Lit "s"; Lit "e"; Lit "r"; Lit "s"; Lit "/";
            Hole (Some "int") "id";
            Lit "/"; Lit "p"; Lit "o"; Lit "s"; Lit "t"; Lit "s"; Lit "/";
            Hole None "slug"]).
  reflexivity.
Defined.

(** C8 as stated fails: the compiler records a name as often as the
    template repeats it. *)
Lemma duplicate_parameter_names :
  exists u, URLPattern_init "/<a>/<a>" = Ok u
    /\ parameter_names u = [("a", "string"); ("a", "string")]
    /\ ~ NoDup (map fst (parameter_names u)).
Proof.
  eexists. split; [vm_compute; reflexivity|]. split; [reflexivity|].
  cbn [parameter_names map fst]. intros Hnd.
  apply NoDup_cons in Hnd as [Hin _]. apply Hin. by left.
Qed.




(* ================================================================= *)
(** ** The route table *)

Section RouteFacts.
Context {H M : Type}.
Implicit Types (rm : RouteManager H M) (regs : list (registration H M)).

Lemma find_route_static_hit rm path method info :
  static_lookup rm path method = Some info ->
  find_route rm path method
  = Ok (Some (ri_handler info), ∅, ri_middlewares info).
Proof.
  unfold static_lookup, find_route. intros Hlook.
  destruct (static_routes rm !! path) as [by_method|]; simpl in Hlook; [|done].
  by rewrite Hlook.
Qed.

Lemma find_route_static_miss rm path method :
  static_lookup rm path method = None ->
  find_route rm path method = find_dynamic (dynamic_routes rm) path method.
Proof.
  unfold static_lookup, find_route. intros Hlook.
  destruct (static_routes rm !! path) as [by_method|]; simpl in Hlook; [|done].
  by rewrite Hlook.
Qed.

Lemma add_route_static_eq rm pat method h mws :
  is_dynamic pat = false ->
  exists rm', add_route rm pat method h mws = Ok rm'
    /\ static_lookup rm' pat method = Some (RouteInfo h (or_empty mws))
    /\ dynamic_routes rm' = dynamic_routes rm.
Proof.
  intros Hstatic. unfold add_route. rewrite Hstatic.
  eexists; split; [reflexivity|]. split; [|done].
  unfold static_lookup; simpl.
  rewrite lookup_insert_eq. simpl. by rewrite lookup_insert_eq.
Qed.

(** A registration leaves the other entries of the exact-match index as
    they were. *)
Lemma add_route_static_frame rm rm' pat method h mws path m :
  add_route rm pat method h mws = Ok rm' ->
  ~ (pat = path /\ method = m) ->
  static_lookup rm' path m = static_lookup rm path m.
Proof.
  unfold add_route. intros Hadd Hne.
  destruct (is_dynamic pat).
  - destruct (URLPattern_init pat); simpl in Hadd; [|done..].
    by injection Hadd as <-.
  - injection Hadd as <-. unfold static_lookup; simpl.
    destruct (decide (pat = path)) as [->|Hp].
    + rewrite lookup_insert_eq. simpl.
      rewrite lookup_insert_ne by (intros ->; by apply Hne).
      destruct (static_routes rm !! path) as [bm|] eqn:E; simpl.
      * by rewrite E.
      * by rewrite lookup_insert_eq.
    + rewrite lookup_insert_ne by done.
      destruct (static_routes rm !! pat); [done|].
      by rewrite lookup_insert_ne.
Qed.

Lemma register_all_app regs1 regs2 rm :
  register_all (regs1 ++ regs2) rm
  = rm' ← register_all regs1 rm; register_all regs2 rm'.
Proof.
  revert rm. induction regs1 as [|r regs1 IH]; intros rm; simpl; [done|].
  destruct (add_route rm _ _ _ _); simpl; [apply IH|done..].
Qed.

Lemma register_all_static_frame regs rm rm' path m :
  register_all regs rm = Ok rm' ->
  Forall (fun r => ~ (reg_path r = path /\ reg_method r = m)) regs ->
  static_lookup rm' path m = static_lookup rm path m.
Proof.
  revert rm. induction regs as [|r regs IH]; intros rm Hreg Hall; simpl in Hreg.
  - by injection Hreg as <-.
  - apply Forall_cons in Hall as [Hr Hall].
    destruct (add_route rm _ _ _ _) as [rm1| |] eqn:Hadd; simpl in Hreg; [|done..].
    rewrite (IH _ Hreg Hall).
    eapply add_route_static_frame; eauto.
Qed.

(** The pattern routes of a table are its dynamic registrations, compiled,
    in the order of the calls. *)
Lemma register_all_dynamic regs rm rm' :
  register_all regs rm = Ok rm' ->
  exists ds, Forall2 compiled (dynamic_regs regs) ds
    /\ dynamic_routes rm' = dynamic_routes rm ++ ds.
Proof.
  revert rm. induction regs as [|r regs IH]; intros rm Hreg; simpl in Hreg.
  - injection Hreg as <-. exists []. split; [constructor|by rewrite app_nil_r].
  - destruct (add_route rm _ _ _ _) as [rm1| |] eqn:Hadd; simpl in Hreg; [|done..].
    destruct (IH _ Hreg) as (ds & Hds & Heq).
    unfold add_route in Hadd. unfold dynamic_regs. simpl.
    destruct (is_dynamic (reg_path r)) eqn:Hdyn.
    + destruct (URLPattern_init (reg_path r)) as [u| |] eqn:Hu; simpl in Hadd; [|done..].
      injection Hadd as <-. simpl in Heq.
      eexists (_ :: ds). split.
      * constructor; [|exact Hds]. exists u. split; [done|reflexivity].
      * by rewrite Heq, <- app_assoc.
    + injection Hadd as <-. exists ds. split; [exact Hds|exact Heq].
Qed.

Lemma find_dynamic_skip (pre rest : list (dyn_route H M)) path m :
  Forall (fun d => dr_method d <> m
                   \/ URLPattern_match (dr_pattern d) path = Ok None) pre ->
  find_dynamic (pre ++ rest) path m = find_dynamic rest path m.
Proof.
  induction 1 as [|d pre Hd _ IH]; simpl; [done|].
  destruct (String.eqb_spec (dr_method d) m) as [Heq|Hne]; [|exact IH].
  destruct Hd as [Hd|Hd]; [done|]. rewrite Hd. simpl. exact IH.
Qed.

Lemma find_dynamic_hit (d : dyn_route H M) rest path ps :
  URLPattern_match (dr_pattern d) path = Ok (Some ps) ->
  find_dynamic (d :: rest) path (dr_method d)
  = Ok (Some (dr_handler d), ps, dr_middlewares d).
Proof. intros Hm. simpl. rewrite String.eqb_refl, Hm. reflexivity. Qed.

Lemma add_route_total rm pat method h mws :
  exists rm', add_route rm pat method h mws = Ok rm'.
Proof.
  unfold add_route. destruct (is_dynamic pat); [|by eexists].
  destruct (URLPattern_init_total pat) as (u & -> & _). by eexists.
Qed.

(** Start-up never leaves the model: every sequence of registrations
    builds a table. *)
Lemma register_all_total regs :
  forall rm, exists rm', register_all regs rm = Ok rm'.
Proof.
  induction regs as [|r regs IH]; intros rm; [by eexists|].
  cbn [register_all].
  destruct (add_route_total rm (reg_path r) (reg_method r) (reg_handler r)
              (reg_middlewares r)) as (rm1 & ->).
  cbn [mbind res_bind]. apply IH.
Qed.

End RouteFacts.

(** C1, amended.  Start-up completes, and a route registered under a path
    that [add_route] keeps in the exact-match index (the path does not
    hold both angle brackets), and not registered again later under the
    same path and method, resolves to its handler, no parameters and its
    middleware list, whatever other routes, static or pattern, were
    registered before or after it. *)
Theorem static_route_resolves {H M : Type}
    (regs1 regs2 : list (registration H M)) (path m : string) (h : H)
    (mws : option (list M)) :
  is_dynamic path = false ->
  Forall (fun r => ~ (reg_path r = path /\ reg_method r = m)) regs2 ->
  exists rm,
    register_all (regs1 ++ Reg path m h mws :: regs2) RouteManager_init = Ok rm
    /\ find_route rm path m = Ok (Some h, ∅, or_empty mws).
Proof.
  intros Hstatic Hlater.
  destruct (register_all_total (regs1 ++ Reg path m h mws :: regs2)
              RouteManager_init) as (rm & Hreg).
  exists rm. split; [exact Hreg|].
  rewrite register_all_app in Hreg.
  destruct (register_all regs1 RouteManager_init) as [rm1| |]; simpl in Hreg; [|done..].
  destruct (add_route_static_eq rm1 path m h mws Hstatic) as (rm2 & Hadd & Hlook & _).
  rewrite Hadd in Hreg. simpl in Hreg.
  rewrite (find_route_static_hit rm path m (RouteInfo h (or_empty mws))); [done|].
  by rewrite (register_all_static_frame _ _ _ _ _ Hreg Hlater).
Qed.

Lemma static_route_resolves_witness :
  exists rm : RouteManager nat nat,
    register_all ([Reg "/<path:rest>" "GET" 1 None]
                  ++ Reg "/home" "GET" 2 (Some [5; 6])
                  :: [Reg "/<page>" "GET" 3 None; Reg "/home" "POST" 4 None])
                 RouteManager_init = Ok rm
    /\ find_route rm "/home" "GET" = Ok (Some 2, ∅, [5; 6]).
Proof.
  apply (static_route_resolves
           [Reg "/<path:rest>" "GET" 1 None]
           [Reg "/<page>" "GET" 3 None; Reg "/home" "POST" 4 None]
           "/home" "GET" 2 (Some [5; 6])).
  - reflexivity.
  - repeat constructor; simpl; intros [? ?]; discriminate.
Defined.

(** C1 as stated fails in two ways.  A path that holds both angle
    brackets and no placeholder compiles to a pattern without parameter,
    [add_route] files the route with the pattern routes and leaves the
    exact-match index alone, and a pattern route registered earlier that
    accepts the path answers for it, with its own handler, a parameter and
    its own middleware list.  And of two routes registered under the same
    plain path and method the second replaces the first in the index, so
    the first is a registered route whose handler is not returned. *)
Lemma registered_route_not_resolved :
  (exists (rm : RouteManager nat nat) u,
      register_all [Reg "/<path:rest>" "GET" 1 None;
                    Reg "/x<>y" "GET" 2 (Some [5; 6])] RouteManager_init = Ok rm
      /\ URLPattern_init "/x<>y" = Ok u
      /\ parameter_names u = []
      /\ is_dynamic "/x<>y" = true
      /\ static_routes rm = ∅
      /\ find_route rm "/x<>y" "GET"
         = Ok (Some 1, {[ "rest" := PStr "x<>y" ]}, []))
  /\ (exists rm : RouteManager nat nat,
        register_all [Reg "/home" "GET" 1 (Some [5]);
                      Reg "/home" "GET" 2 (Some [6])] RouteManager_init = Ok rm
        /\ is_dynamic "/home" = false
        /\ find_route rm "/home" "GET" = Ok (Some 2, ∅, [6])).
Proof.
  split.
  - do 2 eexists. split; [vm_compute; reflexivity|].
    split; [vm_compute; reflexivity|].
    repeat split; vm_compute; reflexivity.
  - eexists. split; [vm_compute; reflexivity|].
    split; vm_compute; reflexivity.
Qed.

(** C2.  When the exact-match index has no entry for the path and method,
    [find_route] returns the first pattern route, in the order of
    registration, that was registered under the request method and whose
    matcher accepts the path: pattern routes registered before it are
    passed over when their method differs or their matcher says no, and
    routes registered after it are not consulted. *)
Theorem first_matching_pattern_wins {H M : Type}
    (regs pre post : list (registration H M)) (r : registration H M)
    (rm : RouteManager H M) (path m : string) (ps : params) :
  register_all regs RouteManager_init = Ok rm ->
  static_lookup rm path m = None ->
  dynamic_regs regs = pre ++ r :: post ->
  Forall (fun r' => reg_method r' <> m \/ route_matches r' path = Ok None) pre ->
  reg_method r = m ->
  route_matches r path = Ok (Some ps) ->
  find_route rm path m
  = Ok (Some (reg_handler r), ps, or_empty (reg_middlewares r)).
Proof.
  intros Hreg Hmiss Hsplit Hpre Hm Hr.
  rewrite (find_route_static_miss _ _ _ Hmiss).
  destruct (register_all_dynamic _ _ _ Hreg) as (ds & Hds & ->). simpl.
  rewrite Hsplit in Hds.
  apply Forall2_app_inv_l in Hds as (dpre & drest & Hdpre & Hdrest & ->).
  apply Forall2_cons_inv_l in Hdrest as (d & dpost & (u & Hu & ->) & _ & ->).
  rewrite find_dynamic_skip.
  - subst m. unfold route_matches in Hr. rewrite Hu in Hr. simpl in Hr.
    exact (find_dynamic_hit (DynRoute u _ _ _ _) dpost path ps Hr).
  - clear - Hpre Hdpre.
    induction Hdpre as [|r' d' pre' dpre' (u' & Hu' & ->) _ IH];
      [constructor|].
    apply Forall_cons in Hpre as [Hhd Hpre]. constructor; [|by apply IH].
    destruct Hhd as [Hhd|Hhd]; [by left|right].
    unfold route_matches in Hhd. rewrite Hu' in Hhd. exact Hhd.
Qed.

Lemma first_matching_pattern_wins_witness :
  exists rm : RouteManager nat nat,
    register_all [Reg "/about" "GET" 0 None;
                  Reg "/users/<int:id>" "POST" 1 None;
                  Reg "/items/<int:id>" "GET" 2 None;
                  Reg "/users/<int:id>" "GET" 3 (Some [9]);
                  Reg "/users/<name>" "GET" 4 None]
                 RouteManager_init = Ok rm
    /\ route_matches (Reg (H:=nat) (M:=nat) "/users/<name>" "GET" 4 None) "/users/42"
       = Ok (Some {["name" := PStr "42"]})
    /\ find_route rm "/users/42" "GET" = Ok (Some 3, {["id" := PInt 42]}, [9]).
Proof.
  eexists. split; [vm_compute; reflexivity|]. split; [vm_compute; reflexivity|].
  apply (first_matching_pattern_wins
           [Reg "/about" "GET" 0 None;
            Reg "/users/<int:id>" "POST" 1 None;
            Reg "/items/<int:id>" "GET" 2 None;
            Reg "/users/<int:id>" "GET" 3 (Some [9]);
            Reg "/users/<name>" "GET" 4 None]
           [Reg "/users/<int:id>" "POST" 1 None;
            Reg "/items/<int:id>" "GET" 2 None]
           [Reg "/users/<name>" "GET" 4 None]
           (Reg "/users/<int:id>" "GET" 3 (Some [9]))).
  - vm_compute; reflexivity.
  - vm_compute; reflexivity.
  - reflexivity.
  - constructor; [left; discriminate|].
    constructor; [right; vm_compute; reflexivity|constructor].
  - reflexivity.
  - vm_compute; reflexivity.
Defined.

(** C3.  The pattern [/users/<int:id>] compiles to the anchored expression
    with one group of digits; it accepts [/users/42] with [id] the integer
    42 and rejects [/users/abc].  In the table that holds this route under
    GET, [/users/42] resolves to the route with that parameter and
    [/users/abc] is not found. *)
Theorem users_int_id_route {H M : Type} (h : H) (mws : option (list M)) :
  exists (u : URLPattern) (rm : RouteManager H M),
    URLPattern_init "/users/<int:id>" = Ok u
    /\ URLPattern_match u "/users/42" = Ok (Some {["id" := PInt 42]})
    /\ URLPattern_match u "/users/abc" = Ok None
    /\ register_all [Reg "/users/<int:id>" "GET" h mws] RouteManager_init = Ok rm
    /\ find_route rm "/users/42" "GET"
       = Ok (Some h, {["id" := PInt 42]}, or_empty mws)
    /\ find_route rm "/users/abc" "GET" = Ok (None, ∅, []).
Proof.
  eexists. eexists.
  split; [vm_compute; reflexivity|].
  split; [vm_compute; reflexivity|].
  split; [vm_compute; reflexivity|].
  split; [cbv - [or_empty]; reflexivity|].
  split; vm_compute; reflexivity.
Qed.

(* ================================================================= *)
(** ** The response builder *)

Lemma header_lines_foldl (lines : list string) (headers : list header) :
  foldl (fun lines '(header_name, header_value) =>
           lines ++ [header_name +:+ ": " +:+ header_value]) lines headers
  = lines ++ map (fun '(n, v) => n +:+ ": " +:+ v) headers.
Proof.
  revert lines. induction headers as [|[n v] headers IH]; intros lines; simpl.
  - by rewrite app_nil_r.
  - by rewrite IH, <- app_assoc.
Qed.

Lemma encode_lines (sep : string) (lines : list string) (tail : string) :
  Bytes.encode (foldr (fun l acc => l +:+ sep +:+ acc) tail lines)
  = concat (map (fun l => Bytes.encode (l +:+ sep)) lines) ++ Bytes.encode tail.
Proof.
  induction lines as [|l lines IH]; simpl; [done|].
  by rewrite !encode_app, IH, !app_assoc.
Qed.

Lemma foldr_lines_app (sep : string) (l1 l2 : list string) :
  foldr (fun l acc => l +:+ sep +:+ acc) "" (l1 ++ l2)
  = foldr (fun l acc => l +:+ sep +:+ acc)
          (foldr (fun l acc => l +:+ sep +:+ acc) "" l2) l1.
Proof. by rewrite foldr_app. Qed.

(** C4.  The serialized response is the status line [HTTP/1.1 <status>],
    one [Name: Value] line per supplied header in the order supplied, a
    [Content-Length] line with the byte length of the body exactly when
    no supplied header is named Content-Length (compared in lower case),
    the line [Connection: close], an empty line, and the body bytes as
    they are; every line ends with CRLF. *)
Theorem build_http_response_framing (status : string) (headers : list header)
    (body : Bytes.bytes) :
  Server.build_http_response status headers body
  = Bytes.encode ("HTTP/1.1 " +:+ status +:+ Str.CRLF)
    ++ concat (map (fun '(n, v) => Bytes.encode (n +:+ ": " +:+ v +:+ Str.CRLF))
                   headers)
    ++ (if existsb (fun h => String.eqb (Str.lower (fst h)) "content-length")
                   headers
        then []
        else Bytes.encode ("Content-Length: " +:+ Str.of_nat (length body)
                           +:+ Str.CRLF))
    ++ Bytes.encode ("Connection: close" +:+ Str.CRLF)
    ++ Bytes.encode Str.CRLF
    ++ body.
Proof.
  unfold Server.build_http_response.
  rewrite header_lines_foldl.
  assert (Hhl : concat (map (fun l => Bytes.encode (l +:+ Str.CRLF))
                            (map (fun '(n, v) => n +:+ ": " +:+ v) headers))
                = concat (map (fun '(n, v) =>
                                 Bytes.encode (n +:+ ": " +:+ v +:+ Str.CRLF))
                              headers)).
  { clear. induction headers as [|[n v] headers IH]; cbn [map concat]; [done|].
    by rewrite IH, !str_app_assoc. }
  rewrite <- Hhl. clear Hhl.
  generalize (map (fun '(n, v) => n +:+ ": " +:+ v) headers) as hl.
  intros hl.
  match goal with
  | |- context [existsb ?f headers] => destruct (existsb f headers)
  end; cbn [negb].
  - rewrite <- (app_assoc [_] hl). cbn [app].
    rewrite <- str_app_assoc, join_terminated, foldr_lines_app.
    rewrite !encode_app, encode_lines. cbn [foldr].
    rewrite !str_app_nil_r, !encode_app, <- !app_assoc. reflexivity.
  - rewrite <- !app_assoc. cbn [app].
    rewrite <- str_app_assoc, join_terminated, !foldr_lines_app.
    rewrite !encode_app, encode_lines. cbn [foldr].
    rewrite !str_app_nil_r, !encode_app, <- !app_assoc. reflexivity.
Qed.

(** The round trip of the response builder on one header and the body
    [hi]: one [Content-Length: 2], one [Connection: close], the body. *)
Example build_http_response_round_trip :
  Server.build_http_response "200 OK" [("Content-Type", "text/plain")]
    (Bytes.encode "hi")
  = Bytes.encode ("HTTP/1.1 200 OK" +:+ Str.CRLF
                  +:+ "Content-Type: text/plain" +:+ Str.CRLF
                  +:+ "Content-Length: 2" +:+ Str.CRLF
                  +:+ "Connection: close" +:+ Str.CRLF
                  +:+ Str.CRLF +:+ "hi").
Proof. vm_compute; reflexivity. Qed.

(** A supplied [Content-Length], in whatever case, is kept and none is
    added, also when it is not the length of the body. *)
Example build_http_response_keeps_length :
  Server.build_http_response "200 OK" [("content-LENGTH", "9")]
    (Bytes.encode "hi")
  = Bytes.encode ("HTTP/1.1 200 OK" +:+ Str.CRLF
                  +:+ "content-LENGTH: 9" +:+ Str.CRLF
                  +:+ "Connection: close" +:+ Str.CRLF
                  +:+ Str.CRLF +:+ "hi").
Proof. vm_compute; reflexivity. Qed.

(* ================================================================= *)
(** ** The application and the connection handler *)

Section AppFacts.
Context {J : Type}.
Variable parse_qsl : string -> list (string * string).
Variable parse_qs : string -> list (string * list string).
Variable json_loads : string -> option J.
Variable unquote : string -> string.

#[local] Abbreviation request_of := (Request_init parse_qsl parse_qs json_loads).
#[local] Abbreviation app_call := (live_rocket_call parse_qsl parse_qs json_loads).
#[local] Abbreviation reaches := (reaches_handler parse_qsl parse_qs json_loads).

Lemma call_runs_handler self env h request ps :
  reaches self env h request ps ->
  app_call self env
  = response ← h request (Response_init None None) ps; Ok (as_wsgi response).
Proof.
  intros (req & req' & rmws & Hreq & Hmw & Hfind & Hrmw).
  unfold live_rocket_call.
  rewrite Hreq. simpl. rewrite Hmw. simpl. rewrite Hfind. simpl.
  rewrite Hrmw. reflexivity.
Qed.

(** C9.  A [Response] built without status or text is
    [404 Not Found] / [Route not Found] with the one header
    [Content-Type: text/plain]; it is the response every matched handler
    receives, so a handler that returns it as it got it makes the
    application answer with that status, header and body. *)
Theorem untouched_response_is_404 self env h request ps :
  reaches self env h request ps ->
  h request (Response_init None None) ps = Ok (Response_init None None) ->
  Response_init None None
  = MkResponse "404 Not Found" "Route not Found" [("Content-Type", "text/plain")]
  /\ app_call self env
     = Ok (WsgiResult (Some ("404 Not Found", [("Content-Type", "text/plain")]))
                      [ChunkBytes (Bytes.encode "Route not Found")]).
Proof.
  intros Hreach Hh. split; [reflexivity|].
  rewrite (call_runs_handler _ _ _ _ _ Hreach), Hh. reflexivity.
Qed.

(** A request that no route answers gets [404 Not Found] with the text
    [Route not found] (the default text of [Response] differs from it by
    one capital letter). *)
Theorem unknown_route_is_404 self env req req' ps mws :
  request_of env = Ok req ->
  run_middlewares (middlewares self)
    "You can pass function as middlewares !" req = Ok req' ->
  find_route (route_manager self) (path_info req') (method req')
  = Ok (None, ps, mws) ->
  app_call self env
  = Ok (WsgiResult (Some ("404 Not Found", [("Content-Type", "text/plain")]))
                   [ChunkBytes (Bytes.encode "Route not found")]).
Proof.
  intros Hreq Hmw Hfind. unfold live_rocket_call.
  rewrite Hreq. simpl. rewrite Hmw. simpl. rewrite Hfind. reflexivity.
Qed.

Lemma create_error_response_500 (message : string) :
  Server.create_error_response 500 message
  = Bytes.encode ("HTTP/1.1 500 Internal Server Error" +:+ Str.CRLF
                  +:+ "Content-Type: text/html" +:+ Str.CRLF
                  +:+ "Content-Length: "
                  +:+ Str.of_nat (length (Bytes.encode
                        ("<h1>500 Internal Server Error</h1><p>" +:+ message
                         +:+ "</p>")))
                  +:+ Str.CRLF
                  +:+ "Connection: close" +:+ Str.CRLF +:+ Str.CRLF)
    ++ Bytes.encode ("<h1>500 Internal Server Error</h1><p>" +:+ message
                     +:+ "</p>").
Proof. reflexivity. Qed.

Lemma handle_wsgi_request_raised app env e :
  app env = Raise e ->
  isinstance e "Exception" = true ->
  Server.handle_wsgi_request app env
  = Ok (Server.create_error_response 500
          ("Internal Server Error: " +:+ exn_msg e)).
Proof.
  intros Happ Hexc. unfold Server.handle_wsgi_request.
  rewrite Happ. simpl. rewrite Hexc. reflexivity.
Qed.

(** C6.  When the request reaches a handler and the handler raises an
    exception of a class derived from [Exception], the connection handler
    sends one response — status line [HTTP/1.1 500 Internal Server Error],
    [Content-Type], a [Content-Length] that is the byte length of the
    body, [Connection: close], an empty line, and a body that holds the
    exception's message — then closes the socket and returns normally
    (the peer being still there to receive it). *)
Theorem handler_exception_gives_500 self sock client_host request_data env
    h request ps e :
  Bytes.decode (firstn 4096 (Server.incoming sock)) = Ok request_data ->
  request_data <> "" ->
  Server.parse_http_request unquote request_data client_host = Ok env ->
  reaches self env h request ps ->
  h request (Response_init None None) ps = Raise e ->
  isinstance e "Exception" = true ->
  Server.peer_gone sock = false ->
  let body := Bytes.encode ("<h1>500 Internal Server Error</h1><p>"
                            +:+ "Internal Server Error: " +:+ exn_msg e
                            +:+ "</p>") in
  Server.handle_request unquote (app_call self) sock client_host
  = (Server.Socket (Server.incoming sock) false
       (Server.sent sock ++
        [Bytes.encode ("HTTP/1.1 500 Internal Server Error" +:+ Str.CRLF
                       +:+ "Content-Type: text/html" +:+ Str.CRLF
                       +:+ "Content-Length: " +:+ Str.of_nat (length body)
                       +:+ Str.CRLF
                       +:+ "Connection: close" +:+ Str.CRLF +:+ Str.CRLF)
         ++ body])
       true,
     Ok tt).
Proof.
  intros Hdec Hne Hparse Hreach Hh Hexc Hpeer body.
  assert (Happ : app_call self env = Raise e).
  { rewrite (call_runs_handler _ _ _ _ _ Hreach), Hh. reflexivity. }
  unfold Server.handle_request, Server.handle_request_body.
  rewrite Hdec. destruct request_data as [|c rd]; [done|].
  rewrite Hparse, (handle_wsgi_request_raised _ _ _ Happ Hexc).
  unfold Server.sock_send. rewrite Hpeer. cbn [Server.sock_close].
  rewrite create_error_response_500. reflexivity.
Qed.

(** Reading the body: a positive length that fits an index reads that
    many characters or bytes. *)
Lemma read_body_reads env cl n input :
  Conv.py_int (Some cl) = Ok n ->
  (0 < n)%Z -> (n <= maxsize)%Z ->
  wsgi_input_of env = Some input ->
  read_body parse_qs json_loads env cl
  = (let request_body := input_read input (Z.to_nat n) in
     let content_type := default "" (CONTENT_TYPE env) in
     if Str.contains "application/x-www-form-urlencoded" content_type then
       decoded ← data_decode request_body;
       Ok (BodyDict (form_fields (parse_qs decoded)), None)
     else if Str.contains "application/json" content_type then
       b ← try_except
              (decoded ← data_decode request_body;
               match json_loads decoded with
               | Some j => Ok (BodyJson j)
               | None => Raise (JSONDecodeError "Expecting value")
               end)
              ["JSONDecodeError"]
              (fun _ => Ok (BodyDict ∅));
       Ok (b, None)
     else Ok (BodyDict ∅, Some request_body)).
Proof.
  intros Hint Hpos Hmax Hin. unfold read_body. rewrite Hint. cbn [mbind res_bind].
  destruct (Z.ltb_spec 0 n) as [_|]; [|lia].
  rewrite Hin. unfold stream_read.
  destruct (Z.ltb_spec maxsize n) as [|_]; [lia|]. reflexivity.
Qed.

Lemma request_init_body env cl :
  CONTENT_LENGTH env = Some cl -> cl <> "" ->
  request_of env
  = '(body, body_raw) ← read_body parse_qs json_loads env cl;
    Ok (MkRequest env (default "GET" (REQUEST_METHOD env))
          (match default "" (QUERY_STRING env) with
           | "" => ∅
           | _ => foldl (fun acc '(key, val) => <[key := val]> acc) ∅
                    (parse_qsl (default "" (QUERY_STRING env)))
           end)
          (default "/" (PATH_INFO env)) body body_raw).
Proof.
  intros Hcl Hne. unfold Request_init. rewrite Hcl. cbn [default from_option id].
  by destruct cl.
Qed.

Lemma py_int_nonempty cl n : Conv.py_int (Some cl) = Ok n -> cl <> "".
Proof. intros Hint ->. by vm_compute in Hint. Qed.

(** What [decode] raises is a [UnicodeDecodeError], which is no
    [json.JSONDecodeError]. *)
Lemma decode_from_raises b : forall pos e,
  Bytes.decode_from pos b = Raise e ->
  exn_mro e
  = ["UnicodeDecodeError"; "UnicodeError"; "ValueError"; "Exception";
     "BaseException"].
Proof.
  assert (Hlen : forall k b pos e, length b <= k ->
            Bytes.decode_from pos b = Raise e ->
            exn_mro e
            = ["UnicodeDecodeError"; "UnicodeError"; "ValueError"; "Exception";
               "BaseException"]).
  { induction k as [|k IH]; intros [|x rest] pos e Hk; cbn [length] in Hk;
      try done; try lia.
    cbn [Bytes.decode_from].
    destruct (Nat.ltb (Byte.to_nat x) 128).
    { destruct (Bytes.decode_from (S pos) rest) as [s|e'|] eqn:Hrest;
        cbn [mbind res_bind]; try done.
      intros [= <-]. apply (IH rest (S pos)); [lia|done]. }
    destruct (_ || _); [by intros [= <-]|].
    destruct (Nat.ltb (Byte.to_nat x) 224); [|done].
    destruct rest as [|y rest']; [by intros [= <-]|].
    destruct (Bytes.is_continuation y); [|by intros [= <-]].
    destruct (Nat.ltb (Byte.to_nat x) 196); [|done].
    destruct (Bytes.decode_from (S (S pos)) rest') as [s|e'|] eqn:Hrest;
      cbn [mbind res_bind]; try done.
    intros [= <-]. apply (IH rest' (S (S pos))); [cbn [length] in Hk; lia|done]. }
  intros pos e. by apply (Hlen (length b)).
Qed.

(** With a binary stream whose bytes are no UTF-8, a JSON body makes the
    construction of the request raise the [UnicodeDecodeError] of
    [decode]: the [except] clause names [json.JSONDecodeError] only. *)
Theorem json_body_not_utf8_raises env cl n b e :
  CONTENT_LENGTH env = Some cl ->
  Conv.py_int (Some cl) = Ok n ->
  (0 < n)%Z -> (n <= maxsize)%Z ->
  wsgi_input_of env = Some (InputBytes b) ->
  Str.contains "application/x-www-form-urlencoded" (default "" (CONTENT_TYPE env)) = false ->
  Str.contains "application/json" (default "" (CONTENT_TYPE env)) = true ->
  Bytes.decode (firstn (Z.to_nat n) b) = Raise e ->
  isinstance e "UnicodeDecodeError" = true
  /\ isinstance e "JSONDecodeError" = false
  /\ request_of env = Raise e.
Proof.
  intros Hcl Hint Hpos Hmax Hin Hform Hjson Hdec.
  pose proof (decode_from_raises _ _ _ Hdec) as Hmro.
  assert (Hu : isinstance e "UnicodeDecodeError" = true)
    by (unfold isinstance; by rewrite Hmro).
  assert (Hj : isinstance e "JSONDecodeError" = false)
    by (unfold isinstance; by rewrite Hmro).
  split; [done|]. split; [done|].
  rewrite (request_init_body env cl Hcl (py_int_nonempty _ _ Hint)).
  rewrite (read_body_reads env cl n _ Hint Hpos Hmax Hin).
  cbv zeta. rewrite Hform, Hjson. cbn [input_read data_decode]. rewrite Hdec.
  cbn [mbind res_bind try_except existsb]. rewrite Hj. reflexivity.
Qed.

(** With a binary stream whose bytes decode, text that [json.loads]
    refuses leaves the body the empty dictionary. *)
Theorem json_body_refused_is_empty env cl n b decoded :
  CONTENT_LENGTH env = Some cl ->
  Conv.py_int (Some cl) = Ok n ->
  (0 < n)%Z -> (n <= maxsize)%Z ->
  wsgi_input_of env = Some (InputBytes b) ->
  Str.contains "application/x-www-form-urlencoded" (default "" (CONTENT_TYPE env)) = false ->
  Str.contains "application/json" (default "" (CONTENT_TYPE env)) = true ->
  Bytes.decode (firstn (Z.to_nat n) b) = Ok decoded ->
  json_loads decoded = None ->
  exists req, request_of env = Ok req /\ body req = BodyDict ∅.
Proof.
  intros Hcl Hint Hpos Hmax Hin Hform Hjson Hdec Hloads.
  rewrite (request_init_body env cl Hcl (py_int_nonempty _ _ Hint)).
  rewrite (read_body_reads env cl n _ Hint Hpos Hmax Hin).
  cbv zeta. rewrite Hform, Hjson. cbn [input_read data_decode]. rewrite Hdec.
  cbn [mbind res_bind]. rewrite Hloads.
  eexists. split; reflexivity.
Qed.

End AppFacts.

(** C7 (what the code does), end to end: a POST with a JSON content type
    and a body that is no JSON, sent to the socket server.  The
    construction of the request raises, whatever the application, and the
    client gets a 500 response that quotes the error. *)
Theorem json_request_on_socket_server {J : Type}
    (parse_qsl : string -> list (string * string))
    (parse_qs : string -> list (string * list string))
    (json_loads : string -> option J) (unquote : string -> string)
    (self : live_rocket (J:=J)) :
  let raw := "POST /items HTTP/1.1" +:+ Str.CRLF
             +:+ "Content-Type: application/json" +:+ Str.CRLF
             +:+ "Content-Length: 5" +:+ Str.CRLF
             +:+ Str.CRLF +:+ "{oops" in
  exists env,
    Server.parse_http_request unquote raw "127.0.0.1" = Ok env
    /\ wsgi_input_of env = Some (InputStr "{oops")
    /\ Request_init parse_qsl parse_qs json_loads env
       = Raise (AttributeError "'str' object has no attribute 'decode'")
    /\ Server.handle_request unquote
         (live_rocket_call parse_qsl parse_qs json_loads self)
         (Server.Socket (Bytes.encode raw) false [] false) "127.0.0.1"
       = (Server.Socket (Bytes.encode raw) false
            [Server.create_error_response 500
               "Internal Server Error: 'str' object has no attribute 'decode'"]
            true,
          Ok tt).
Proof.
  intros raw. eexists.
  split; [vm_compute; reflexivity|].
  split; [reflexivity|].
  split; vm_compute; reflexivity.
Qed.

(* ================================================================= *)
(** ** A small application, end to end *)

Lemma untouched_response_is_404_witness :
  Response_init None None
  = MkResponse "404 Not Found" "Route not Found" [("Content-Type", "text/plain")]
  /\ live_rocket_call Demo.no_pairs Demo.no_lists Demo.no_json
       Demo.app (Demo.get "/ping")
     = Ok (WsgiResult (Some ("404 Not Found", [("Content-Type", "text/plain")]))
                      [ChunkBytes (Bytes.encode "Route not Found")]).
Proof.
  apply (untouched_response_is_404 Demo.no_pairs Demo.no_lists Demo.no_json
           Demo.app (Demo.get "/ping") Demo.idle (Demo.request "/ping") ∅).
  - exists (Demo.request "/ping"), (Demo.request "/ping"), [].
    repeat split; vm_compute; reflexivity.
  - reflexivity.
Defined.

Lemma handler_exception_gives_500_witness :
  Server.handle_request Demo.same
    (live_rocket_call Demo.no_pairs Demo.no_lists Demo.no_json Demo.app)
    (Server.Socket (Bytes.encode (Demo.raw_get "/boom")) false [] false)
    "127.0.0.1"
  = (Server.Socket (Bytes.encode (Demo.raw_get "/boom")) false
       [Bytes.encode
          ("HTTP/1.1 500 Internal Server Error" +:+ Str.CRLF
           +:+ "Content-Type: text/html" +:+ Str.CRLF
           +:+ "Content-Length: 70" +:+ Str.CRLF
           +:+ "Connection: close" +:+ Str.CRLF +:+ Str.CRLF
           +:+ "<h1>500 Internal Server Error</h1>"
           +:+ "<p>Internal Server Error: kaboom</p>")]
       true,
     Ok tt).
Proof.
  refine (eq_trans
            (handler_exception_gives_500 Demo.no_pairs Demo.no_lists Demo.no_json
               Demo.same Demo.app
               (Server.Socket (Bytes.encode (Demo.raw_get "/boom")) false [] false)
               "127.0.0.1" (Demo.raw_get "/boom") (Demo.get "/boom")
               Demo.boom (Demo.request "/boom") ∅ (ValueError "kaboom")
               _ _ _ _ _ _ _) _).
  - vm_compute; reflexivity.
  - discriminate.
  - vm_compute; reflexivity.
  - exists (Demo.request "/boom"), (Demo.request "/boom"), [].
    repeat split; vm_compute; reflexivity.
  - reflexivity.
  - reflexivity.
  - reflexivity.
  - vm_compute; reflexivity.
Defined.

Lemma unknown_route_is_404_witness :
  live_rocket_call Demo.no_pairs Demo.no_lists Demo.no_json
    Demo.app (Demo.get "/nope")
  = Ok (WsgiResult (Some ("404 Not Found", [("Content-Type", "text/plain")]))
                   [ChunkBytes (Bytes.encode "Route not found")]).
Proof.
  apply (unknown_route_is_404 Demo.no_pairs Demo.no_lists Demo.no_json
           Demo.app (Demo.get "/nope") (Demo.request "/nope")
           (Demo.request "/nope") ∅ []).
  - vm_compute; reflexivity.
  - reflexivity.
  - vm_compute; reflexivity.
Defined.

Lemma json_body_not_utf8_raises_witness :
  let e := UnicodeDecodeError
             "'utf-8' codec can't decode byte 0xff in position 0: invalid start byte" in
  isinstance e "UnicodeDecodeError" = true
  /\ isinstance e "JSONDecodeError" = false
  /\ Request_init Demo.no_pairs Demo.no_lists Demo.no_json
       (Demo.post_json (InputBytes (xff :: Bytes.encode "oops")))
     = Raise e.
Proof.
  apply (json_body_not_utf8_raises Demo.no_pairs Demo.no_lists
           Demo.no_json (Demo.post_json (InputBytes (xff :: Bytes.encode "oops")))
           "5" 5 (xff :: Bytes.encode "oops"));
    first [reflexivity | by vm_compute].
Defined.

Lemma json_body_refused_is_empty_witness :
  exists req,
    Request_init Demo.no_pairs Demo.no_lists Demo.no_json
      (Demo.post_json (InputBytes (Bytes.encode "{oops"))) = Ok req
    /\ body req = BodyDict ∅.
Proof.
  apply (json_body_refused_is_empty Demo.no_pairs Demo.no_lists
           Demo.no_json (Demo.post_json (InputBytes (Bytes.encode "{oops")))
           "5" 5 (Bytes.encode "{oops") "{oops");
    first [reflexivity | by vm_compute].
Defined.

(* ################################################################# *)
(** * Further properties *)

(* ================================================================= *)
(** ** More on strings *)

Lemma split_go_nonempty sep : forall s skip, Str.split_go sep skip s <> [].
Proof.
  induction s as [|c s IH]; intros skip; cbn [Str.split_go]; [done|].
  destruct skip; [|apply IH].
  destruct (Str.strip_prefix sep (String c s)); [done|].
  specialize (IH 0). destruct (Str.split_go sep 0 s); done.
Qed.

Lemma join_cons_head sep c parts :
  parts <> [] ->
  Str.join sep (Str.cons_head c parts) = String c (Str.join sep parts).
Proof. destruct parts as [|p [|q parts]]; done. Qed.

Lemma join_cons sep p parts :
  parts <> [] -> Str.join sep (p :: parts) = p +:+ sep +:+ Str.join sep parts.
Proof. by destruct parts. Qed.

Lemma split_go_skip sep p : forall rest,
  Str.split_go sep (String.length p) (p +:+ rest) = Str.split_go sep 0 rest.
Proof.
  induction p as [|c p IH]; intros rest; [by destruct rest|].
  cbn [String.length String.append Str.split_go]. apply IH.
Qed.

(** [sep.join(s.split(sep)) == s]. *)
Lemma join_split_go a sep : forall s k pre rest,
  s = pre +:+ rest -> String.length pre = k ->
  Str.join (String a sep) (Str.split_go (String a sep) k s) = rest.
Proof.
  induction s as [|c s IH]; intros k pre rest Hs Hk.
  - destruct pre; [|done]. simpl in Hs. by subst.
  - cbn [Str.split_go]. destruct k as [|k].
    + destruct pre; [|done]. simpl in Hs. subst rest.
      destruct (Str.strip_prefix (String a sep) (String c s)) as [r|] eqn:Hp.
      * rewrite join_cons by apply split_go_nonempty.
        apply strip_prefix_spec in Hp.
        replace (String.length (String a sep) - 1) with (String.length sep)
          by (simpl; lia).
        simpl in Hp. injection Hp as <- ->.
        by rewrite (IH (String.length sep) sep r).
      * rewrite join_cons_head by apply split_go_nonempty.
        by rewrite (IH 0 "" s).
    + destruct pre as [|d pre]; [done|]. simpl in Hs, Hk.
      injection Hs as <- ->. injection Hk as Hk.
      by apply (IH k pre).
Qed.

Lemma join_split a sep s :
  Str.join (String a sep) (Str.split (String a sep) s) = s.
Proof. by apply (join_split_go a sep s 0 ""). Qed.

(** The first part of a split, when it holds no first character of the
    separator. *)
Lemma split_line a sep line rest :
  Str.mem a line = false ->
  Str.split (String a sep) (line +:+ String a sep +:+ rest)
  = line :: Str.split (String a sep) rest.
Proof.
  unfold Str.split. induction line as [|c line IH]; intros Hmem.
  - cbn [String.append Str.split_go Str.strip_prefix].
    rewrite Ascii.eqb_refl, strip_prefix_app.
    replace (String.length (String a sep) - 1) with (String.length sep)
      by (simpl; lia).
    by rewrite split_go_skip.
  - simpl in Hmem. destruct (Ascii.eqb_spec a c) as [|Hne]; [done|].
    change (String c line +:+ String a sep +:+ rest)
      with (String c (line +:+ String a sep +:+ rest)).
    cbn [Str.split_go Str.strip_prefix].
    destruct (Ascii.eqb_spec a c); [done|].
    by rewrite (IH Hmem).
Qed.

Lemma split_last a sep line :
  Str.mem a line = false ->
  Str.split (String a sep) line = [line].
Proof.
  unfold Str.split. induction line as [|c line IH]; intros Hmem; [done|].
  simpl in Hmem. destruct (Ascii.eqb_spec a c) as [|Hne]; [done|].
  cbn [Str.split_go Str.strip_prefix].
  destruct (Ascii.eqb_spec a c); [done|].
  by rewrite (IH Hmem).
Qed.

Lemma split_once_found sep a b :
  Str.mem sep a = false ->
  Str.split_once sep (a +:+ String sep b) = Some (a, b).
Proof.
  induction a as [|c a IH]; intros Hmem.
  - cbn [String.append Str.split_once]. by rewrite Ascii.eqb_refl.
  - simpl in Hmem. destruct (Ascii.eqb_spec sep c) as [|Hne]; [done|].
    change (String c a +:+ String sep b) with (String c (a +:+ String sep b)).
    cbn [Str.split_once]. destruct (Ascii.eqb_spec c sep); [by subst|].
    by rewrite (IH Hmem).
Qed.

Lemma split_once_none sep a :
  Str.mem sep a = false -> Str.split_once sep a = None.
Proof.
  induction a as [|c a IH]; intros Hmem; [done|].
  simpl in Hmem. destruct (Ascii.eqb_spec sep c) as [|Hne]; [done|].
  cbn [Str.split_once]. destruct (Ascii.eqb_spec c sep); [by subst|].
  by rewrite (IH Hmem).
Qed.

Lemma str_forallb_app p a b :
  Str.forallb p (a +:+ b) = Str.forallb p a && Str.forallb p b.
Proof. induction a as [|c a IH]; simpl; [done|]. by rewrite IH, andb_assoc. Qed.

Lemma str_forallb_weaken (p q : ascii -> bool) w :
  (forall c, p c = true -> q c = true) ->
  Str.forallb p w = true -> Str.forallb q w = true.
Proof.
  intros Hpq. induction w as [|c w IH]; simpl; [done|].
  intros [Hc Hw]%andb_true_iff. by rewrite (Hpq c Hc), (IH Hw).
Qed.

Lemma str_forallb_not_mem (p : ascii -> bool) x w :
  p x = false -> Str.forallb p w = true -> Str.mem x w = false.
Proof.
  intros Hx. induction w as [|c w IH]; simpl; [done|].
  intros [Hc Hw]%andb_true_iff.
  destruct (Ascii.eqb_spec x c) as [->|_]; [congruence|by apply IH].
Qed.

(** Placeholders in a text. *)

Lemma str_app_inv_tail (a b t : string) : a +:+ t = b +:+ t -> a = b.
Proof.
  revert b. induction a as [|c a IH]; intros b Heq.
  - destruct b as [|d b]; [done|]. apply (f_equal String.length) in Heq.
    simpl in Heq. rewrite str_length_app in Heq. lia.
  - destruct b as [|d b].
    + apply (f_equal String.length) in Heq.
      simpl in Heq. rewrite str_length_app in Heq. lia.
    + simpl in Heq. injection Heq as -> Heq. by rewrite (IH b Heq).
Qed.

(** The text up to the first [>]. *)
Lemma strip_prefix_closing y : forall x post,
  Str.mem ">" x = false -> Str.mem ">" y = false ->
  Str.strip_prefix (y +:+ ">") (x +:+ ">" +:+ post)
  = if String.eqb y x then Some post else None.
Proof.
  induction y as [|c y IH]; intros x post Hx Hy.
  - destruct x as [|d x]; [by cbn; rewrite ?Ascii.eqb_refl|].
    simpl in Hx. cbn [String.append Str.strip_prefix String.eqb].
    destruct (Ascii.eqb_spec ">" d); done.
  - simpl in Hy. destruct (Ascii.eqb_spec ">" c) as [|Hc]; [done|].
    destruct x as [|d x].
    + cbn [String.append Str.strip_prefix String.eqb].
      destruct (Ascii.eqb_spec c ">"); [by subst|done].
    + simpl in Hx. destruct (Ascii.eqb_spec ">" d) as [|Hd]; [done|].
      change (String c y +:+ ">") with (String c (y +:+ ">")).
      change (String d x +:+ ">" +:+ post) with (String d (x +:+ ">" +:+ post)).
      cbn [Str.strip_prefix String.eqb].
      destruct (Ascii.eqb c d); [by apply IH|done].
Qed.

Lemma contains_no_open q s :
  Str.mem "<" s = false -> Str.contains (String "<" q) s = false.
Proof.
  induction s as [|c s IH]; [done|]. simpl Str.mem.
  destruct (Ascii.eqb_spec "<" c) as [|Hc]; [done|]. intros Hs.
  cbn [Str.contains Str.strip_prefix].
  destruct (Ascii.eqb_spec "<" c); [done|]. by apply IH.
Qed.

Lemma replace_no_open q new s :
  Str.mem "<" s = false -> Str.replace_go (String "<" q) new 0 s = s.
Proof.
  induction s as [|c s IH]; [done|]. simpl Str.mem.
  destruct (Ascii.eqb_spec "<" c) as [|Hc]; [done|]. intros Hs.
  cbn [Str.replace_go Str.strip_prefix].
  destruct (Ascii.eqb_spec "<" c); [done|]. by rewrite (IH Hs).
Qed.

Lemma replace_go_skip old new p : forall rest,
  Str.replace_go old new (String.length p) (p +:+ rest)
  = Str.replace_go old new 0 rest.
Proof.
  induction p as [|c p IH]; intros rest; [by destruct rest|].
  cbn [String.length String.append Str.replace_go]. apply IH.
Qed.

Lemma contains_placeholder pre x post y :
  Str.mem "<" pre = false ->
  Str.mem "<" x = false -> Str.mem ">" x = false ->
  Str.mem "<" post = false ->
  Str.mem ">" y = false ->
  Str.contains ("<" +:+ y +:+ ">") (pre +:+ "<" +:+ x +:+ ">" +:+ post)
  = String.eqb y x.
Proof.
  intros Hpre Hx1 Hx2 Hpost Hy.
  assert (Hrest : Str.mem "<" (x +:+ ">" +:+ post) = false)
    by (rewrite !mem_app, Hx1, Hpost; reflexivity).
  clear Hx1 Hpost. induction pre as [|c p IH].
  - change ("" +:+ "<" +:+ x +:+ ">" +:+ post)
      with (String "<" (x +:+ ">" +:+ post)).
    change ("<" +:+ y +:+ ">") with (String "<" (y +:+ ">")).
    cbn [Str.contains Str.strip_prefix]. rewrite Ascii.eqb_refl.
    rewrite (strip_prefix_closing y x post Hx2 Hy).
    destruct (String.eqb y x); [done|].
    by apply contains_no_open.
  - simpl in Hpre. destruct (Ascii.eqb_spec "<" c) as [|Hc]; [done|].
    change (String c p +:+ "<" +:+ x +:+ ">" +:+ post)
      with (String c (p +:+ "<" +:+ x +:+ ">" +:+ post)).
    change ("<" +:+ y +:+ ">") with (String "<" (y +:+ ">")).
    cbn [Str.contains Str.strip_prefix].
    destruct (Ascii.eqb_spec "<" c); [done|]. by apply IH.
Qed.

Lemma replace_placeholder pre x post new :
  Str.mem "<" pre = false ->
  Str.mem ">" x = false ->
  Str.mem "<" post = false ->
  Str.replace ("<" +:+ x +:+ ">") new (pre +:+ "<" +:+ x +:+ ">" +:+ post)
  = pre +:+ new +:+ post.
Proof.
  intros Hpre Hx2 Hpost. unfold Str.replace. induction pre as [|c p IH].
  - change ("" +:+ "<" +:+ x +:+ ">" +:+ post)
      with (String "<" (x +:+ ">" +:+ post)).
    change ("<" +:+ x +:+ ">") with (String "<" (x +:+ ">")).
    cbn [Str.replace_go Str.strip_prefix]. rewrite Ascii.eqb_refl.
    rewrite (strip_prefix_closing x x post Hx2 Hx2), String.eqb_refl.
    replace (String.length (String "<" (x +:+ ">")) - 1)
      with (String.length (x +:+ ">")) by (simpl; lia).
    replace (x +:+ ">" +:+ post) with ((x +:+ ">") +:+ post)
      by (by rewrite str_app_assoc).
    rewrite replace_go_skip.
    rewrite (replace_no_open _ _ _ Hpost). reflexivity.
  - simpl in Hpre. destruct (Ascii.eqb_spec "<" c) as [|Hc]; [done|].
    change (String c p +:+ "<" +:+ x +:+ ">" +:+ post)
      with (String c (p +:+ "<" +:+ x +:+ ">" +:+ post)).
    change ("<" +:+ x +:+ ">") with (String "<" (x +:+ ">")) in *.
    cbn [Str.replace_go Str.strip_prefix].
    destruct (Ascii.eqb_spec "<" c); [done|]. by rewrite (IH Hpre).
Qed.

Lemma eqb_app_tail (a b t : string) :
  String.eqb (a +:+ t) (b +:+ t) = String.eqb a b.
Proof.
  destruct (String.eqb_spec a b) as [->|Hne]; [apply String.eqb_refl|].
  apply String.eqb_neq. intros Heq. by apply str_app_inv_tail in Heq.
Qed.



Lemma no_bracket_spec s :
  no_bracket s = true <-> Str.mem "<" s = false /\ Str.mem ">" s = false.
Proof.
  unfold no_bracket. rewrite andb_true_iff, !negb_true_iff. done.
Qed.

Lemma contains_spelling pre ty name post (p : string) :
  Str.mem "<" pre = false -> Str.mem "<" post = false ->
  no_bracket name = true -> no_bracket (default "" ty) = true ->
  no_bracket p = true ->
  Str.contains ("<" +:+ (p +:+ name) +:+ ">")
    (pre +:+ hole_text ty name +:+ post)
  = String.eqb p (match ty with Some t => t +:+ ":" | None => "" end).
Proof.
  intros Hpre Hpost [Hn1 Hn2]%no_bracket_spec [Ht1 Ht2]%no_bracket_spec
    [Hp1 Hp2]%no_bracket_spec.
  set (q := match ty with Some t => t +:+ ":" | None => "" end).
  assert (Hq : no_bracket q = true).
  { apply no_bracket_spec. subst q. destruct ty as [t|]; [|done].
    simpl in Ht1, Ht2. rewrite !mem_app, Ht1, Ht2. done. }
  apply no_bracket_spec in Hq as [Hq1 Hq2].
  replace (pre +:+ hole_text ty name +:+ post)
    with (pre +:+ "<" +:+ (q +:+ name) +:+ ">" +:+ post).
  2:{ subst q. destruct ty as [t|]; cbn [hole_text];
        by rewrite ?str_app_assoc. }
  rewrite contains_placeholder, ?eqb_app_tail; try done;
    rewrite mem_app; by rewrite ?Hq1, ?Hq2, ?Hp1, ?Hp2, ?Hn1, ?Hn2.
Qed.

Lemma replace_spelling pre ty name post new :
  Str.mem "<" pre = false -> Str.mem "<" post = false ->
  no_bracket name = true -> no_bracket (default "" ty) = true ->
  Str.replace (hole_text ty name) new (pre +:+ hole_text ty name +:+ post)
  = pre +:+ new +:+ post.
Proof.
  intros Hpre Hpost [Hn1 Hn2]%no_bracket_spec [Ht1 Ht2]%no_bracket_spec.
  set (q := match ty with Some t => t +:+ ":" | None => "" end).
  assert (Hq : Str.mem ">" (q +:+ name) = false).
  { subst q. destruct ty as [t|]; [|done].
    simpl in Ht2. by rewrite !mem_app, Ht2, Hn2. }
  replace (hole_text ty name) with ("<" +:+ (q +:+ name) +:+ ">").
  2:{ subst q. destruct ty as [t|]; cbn [hole_text];
        by rewrite ?str_app_assoc. }
  replace (pre +:+ ("<" +:+ (q +:+ name) +:+ ">") +:+ post)
    with (pre +:+ "<" +:+ (q +:+ name) +:+ ">" +:+ post)
    by (by rewrite !str_app_assoc).
  by apply replace_placeholder.
Qed.

(* ================================================================= *)
(** ** [str] and [int] of a number *)

Lemma string_of_uint_digits d :
  Str.forallb Str.is_digit (NilEmpty.string_of_uint d) = true.
Proof. induction d; cbn [NilEmpty.string_of_uint Str.forallb]; by rewrite ?IHd. Qed.

Lemma string_of_uint_length d :
  String.length (NilEmpty.string_of_uint d) = Decimal.nb_digits d.
Proof. induction d; cbn [NilEmpty.string_of_uint String.length Decimal.nb_digits]; by rewrite ?IHd. Qed.

Lemma to_uint_nonnil n : Nat.to_uint n <> Decimal.Nil.
Proof.
  rewrite <- (DecimalNat.Unsigned.of_to n) at 1. rewrite DecimalNat.Unsigned.to_of.
  unfold unorm. by destruct (nzhead (Nat.to_uint n)).
Qed.

Lemma of_nat_digits n :
  Str.of_nat n <> "" /\ Str.forallb Str.is_digit (Str.of_nat n) = true.
Proof.
  unfold Str.of_nat. split; [|apply string_of_uint_digits].
  pose proof (to_uint_nonnil n) as Hn. by destruct (Nat.to_uint n).
Qed.

(** The digits of a positive number, read after a first digit. *)
Lemma int_run_uint_acc d : forall (acc : positive) digits,
  Conv.int_run (NilEmpty.string_of_uint d) (Zpos acc) digits true
  = Some (Zpos (Pos.of_uint_acc d acc), digits + Decimal.nb_digits d, "").
Proof.
  induction d as [|d IH|d IH|d IH|d IH|d IH|d IH|d IH|d IH|d IH|d IH];
    intros acc digits;
    [cbn [NilEmpty.string_of_uint Conv.int_run orb Pos.of_uint_acc Decimal.nb_digits];
     by rewrite Nat.add_0_r|..];
    cbn [NilEmpty.string_of_uint Conv.int_run Pos.of_uint_acc Decimal.nb_digits];
    change (Str.is_digit _) with true; cbv iota;
    match goal with
    | |- Conv.int_run _ ?z _ true = Some (Zpos (Pos.of_uint_acc _ ?a), _, _) =>
        replace z with (Zpos a) by (vm_compute (Re.digit_value _); lia)
    end;
    rewrite IH; do 2 f_equal; f_equal; lia.
Qed.

Lemma int_run_uint d : forall digits after,
  d <> Decimal.Nil \/ after = true ->
  Conv.int_run (NilEmpty.string_of_uint d) 0 digits after
  = Some (Z.of_N (Pos.of_uint d), digits + Decimal.nb_digits d, "").
Proof.
  induction d as [|d IH|d IH|d IH|d IH|d IH|d IH|d IH|d IH|d IH|d IH];
    intros digits after Hne.
  { destruct Hne as [Hne| ->]; [done|].
    cbn [NilEmpty.string_of_uint Conv.int_run orb Pos.of_uint Decimal.nb_digits].
    by rewrite Nat.add_0_r. }
  { cbn [NilEmpty.string_of_uint Conv.int_run Pos.of_uint Decimal.nb_digits].
    change (Str.is_digit _) with true. cbv iota.
    change (10 * 0 + Z.of_nat (Re.digit_value "0"))%Z with 0%Z.
    rewrite IH by (by right). do 2 f_equal. f_equal. lia. }
  all: cbn [NilEmpty.string_of_uint Conv.int_run Pos.of_uint Decimal.nb_digits];
    change (Str.is_digit _) with true; cbv iota;
    match goal with
    | |- Conv.int_run _ ?z _ true = Some (Z.of_N (Npos (Pos.of_uint_acc _ ?a)), _, _) =>
        change z with (Zpos a)
    end;
    rewrite int_run_uint_acc; cbn [Z.of_N]; do 2 f_equal; f_equal; lia.
Qed.

Lemma pos_digits (p : positive) :
  exists c w, NilEmpty.string_of_uint (Pos.to_uint p) = String c w
              /\ Str.is_digit c = true.
Proof.
  pose proof (DecimalPos.Unsigned.to_uint_nonnil p) as Hn.
  pose proof (string_of_uint_digits (Pos.to_uint p)) as Hall.
  destruct (Pos.to_uint p); [done|..]; cbn [NilEmpty.string_of_uint] in *;
    eexists _, _; (split; [reflexivity|]); reflexivity.
Qed.

Lemma py_int_pos (p : positive) (negative : bool) :
  String.length (NilEmpty.string_of_uint (Pos.to_uint p)) <= Conv.max_str_digits ->
  Conv.py_int (Some ((if negative then "-" else "")
                     +:+ NilEmpty.string_of_uint (Pos.to_uint p)))
  = Ok (if negative then Zneg p else Zpos p).
Proof.
  intros Hlen. destruct (pos_digits p) as (c & w & Hs & Hc).
  destruct (digit_cases c Hc) as (Hsp & _ & Hsign).
  pose proof (int_run_uint (Pos.to_uint p) 0 false
                (or_introl (DecimalPos.Unsigned.to_uint_nonnil p))) as Hrun.
  rewrite DecimalPos.Unsigned.of_to in Hrun. cbn [Z.of_N Nat.add] in Hrun.
  rewrite <- string_of_uint_length in Hrun.
  revert Hlen Hrun. rewrite Hs. intros Hlen Hrun.
  unfold Conv.py_int. destruct negative.
  - change ("-" +:+ ?x) with (String "-" x). cbn [Conv.skip_space].
    change (Conv.int_space "-") with false. cbv iota zeta. rewrite Hrun.
    destruct (Nat.ltb_spec Conv.max_str_digits (String.length (String c w)));
      [lia|].
    reflexivity.
  - change ("" +:+ ?x) with x. cbn [Conv.skip_space].
    rewrite Hsp. cbv zeta. rewrite Hsign, Hrun.
    destruct (Nat.ltb_spec Conv.max_str_digits (String.length (String c w)));
      [lia|].
    reflexivity.
Qed.

(** [int(str(z)) == z], and [str(z)] returns, for an integer of at most
    4300 digits. *)
Lemma py_int_of_Z (z : Z) :
  String.length (Str.of_Z (Z.abs z)) <= Conv.max_str_digits ->
  Conv.py_int (Some (Str.of_Z z)) = Ok z.
Proof.
  destruct z as [|p|p]; cbn [Z.abs Str.of_Z]; intros Hlen.
  - reflexivity.
  - apply (py_int_pos p false Hlen).
  - apply (py_int_pos p true Hlen).
Qed.

Lemma int_str_ok (z : Z) :
  String.length (Str.of_Z (Z.abs z)) <= Conv.max_str_digits ->
  Conv.int_str z = Ok (Str.of_Z z).
Proof.
  intros Hlen. unfold Conv.int_str.
  by destruct (Nat.ltb_spec Conv.max_str_digits
                 (String.length (Str.of_Z (Z.abs z)))); [lia|].
Qed.

Lemma int_str_raises (z : Z) :
  Conv.max_str_digits < String.length (Str.of_Z (Z.abs z)) ->
  exists e, Conv.int_str z = Raise e /\ isinstance e "ValueError" = true.
Proof.
  intros Hlen. unfold Conv.int_str.
  destruct (Nat.ltb_spec Conv.max_str_digits
              (String.length (Str.of_Z (Z.abs z)))); [|lia].
  by eexists.
Qed.

Lemma of_Z_digits (z : Z) :
  (0 <= z)%Z ->
  Str.of_Z z <> "" /\ Str.forallb Str.is_digit (Str.of_Z z) = true.
Proof.
  destruct z as [|p|p]; [done| |lia]. intros _. cbn [Str.of_Z].
  destruct (pos_digits p) as (c & w & Hs & _).
  split; [by rewrite Hs|apply string_of_uint_digits].
Qed.

(* ================================================================= *)
(** ** The connection handler *)

Lemma build_one_header (status name value : string) (body : Bytes.bytes) :
  String.eqb (Str.lower name) "content-length" = false ->
  Server.build_http_response status [(name, value)] body
  = Bytes.encode ("HTTP/1.1 " +:+ status +:+ Str.CRLF
                  +:+ name +:+ ": " +:+ value +:+ Str.CRLF
                  +:+ "Content-Length: " +:+ Str.of_nat (length body) +:+ Str.CRLF
                  +:+ "Connection: close" +:+ Str.CRLF +:+ Str.CRLF)
    ++ body.
Proof.
  intros Hname. unfold Server.build_http_response.
  cbn [foldl existsb fst app]. rewrite Hname. cbn [orb negb app Str.join].
  by rewrite !str_app_assoc.
Qed.


Section ServerFacts.
Variable unquote : string -> string.
Variable application : environ -> res wsgi_result.

Lemma sock_send_shape sock data :
  let '(sock', _) := Server.sock_send sock data in
  Server.incoming sock' = Server.incoming sock
  /\ Server.peer_gone sock' = Server.peer_gone sock
  /\ Server.closed sock' = Server.closed sock
  /\ (Server.sent sock' = Server.sent sock
      \/ Server.sent sock' = Server.sent sock ++ [data]).
Proof.
  unfold Server.sock_send. destruct (Server.peer_gone sock) eqn:Hp; cbn; auto.
Qed.

(** Whatever the application does and whatever arrives, the connection
    handler leaves the socket closed, and it has sent at most one
    message. *)
Theorem handle_request_closes_socket sock client_host :
  let sock' := (Server.handle_request unquote application sock client_host).1 in
  Server.closed sock' = true
  /\ Server.incoming sock' = Server.incoming sock
  /\ (Server.sent sock' = Server.sent sock
      \/ exists response, Server.sent sock' = Server.sent sock ++ [response]).
Proof.
  unfold Server.handle_request.
  assert (Hbody : let '(s1, _) := Server.handle_request_body unquote application sock client_host in
            Server.incoming s1 = Server.incoming sock
            /\ Server.peer_gone s1 = Server.peer_gone sock
            /\ (Server.sent s1 = Server.sent sock
                \/ exists response, Server.sent s1 = Server.sent sock ++ [response]
                   /\ Server.handle_request_body unquote application sock client_host
                      = (s1, Ok tt))).
  { unfold Server.handle_request_body.
    destruct (Bytes.decode _) as [[|c data]|e|]; [auto|..|auto|auto].
    destruct (Server.parse_http_request _ _ _) as [env|e|]; [|auto..].
    destruct (Server.handle_wsgi_request _ _) as [data'|e|]; [|auto..].
    unfold Server.sock_send. destruct (Server.peer_gone sock) eqn:Hp; cbn; [auto|].
    split; [done|]. split; [done|]. right. by eexists. }
  destruct (Server.handle_request_body unquote application sock client_host) as [s1 out].
  destruct Hbody as (Hin & Hpg & Hsent).
  destruct out as [[]|e|].
  - cbn. split; [done|]. split; [done|].
    destruct Hsent as [->|(r & -> & _)]; [by left|right; by eexists].
  - destruct Hsent as [Hsent|(r & _ & [=])].
    destruct (isinstance e "Exception").
    + pose proof (sock_send_shape s1 (Server.create_error_response 500 (exn_msg e))) as Hs.
      destruct (Server.sock_send s1 _) as [s2 out2]. cbn.
      destruct Hs as (Hin2 & _ & _ & Hs2).
      split; [done|]. split; [congruence|].
      destruct Hs2 as [->| ->]; [by left|right; rewrite Hsent; by eexists].
    + cbn. split; [done|]. split; [done|]. by left.
  - cbn. split; [done|]. split; [done|].
    destruct Hsent as [->|(r & _ & [=])]. by left.
Qed.

Lemma read_headers_no_raise lines : forall headers e,
  Server.read_headers lines headers <> Raise e.
Proof.
  induction lines as [|l lines IH]; intros headers e; [done|].
  cbn [Server.read_headers]. destruct l as [|c l]; [done|].
  destruct (Str.split_once ":" (String c l)) as [[key value]|]; [|apply IH].
  destruct (Server.normalize_key key); [apply IH|done].
Qed.

Lemma parse_http_request_raises data host e :
  Server.parse_http_request unquote data host = Raise e ->
  isinstance e "Exception" = true.
Proof.
  unfold Server.parse_http_request.
  destruct (Str.split Str.CRLF data) as [|line rest]; [by intros [= <-]|].
  destruct (Str.split " " line) as [|a [|b [|c [|d l]]]]; try by intros [= <-].
  destruct (Str.split_once "?" b) as [[p q]|].
  - destruct (Server.read_headers rest ∅) as [[hs bl]|e'|] eqn:Hr; try done.
    by apply read_headers_no_raise in Hr.
  - destruct (Server.read_headers rest ∅) as [[hs bl]|e'|] eqn:Hr; try done.
    by apply read_headers_no_raise in Hr.
Qed.

Lemma create_error_response_head code message :
  exists tail,
    Server.create_error_response code message = Bytes.encode "HTTP/1.1 " ++ tail.
Proof.
  unfold Server.create_error_response. rewrite !encode_app.
  rewrite <- !app_assoc. by eexists.
Qed.

Lemma build_http_response_head status headers body :
  exists tail,
    Server.build_http_response status headers body
    = Bytes.encode "HTTP/1.1 " ++ tail.
Proof.
  unfold Server.build_http_response. rewrite header_lines_foldl.
  cbn [List.app].
  match goal with |- context [Str.join ?sep (?l ++ ["Connection: close"])] =>
    assert (Hl : exists rest, l ++ ["Connection: close"]
                              = ("HTTP/1.1 " +:+ status) :: rest)
  end.
  { destruct (negb _); cbn [List.app]; by eexists. }
  destruct Hl as (rest & ->).
  assert (Hj : exists t, Str.join Str.CRLF (("HTTP/1.1 " +:+ status) :: rest)
                         = "HTTP/1.1 " +:+ t).
  { destruct rest; cbn [Str.join]; rewrite ?str_app_assoc; by eexists. }
  destruct Hj as (t & ->). rewrite str_app_assoc, encode_app, <- app_assoc.
  by eexists.
Qed.

Lemma handle_wsgi_request_head env :
  application env <> Unmodelled ->
  (forall e, application env = Raise e -> isinstance e "Exception" = true) ->
  exists tail,
    Server.handle_wsgi_request application env
    = Ok (Bytes.encode "HTTP/1.1 " ++ tail).
Proof.
  intros Hmod Hexc. unfold Server.handle_wsgi_request.
  destruct (application env) as [[st cs]|e|]; [| |done].
  - cbn [mbind res_bind started chunks].
    destruct st as [[status headers]|]; cbn [try_except existsb isinstance].
    + destruct (build_http_response_head status headers
                  (concat (map Server.chunk_bytes cs))) as (tail & ->).
      by eexists.
    + cbn -[Server.create_error_response].
      match goal with
      | |- context [Server.create_error_response 500 ?m] =>
          destruct (create_error_response_head 500 m) as (tail & ->)
      end.
      by eexists.
  - cbn [mbind res_bind try_except existsb]. rewrite (Hexc e eq_refl).
    cbn -[Server.create_error_response].
    match goal with
    | |- context [Server.create_error_response 500 ?m] =>
        destruct (create_error_response_head 500 m) as (tail & ->)
    end.
    by eexists.
Qed.

(** Every request gets one answer.  When the bytes received decode to a
    text that is not empty, the client is still there, and the
    application, if the request reaches it, returns or raises an
    exception of a class derived from [Exception], the connection handler
    sends exactly one message, which starts with [HTTP/1.1 ], closes the
    socket and returns normally: the answer of the application, or an
    error response when the request line does not parse or the
    application raises. *)
Theorem every_request_is_answered sock client_host request_data :
  Bytes.decode (firstn 4096 (Server.incoming sock)) = Ok request_data ->
  request_data <> "" ->
  Server.peer_gone sock = false ->
  match Server.parse_http_request unquote request_data client_host with
  | Ok env =>
      match application env with
      | Ok _ => True
      | Raise e => isinstance e "Exception" = true
      | Unmodelled => False
      end
  | Raise _ => True
  | Unmodelled => False
  end ->
  exists tail,
    Server.handle_request unquote application sock client_host
    = (Server.Socket (Server.incoming sock) false
         (Server.sent sock ++ [Bytes.encode "HTTP/1.1 " ++ tail]) true,
       Ok tt).
Proof.
  intros Hdec Hne Hpeer Hrun.
  unfold Server.handle_request, Server.handle_request_body.
  rewrite Hdec. destruct request_data as [|c rd]; [done|].
  destruct (Server.parse_http_request unquote (String c rd) client_host)
    as [env|e|] eqn:Hp; [| |done].
  - assert (Hmod : application env <> Unmodelled)
      by (intros Hu; by rewrite Hu in Hrun).
    assert (Hexc : forall e, application env = Raise e ->
                             isinstance e "Exception" = true)
      by (intros e He; by rewrite He in Hrun).
    destruct (handle_wsgi_request_head env Hmod Hexc) as (tail & ->).
    unfold Server.sock_send. rewrite Hpeer. cbn. by eexists.
  - rewrite (parse_http_request_raises _ _ _ Hp).
    unfold Server.sock_send. rewrite Hpeer. cbn -[Server.create_error_response].
    match goal with
    | |- context [Server.create_error_response 500 ?m] =>
        destruct (create_error_response_head 500 m) as (tail & ->)
    end.
    by eexists.
Qed.

(** A request line that does not split into exactly three parts at its
    spaces is answered with [500 Internal Server Error] (never with
    [400 Bad Request]): unpacking it raises [ValueError], and the client
    gets the error response that quotes the message. *)
Theorem bad_request_line_gives_500 sock client_host request_data line rest :
  Bytes.decode (firstn 4096 (Server.incoming sock)) = Ok request_data ->
  request_data <> "" ->
  Server.peer_gone sock = false ->
  Str.split Str.CRLF request_data = line :: rest ->
  length (Str.split " " line) <> 3 ->
  exists e,
    isinstance e "ValueError" = true
    /\ Server.handle_request unquote application sock client_host
       = (Server.Socket (Server.incoming sock) false
            (Server.sent sock ++ [Server.create_error_response 500 (exn_msg e)])
            true,
          Ok tt).
Proof.
  intros Hdec Hne Hpeer Hlines Hparts.
  unfold Server.handle_request, Server.handle_request_body.
  rewrite Hdec. destruct request_data as [|c rd]; [done|].
  unfold Server.parse_http_request. rewrite Hlines.
  assert (Hsend : forall e,
            isinstance e "Exception" = true ->
            (let '(sock0, outcome) :=
               (if isinstance e "Exception"
                then Server.sock_send sock
                       (Server.create_error_response 500 (exn_msg e))
                else (sock, Raise e)) in
             (Server.sock_close sock0, outcome))
            = (Server.Socket (Server.incoming sock) false
                 (Server.sent sock ++ [Server.create_error_response 500 (exn_msg e)])
                 true,
               Ok tt)).
  { intros e ->. unfold Server.sock_send. rewrite Hpeer. reflexivity. }
  destruct (Str.split " " line) as [|a [|b [|c' [|d l]]]]; [| | |done|];
    (eexists; split; [|by apply Hsend]; reflexivity).
Qed.

(** A connection on which nothing arrives is closed without a word. *)
Theorem empty_request_gets_no_answer sock client_host :
  Server.incoming sock = [] ->
  Server.handle_request unquote application sock client_host
  = (Server.Socket [] (Server.peer_gone sock) (Server.sent sock) true, Ok tt).
Proof.
  intros Hin. unfold Server.handle_request, Server.handle_request_body.
  rewrite Hin. cbn. unfold Server.sock_close. by rewrite Hin.
Qed.

End ServerFacts.

(* ================================================================= *)
(** ** Reading a request *)

Section ParseFacts.
Variable unquote : string -> string.

Lemma split_header_block hs rest :
  Forall header_ok hs ->
  Str.split Str.CRLF (header_block hs +:+ rest)
  = map (fun '(name, _, value) => name +:+ ":" +:+ value) hs
    ++ Str.split Str.CRLF rest.
Proof.
  induction 1 as [|[[name key] value] hs (Hn & Hv & _ & _) _ IH]; [done|].
  cbn [header_block foldr map app].
  change (foldr _ "" hs) with (header_block hs).
  replace ((name +:+ ":" +:+ value +:+ Str.CRLF +:+ header_block hs) +:+ rest)
    with ((name +:+ ":" +:+ value) +:+ Str.CRLF +:+ (header_block hs +:+ rest))
    by (by rewrite !str_app_assoc).
  unfold Str.CRLF at 1 2. rewrite split_line.
  - change (String Str.CR (String Str.LF "")) with Str.CRLF. by rewrite IH.
  - rewrite !mem_app, Hn, Hv. reflexivity.
Qed.

Lemma read_headers_block hs rest : forall acc,
  Forall header_ok hs ->
  Server.read_headers
    (map (fun '(name, _, value) => name +:+ ":" +:+ value) hs ++ "" :: rest) acc
  = Ok (foldl (fun m '(_, key, value) => <[key := Str.strip value]> m) acc hs,
        rest).
Proof.
  intros acc Hok. revert acc.
  induction Hok as [|[[name key] value] hs (_ & _ & Hc & Hk) _ IH]; intros acc;
    [done|].
  cbn [map app foldl].
  assert (Hline : exists c l, name +:+ ":" +:+ value = String c l).
  { destruct name; cbn; by eexists _, _. }
  destruct Hline as (c & l & Hline).
  cbn [Server.read_headers]. rewrite Hline. cbn [Server.read_headers].
  rewrite <- Hline.
  change (name +:+ ":" +:+ value) with (name +:+ String ":" value).
  rewrite (split_once_found ":" name value Hc), Hk. apply IH.
Qed.

(** A well-formed request is read as sent.  For a request line of three
    parts without spaces, header lines [name:value], an empty line and a
    body, all lines ended by CRLF, the environment holds the method, the
    unquoted path up to the first question mark, the query after it (or
    the empty text), the body as a text stream whatever it holds, and
    the headers under their names in upper case with [-] turned to [_],
    values stripped, a later header of a name replacing an earlier one;
    [CONTENT_TYPE] and [CONTENT_LENGTH] are filed apart, empty when not
    sent. *)
Theorem parse_http_request_wellformed
    (meth path proto : string) (query : option string)
    (hs : list (string * string * string)) (body client_host : string) :
  Str.mem " " meth = false -> Str.mem Str.CR meth = false ->
  Str.mem " " path = false -> Str.mem Str.CR path = false ->
  Str.mem "?" path = false ->
  Str.mem " " (default "" query) = false ->
  Str.mem Str.CR (default "" query) = false ->
  Str.mem " " proto = false -> Str.mem Str.CR proto = false ->
  Forall header_ok hs ->
  let target := match query with
                | Some q => path +:+ "?" +:+ q
                | None => path
                end in
  let headers :=
    foldl (fun m '(_, key, value) => <[key := Str.strip value]> m) ∅ hs in
  Server.parse_http_request unquote
    (meth +:+ " " +:+ target +:+ " " +:+ proto +:+ Str.CRLF
     +:+ header_block hs +:+ Str.CRLF +:+ body)
    client_host
  = Ok (Environ (Some meth) (Some (unquote path)) (Some (default "" query))
          (Some (default "" (headers !! "CONTENT_TYPE")))
          (Some (default "" (headers !! "CONTENT_LENGTH")))
          (Some (InputStr body))
          (Some client_host)
          (delete "CONTENT_TYPE" (delete "CONTENT_LENGTH" headers))).
Proof.
  intros Hm1 Hm2 Hp1 Hp2 Hp3 Hq1 Hq2 Hr1 Hr2 Hhs target headers.
  assert (Ht1 : Str.mem " " target = false).
  { subst target. destruct query as [q|]; [|done].
    simpl in Hq1. rewrite !mem_app, Hp1, Hq1. reflexivity. }
  assert (Ht2 : Str.mem Str.CR target = false).
  { subst target. destruct query as [q|]; [|done].
    simpl in Hq2. rewrite !mem_app, Hp2, Hq2. reflexivity. }
  unfold Server.parse_http_request.
  replace (meth +:+ " " +:+ target +:+ " " +:+ proto +:+ Str.CRLF
           +:+ header_block hs +:+ Str.CRLF +:+ body)
    with ((meth +:+ " " +:+ target +:+ " " +:+ proto) +:+ Str.CRLF
          +:+ (header_block hs +:+ Str.CRLF +:+ body))
    by (by rewrite !str_app_assoc).
  unfold Str.CRLF at 1 2. rewrite split_line.
  2:{ rewrite !mem_app, Hm2, Ht2, Hr2. reflexivity. }
  change (String Str.CR (String Str.LF "")) with Str.CRLF.
  rewrite (split_header_block hs _ Hhs).
  assert (Hblank : Str.split Str.CRLF (Str.CRLF +:+ body)
                   = "" :: Str.split Str.CRLF body).
  { exact (split_line Str.CR (String Str.LF "") "" body eq_refl). }
  rewrite Hblank.
  change (meth +:+ " " +:+ target +:+ " " +:+ proto)
    with (meth +:+ String " " "" +:+ (target +:+ String " " "" +:+ proto)).
  rewrite (split_line " " "" meth _ Hm1), (split_line " " "" target _ Ht1),
    (split_last " " "" proto Hr1).
  assert (Hsplit : match Str.split_once "?" target with
                   | Some (p, q) => (p, q)
                   | None => (target, "")
                   end = (path, default "" query)).
  { subst target. destruct query as [q|].
    - change (path +:+ "?" +:+ q) with (path +:+ String "?" q).
      by rewrite (split_once_found "?" path q Hp3).
    - by rewrite (split_once_none "?" path Hp3). }
  rewrite Hsplit.
  rewrite (read_headers_block hs _ ∅ Hhs). cbn [mbind res_bind].
  by rewrite (join_split Str.CR (String Str.LF "") body : Str.join Str.CRLF (Str.split Str.CRLF body) = body).
Qed.

End ParseFacts.

(* ================================================================= *)
(** ** [Request] *)

Lemma foldl_insert_notin {A B : Type} (f : B -> A) (items : list (string * B)) :
  forall (m : gmap string A) k,
    k ∉ map fst items ->
    foldl (fun acc '(key, val) => <[key := f val]> acc) m items !! k = m !! k.
Proof.
  induction items as [|[key val] items IH]; intros m k Hk; [done|].
  cbn [foldl map fst] in *. apply not_elem_of_cons in Hk as [Hne Hk].
  rewrite (IH _ _ Hk). by rewrite lookup_insert_ne.
Qed.

Lemma foldl_insert_last {A B : Type} (f : B -> A) (pre post : list (string * B))
    (m : gmap string A) k v :
  k ∉ map fst post ->
  foldl (fun acc '(key, val) => <[key := f val]> acc) m (pre ++ (k, v) :: post) !! k
  = Some (f v).
Proof.
  intros Hk. rewrite foldl_app. cbn [foldl].
  rewrite (foldl_insert_notin f post _ k Hk). by rewrite lookup_insert_eq.
Qed.

(** [int] of a text raises nothing but [ValueError]. *)
Lemma py_int_raises s e :
  Conv.py_int (Some s) = Raise e ->
  isinstance e "ValueError" = true /\ isinstance e "Exception" = true.
Proof.
  unfold Conv.py_int. cbv zeta.
  destruct (match Conv.skip_space s with
            | String "-"%char b => _ | _ => _ end) as [neg body].
  destruct (Conv.int_run body 0 0 false) as [[[z digits] rest]|];
    [|by intros [= <-]].
  destruct (Nat.ltb _ _); [by intros [= <-]|].
  destruct (Nat.eqb _ _); [by intros [= <-]|].
  destruct (Conv.skip_space rest); [done|by intros [= <-]].
Qed.

Section RequestFacts.
Context {J : Type}.
Variable parse_qsl : string -> list (string * string).
Variable parse_qs : string -> list (string * list string).
Variable json_loads : string -> option J.

#[local] Abbreviation request_of := (Request_init parse_qsl parse_qs json_loads).
#[local] Abbreviation app_call := (live_rocket_call parse_qsl parse_qs json_loads).

(** A [Content-Length] that is not a number breaks the request: [int]
    raises [ValueError] while the request is built, before any routing,
    and the server answers [500] quoting the message, whatever the
    routes. *)
Theorem content_length_not_a_number self env cl e :
  CONTENT_LENGTH env = Some cl -> cl <> "" ->
  Conv.py_int (Some cl) = Raise e ->
  isinstance e "ValueError" = true
  /\ request_of env = Raise e
  /\ Server.handle_wsgi_request (app_call self) env
     = Ok (Server.create_error_response 500
             ("Internal Server Error: " +:+ exn_msg e)).
Proof.
  intros Hcl Hne Hint.
  destruct (py_int_raises _ _ Hint) as [Hv Hexc].
  assert (Hreq : request_of env = Raise e).
  { rewrite (request_init_body parse_qsl parse_qs json_loads env cl Hcl Hne).
    unfold read_body. by rewrite Hint. }
  split; [done|]. split; [done|].
  unfold Server.handle_wsgi_request, live_rocket_call. rewrite Hreq.
  cbn [mbind res_bind try_except existsb]. by rewrite Hexc.
Qed.

(** Without a [Content-Length], with an empty one, or with one that is
    zero or negative, nothing is read from the stream: the body is the
    empty dictionary and there is no raw body, whatever the content
    type. *)
Theorem no_body_without_positive_length env :
  CONTENT_LENGTH env = None \/ CONTENT_LENGTH env = Some ""
  \/ (exists cl n, CONTENT_LENGTH env = Some cl
                   /\ Conv.py_int (Some cl) = Ok n /\ (n <= 0)%Z) ->
  exists req, request_of env = Ok req
    /\ body req = BodyDict ∅ /\ body_raw req = None.
Proof.
  intros [Hcl|[Hcl|(cl & n & Hcl & Hint & Hn)]].
  - unfold Request_init. rewrite Hcl. cbn. by eexists.
  - unfold Request_init. rewrite Hcl. cbn. by eexists.
  - rewrite (request_init_body parse_qsl parse_qs json_loads env _ Hcl
               (py_int_nonempty _ _ Hint)).
    unfold read_body. rewrite Hint. cbn [mbind res_bind].
    destruct (Z.ltb_spec 0 n); [lia|]. cbn. by eexists.
Qed.

(** A [Content-Length] beyond [sys.maxsize] breaks the request whatever
    the content type: [read] raises [OverflowError], and the server
    answers [500]. *)
Lemma content_length_too_large self env cl n input :
  CONTENT_LENGTH env = Some cl ->
  Conv.py_int (Some cl) = Ok n -> (maxsize < n)%Z ->
  wsgi_input_of env = Some input ->
  request_of env
  = Raise (OverflowError "cannot fit 'int' into an index-sized integer")
  /\ Server.handle_wsgi_request (app_call self) env
     = Ok (Server.create_error_response 500
             "Internal Server Error: cannot fit 'int' into an index-sized integer").
Proof.
  intros Hcl Hint Hbig Hin.
  assert (Hreq : request_of env
                 = Raise (OverflowError
                            "cannot fit 'int' into an index-sized integer")).
  { rewrite (request_init_body parse_qsl parse_qs json_loads env _ Hcl
               (py_int_nonempty _ _ Hint)).
    unfold read_body. rewrite Hint. cbn [mbind res_bind].
    assert (0 < maxsize)%Z by done.
    destruct (Z.ltb_spec 0 n); [|lia]. rewrite Hin. unfold stream_read.
    destruct (Z.ltb_spec maxsize n); [|lia]. reflexivity. }
  split; [done|].
  unfold Server.handle_wsgi_request, live_rocket_call. rewrite Hreq.
  reflexivity.
Qed.

(** Under a content type that names neither forms nor JSON, the body
    read (at most [Content-Length] characters or bytes of the stream) is
    kept as it is in [body_raw], and [body] stays the empty dictionary;
    this holds for a text stream as for a binary one. *)
Theorem other_content_is_kept_raw env cl n input :
  CONTENT_LENGTH env = Some cl ->
  Conv.py_int (Some cl) = Ok n -> (0 < n)%Z -> (n <= maxsize)%Z ->
  wsgi_input_of env = Some input ->
  Str.contains "application/x-www-form-urlencoded"
    (default "" (CONTENT_TYPE env)) = false ->
  Str.contains "application/json" (default "" (CONTENT_TYPE env)) = false ->
  exists req, request_of env = Ok req
    /\ body req = BodyDict ∅
    /\ body_raw req = Some (input_read input (Z.to_nat n)).
Proof.
  intros Hcl Hint Hpos Hmax Hin Hform Hjson.
  rewrite (request_init_body parse_qsl parse_qs json_loads env _ Hcl
             (py_int_nonempty _ _ Hint)).
  rewrite (read_body_reads parse_qs json_loads env cl n _ Hint Hpos Hmax Hin).
  cbv zeta. rewrite Hform, Hjson. cbn. by eexists.
Qed.

(** With a text stream, as the socket server provides, every form or
    JSON body of positive length makes the construction of the request
    raise [AttributeError]: a [str] has no [decode]. *)
Theorem decoded_body_from_text_stream_raises env cl n text :
  CONTENT_LENGTH env = Some cl ->
  Conv.py_int (Some cl) = Ok n -> (0 < n)%Z -> (n <= maxsize)%Z ->
  wsgi_input_of env = Some (InputStr text) ->
  Str.contains "application/x-www-form-urlencoded"
    (default "" (CONTENT_TYPE env))
  || Str.contains "application/json" (default "" (CONTENT_TYPE env)) = true ->
  request_of env
  = Raise (AttributeError "'str' object has no attribute 'decode'").
Proof.
  intros Hcl Hint Hpos Hmax Hin Hct.
  rewrite (request_init_body parse_qsl parse_qs json_loads env _ Hcl
             (py_int_nonempty _ _ Hint)).
  rewrite (read_body_reads parse_qs json_loads env cl n _ Hint Hpos Hmax Hin).
  cbv zeta. cbn [input_read].
  destruct (Str.contains "application/x-www-form-urlencoded" _); [done|].
  simpl in Hct. rewrite Hct. reflexivity.
Qed.

(** A form body from a binary stream: a field sent once is its value, a
    field sent several times the list of its values, and a field not
    sent gives the default of [get_body_param]; nothing is kept raw.  The
    form content type is looked for first, so this holds also when the
    header names JSON as well. *)
Theorem form_body_fields env cl n b decoded pre post key vals :
  CONTENT_LENGTH env = Some cl ->
  Conv.py_int (Some cl) = Ok n -> (0 < n)%Z -> (n <= maxsize)%Z ->
  wsgi_input_of env = Some (InputBytes b) ->
  Str.contains "application/x-www-form-urlencoded"
    (default "" (CONTENT_TYPE env)) = true ->
  Bytes.decode (firstn (Z.to_nat n) b) = Ok decoded ->
  parse_qs decoded = pre ++ (key, vals) :: post ->
  key ∉ map fst post ->
  exists req, request_of env = Ok req
    /\ body_raw req = None
    /\ get_body_param req key None
       = Ok (Some (match vals with
                   | [v] => FormOne v
                   | _ => FormMany vals
                   end))
    /\ forall other default,
         other ∉ map fst (parse_qs decoded) ->
         get_body_param req other default = Ok default.
Proof.
  intros Hcl Hint Hpos Hmax Hin Hform Hdec Hitems Hkey.
  rewrite (request_init_body parse_qsl parse_qs json_loads env _ Hcl
             (py_int_nonempty _ _ Hint)).
  rewrite (read_body_reads parse_qs json_loads env cl n _ Hint Hpos Hmax Hin).
  cbv zeta. rewrite Hform. cbn [input_read data_decode]. rewrite Hdec.
  cbn [mbind res_bind]. eexists. split; [reflexivity|].
  split; [reflexivity|]. unfold get_body_param. cbn [body]. unfold form_fields.
  split.
  - rewrite Hitems.
    by rewrite (foldl_insert_last
                  (fun val => match val with [v] => FormOne v | _ => FormMany val end)).
  - intros other d Hother.
    by rewrite (foldl_insert_notin
                  (fun val => match val with [v] => FormOne v | _ => FormMany val end)).
Qed.

(** Of a query parameter given several times the last value is kept;
    [get_query_param] gives its default for a name that is absent, and
    for every name when the query string is empty. *)
Theorem query_param_last_wins env req qs :
  request_of env = Ok req ->
  QUERY_STRING env = Some qs ->
  (forall pre post key val default,
     qs <> "" ->
     parse_qsl qs = pre ++ (key, val) :: post ->
     key ∉ map fst post ->
     get_query_param req key default = Some val)
  /\ (forall key default,
        qs = "" \/ key ∉ map fst (parse_qsl qs) ->
        get_query_param req key default = default).
Proof.
  intros Hreq Hqs.
  assert (Hq : query_params req
               = match qs with
                 | "" => ∅
                 | _ => foldl (fun acc '(key, val) => <[key := val]> acc) ∅
                          (parse_qsl qs)
                 end).
  { unfold Request_init in Hreq. rewrite Hqs in Hreq.
    cbn [default from_option id] in Hreq.
    destruct (match default "" (CONTENT_LENGTH env) with
              | "" => _ | _ => _ end) as [[bd raw]|e|]; [|done..].
    cbn [mbind res_bind] in Hreq. by injection Hreq as <-. }
  unfold get_query_param. rewrite Hq. split.
  - intros pre post key val d Hne Hitems Hkey.
    destruct qs as [|c qs]; [done|]. rewrite Hitems.
    by rewrite (foldl_insert_last (fun v : string => v)).
  - intros key d [->|Hkey]; [done|].
    destruct qs as [|c qs]; [done|].
    by rewrite (foldl_insert_notin (fun v : string => v)).
Qed.

End RequestFacts.

(* ================================================================= *)
(** ** [Response] *)

Lemma set_first_content_type_none ct hs :
  set_first_content_type ct hs = None
  <-> forallb (fun h => negb (names_content_type h)) hs = true.
Proof.
  induction hs as [|[name value] hs IH]; [done|].
  unfold names_content_type in *. cbn [set_first_content_type forallb fst].
  destruct (String.eqb (Str.lower name) "content-type"); cbn [negb andb].
  - split; intros Hx; discriminate Hx.
  - rewrite <- IH.
    destruct (set_first_content_type ct hs); cbn; split; intros Hx;
      done || discriminate Hx.
Qed.

Lemma set_first_content_type_found ct pre name value post :
  forallb (fun h => negb (names_content_type h)) pre = true ->
  names_content_type (name, value) = true ->
  set_first_content_type ct (pre ++ (name, value) :: post)
  = Some (pre ++ ("Content-Type", ct) :: post).
Proof.
  intros Hpre Hname. induction pre as [|[n v] pre IH].
  - cbn [app set_first_content_type]. unfold names_content_type in Hname.
    cbn [fst] in Hname. by rewrite Hname.
  - cbn [forallb] in Hpre. apply andb_true_iff in Hpre as [Hn Hpre].
    cbn [app set_first_content_type]. unfold names_content_type in Hn.
    cbn [fst] in Hn. destruct (String.eqb (Str.lower n) "content-type"); [done|].
    by rewrite (IH Hpre).
Qed.

(** [__set_content_type] replaces the first header named Content-Type and
    leaves the others; without one it appends. *)
Theorem set_content_type_replaces_first self ct :
  (forall pre name value post,
     headers self = pre ++ (name, value) :: post ->
     forallb (fun h => negb (names_content_type h)) pre = true ->
     names_content_type (name, value) = true ->
     headers (Response_set_content_type self ct)
     = pre ++ ("Content-Type", ct) :: post)
  /\ (forallb (fun h => negb (names_content_type h)) (headers self) = true ->
      headers (Response_set_content_type self ct)
      = headers self ++ [("Content-Type", ct)])
  /\ status_code (Response_set_content_type self ct) = status_code self
  /\ text (Response_set_content_type self ct) = text self.
Proof.
  split; [|split; [|done]].
  - intros pre name value post Hh Hpre Hname.
    unfold Response_set_content_type. cbn [headers]. rewrite Hh.
    by rewrite set_first_content_type_found.
  - intros Hnone. unfold Response_set_content_type. cbn [headers].
    apply (set_first_content_type_none ct) in Hnone. by rewrite Hnone.
Qed.

Lemma set_first_content_type_again ct1 ct2 : forall hs updated,
  set_first_content_type ct1 hs = Some updated ->
  set_first_content_type ct2 updated = set_first_content_type ct2 hs.
Proof.
  induction hs as [|[name value] hs IH]; intros updated; [done|].
  cbn [set_first_content_type].
  destruct (String.eqb (Str.lower name) "content-type") eqn:Hn.
  - intros [= <-]. reflexivity.
  - destruct (set_first_content_type ct1 hs) as [up|] eqn:Hup; [|done].
    intros [= <-]. cbn [set_first_content_type]. rewrite Hn.
    by rewrite (IH up).
Qed.

(** Setting the content type twice is setting the last one. *)
Theorem set_content_type_twice self ct1 ct2 :
  Response_set_content_type (Response_set_content_type self ct1) ct2
  = Response_set_content_type self ct2.
Proof.
  unfold Response_set_content_type. cbn [status_code text headers]. f_equal.
  destruct (set_first_content_type ct1 (headers self)) as [up|] eqn:Hup.
  - rewrite (set_first_content_type_again ct1 ct2 _ _ Hup).
    destruct (set_first_content_type ct2 (headers self)) eqn:Hup2; [done|].
    apply set_first_content_type_none in Hup2.
    apply (set_first_content_type_none ct1) in Hup2. congruence.
  - pose proof Hup as Hnone.
    apply set_first_content_type_none in Hnone.
    rewrite (set_first_content_type_found ct2 (headers self) "Content-Type" ct1 []
               Hnone eq_refl).
    apply (set_first_content_type_none ct2) in Hnone. by rewrite Hnone.
Qed.

(** [redirect] to a string, or to a handler that has a route in the
    application of the response, ends in [302 Found], or
    [301 Moved Permanently ] with its trailing space, one [Location]
    header in place of all others and a text that names the target: the
    string given, or the path of the handler.  The status
    [500 Internal server error] it writes for a handler with a route is
    overwritten before it returns.  (A handler without a route, and a
    handler given to a response without application, are not covered.) *)
Theorem redirect_is_302_or_301 {H : Type} `{Countable H}
    (route_map : gmap H string) (app : option (gmap H string))
    (self : Response) (h : H) (location s : string) (peramanent : bool) :
  let moved (location : string) :=
    MkResponse (if peramanent then "301 Moved Permanently " else "302 Found")
               ("Redirecting to " +:+ location) [("Location", location)] in
  Response_redirect app self (ToText s) peramanent = Ok (moved s)
  /\ (route_map !! h = Some location ->
      Response_redirect (Some route_map) self (ToHandler h) peramanent
      = Ok (moved location)).
Proof.
  intros moved. split.
  - by destruct app.
  - intros Hloc. unfold Response_redirect. rewrite Hloc. by destruct location.
Qed.

Section ResponseFacts.
Context {J : Type}.
Variable parse_qsl : string -> list (string * string).
Variable parse_qs : string -> list (string * list string).
Variable json_loads : string -> option J.

#[local] Abbreviation app_call := (live_rocket_call parse_qsl parse_qs json_loads).
#[local] Abbreviation reaches := (reaches_handler parse_qsl parse_qs json_loads).

Lemma handle_wsgi_request_returned self env h request ps response :
  reaches self env h request ps ->
  h request (Response_init None None) ps = Ok response ->
  Server.handle_wsgi_request (app_call self) env
  = Ok (Server.build_http_response (status_code response)
          (match headers response with
           | [] => [("Content-Type", "text/plain")]
           | hs => hs
           end)
          (Bytes.encode (text response))).
Proof.
  intros Hreach Hh. unfold Server.handle_wsgi_request.
  rewrite (call_runs_handler _ _ _ _ _ _ _ _ Hreach), Hh.
  cbn [mbind res_bind as_wsgi started chunks map Server.chunk_bytes concat
       try_except].
  by rewrite app_nil_r.
Qed.

(** What the handler leaves in the response is what the client gets:
    the status line carries its [status_code], the headers are its
    headers in their order ([Content-Type: text/plain] when it has
    none), and the body is its text in UTF-8. *)
Theorem handler_response_reaches_client self env h request ps response :
  reaches self env h request ps ->
  h request (Response_init None None) ps = Ok response ->
  Server.handle_wsgi_request (app_call self) env
  = Ok (Server.build_http_response (status_code response)
          (match headers response with
           | [] => [("Content-Type", "text/plain")]
           | hs => hs
           end)
          (Bytes.encode (text response))).
Proof. apply handle_wsgi_request_returned. Qed.

(** [send] with an integer of more than 4300 digits as status: the text
    is stored, then the f-string raises [ValueError] and the status stays
    as it was. *)
Lemma send_status_too_long (response : Response) (body : string) (z : Z) :
  Conv.max_str_digits < String.length (Str.of_Z (Z.abs z)) ->
  exists e,
    Response_send response body (StatusInt z)
    = (MkResponse (status_code response) body (headers response), Raise e)
    /\ isinstance e "ValueError" = true.
Proof.
  intros Hlen. destruct (int_str_raises z Hlen) as (e & He & Hv).
  exists e. unfold Response_send, status_line. rewrite He. done.
Qed.

(** [response.send(text, status)] in a handler that returns after it,
    seen from the client: an integer status [z] (negative or not, of at
    most 4300 digits) goes out as [z OK], a boolean as [True OK] or
    [False OK], a string status as it is, with [Content-Type: text/plain]
    and the byte length of the text. *)
Theorem send_reaches_client self env h request ps body status :
  reaches self env h request ps ->
  match status with
  | StatusInt z => String.length (Str.of_Z (Z.abs z)) <= Conv.max_str_digits
  | _ => True
  end ->
  h request (Response_init None None) ps
  = Ok (Response_send (Response_init None None) body status).1 ->
  (Response_send (Response_init None None) body status).2 = Ok tt
  /\ Server.handle_wsgi_request (app_call self) env
     = Ok (Bytes.encode
             ("HTTP/1.1 "
              +:+ match status with
                  | StatusInt z => Str.of_Z z +:+ " OK"
                  | StatusBool b => (if b then "True" else "False") +:+ " OK"
                  | StatusStr s => s
                  end +:+ Str.CRLF
              +:+ "Content-Type: text/plain" +:+ Str.CRLF
              +:+ "Content-Length: " +:+ Str.of_nat (length (Bytes.encode body))
              +:+ Str.CRLF
              +:+ "Connection: close" +:+ Str.CRLF +:+ Str.CRLF)
           ++ Bytes.encode body).
Proof.
  intros Hreach Hfits Hh.
  assert (Hline : status_line status
                  = Ok match status with
                       | StatusInt z => Str.of_Z z +:+ " OK"
                       | StatusBool b => (if b then "True" else "False") +:+ " OK"
                       | StatusStr s => s
                       end).
  { destruct status as [z|b|s]; [|done..].
    unfold status_line. by rewrite (int_str_ok z Hfits). }
  unfold Response_send in *. rewrite Hline in *. cbn [fst snd] in *.
  split; [done|].
  rewrite (handle_wsgi_request_returned _ _ _ _ _ _ Hreach Hh).
  cbn [Response_init status_code headers text default from_option id].
  by rewrite build_one_header.
Qed.

End ResponseFacts.

(* ================================================================= *)
(** ** More on the route table *)

Section RouteTableFacts.
Context {H M : Type}.
Implicit Types (rm : RouteManager H M) (regs : list (registration H M)).


Lemma add_route_static_kept rm rm' pat method h mws path m :
  add_route rm pat method h mws = Ok rm' ->
  static_lookup rm path m <> None ->
  static_lookup rm' path m <> None.
Proof.
  intros Hadd Hsome.
  destruct (decide (pat = path /\ method = m)) as [[-> ->]|Hne].
  - unfold add_route in Hadd. destruct (is_dynamic path) eqn:Hdyn.
    + destruct (URLPattern_init path); simpl in Hadd; [|done..].
      by injection Hadd as <-.
    + destruct (add_route_static_eq rm path m h mws Hdyn) as (rm2 & Hadd2 & Hl & _).
      unfold add_route in Hadd2. rewrite Hdyn in Hadd2.
      rewrite Hadd in Hadd2. injection Hadd2 as <-. by rewrite Hl.
  - by rewrite (add_route_static_frame _ _ _ _ _ _ _ _ Hadd Hne).
Qed.

Lemma add_route_dynamic_static rm rm' pat method h mws path m :
  add_route rm pat method h mws = Ok rm' ->
  is_dynamic pat = true ->
  static_lookup rm' path m = static_lookup rm path m.
Proof.
  unfold add_route. intros Hadd Hdyn. rewrite Hdyn in Hadd.
  destruct (URLPattern_init pat); simpl in Hadd; [|done..].
  by injection Hadd as <-.
Qed.

Lemma register_all_static_kept regs : forall rm rm' path m,
  register_all regs rm = Ok rm' ->
  static_lookup rm path m <> None ->
  static_lookup rm' path m <> None.
Proof.
  induction regs as [|r regs IH]; intros rm rm' path m Hreg Hsome;
    simpl in Hreg.
  - by injection Hreg as <-.
  - destruct (add_route rm _ _ _ _) as [rm1| |] eqn:Hadd; simpl in Hreg; [|done..].
    eapply IH; [exact Hreg|]. eapply add_route_static_kept; eauto.
Qed.

Lemma register_all_static_none regs : forall rm rm' path m,
  register_all regs rm = Ok rm' ->
  static_lookup rm' path m = None
  <-> static_lookup rm path m = None
      /\ Forall (fun r => is_dynamic (reg_path r) = false ->
                          ~ (reg_path r = path /\ reg_method r = m)) regs.
Proof.
  induction regs as [|r regs IH]; intros rm rm' path m Hreg; simpl in Hreg.
  - injection Hreg as <-. split; [by split|by intros [? _]].
  - destruct (add_route rm _ _ _ _) as [rm1| |] eqn:Hadd; simpl in Hreg; [|done..].
    rewrite (IH _ _ path m Hreg), Forall_cons.
    destruct (is_dynamic (reg_path r)) eqn:Hdyn.
    + rewrite (add_route_dynamic_static _ _ _ _ _ _ path m Hadd Hdyn).
      intuition discriminate.
    + split.
      * intros [Hnone Hall].
        assert (Hne : ~ (reg_path r = path /\ reg_method r = reg_method r /\ reg_method r = m)).
        { intros (Hp & _ & Hm). subst.
          destruct (add_route_static_eq rm (reg_path r) (reg_method r)
                      (reg_handler r) (reg_middlewares r) Hdyn)
            as (rm2 & Hadd2 & Hl & _).
          rewrite Hadd in Hadd2. injection Hadd2 as <-. congruence. }
        assert (Hne' : ~ (reg_path r = path /\ reg_method r = m)) by tauto.
        rewrite <- (add_route_static_frame _ _ _ _ _ _ _ _ Hadd Hne').
        tauto.
      * intros (Hnone & Hr & Hall). specialize (Hr eq_refl).
        rewrite (add_route_static_frame _ _ _ _ _ _ _ _ Hadd Hr). tauto.
Qed.

Lemma find_dynamic_none (ds : list (dyn_route H M)) path m :
  find_dynamic ds path m = Ok (None, ∅, [])
  <-> Forall (fun d => dr_method d <> m
                       \/ URLPattern_match (dr_pattern d) path = Ok None) ds.
Proof.
  induction ds as [|d ds IH]; cbn [find_dynamic].
  - split; [constructor|done].
  - rewrite Forall_cons, <- IH.
    destruct (String.eqb_spec (dr_method d) m) as [Heq|Hne]; [|tauto].
    destruct (URLPattern_match (dr_pattern d) path) as [[ps|]|e|];
      cbn [mbind res_bind].
    + split; [done|]. intros [[|] _]; done.
    + tauto.
    + split; [done|]. intros [[|] _]; done.
    + split; [done|]. intros [[|] _]; done.
Qed.

Lemma compiled_passes (r : registration H M) d path m :
  compiled r d ->
  (dr_method d <> m \/ URLPattern_match (dr_pattern d) path = Ok None)
  <-> (reg_method r <> m \/ route_matches r path = Ok None).
Proof.
  intros (u & Hu & ->). cbn [dr_method dr_pattern].
  unfold route_matches. rewrite Hu. reflexivity.
Qed.

Lemma compiled_all_pass regs (ds : list (dyn_route H M)) path m :
  Forall2 compiled regs ds ->
  Forall (fun d => dr_method d <> m
                   \/ URLPattern_match (dr_pattern d) path = Ok None) ds
  <-> Forall (fun r => reg_method r <> m \/ route_matches r path = Ok None) regs.
Proof.
  induction 1 as [|r d regs ds Hc _ IH]; [by split; constructor|].
  by rewrite !Forall_cons, IH, (compiled_passes r d path m Hc).
Qed.

(** When no route is found.  After a start-up, [find_route] returns no
    handler (with no parameters and no middlewares) exactly when every
    registration passes over the request: an exact route was registered
    under another path or method, a pattern route under another method
    or with a matcher that refuses the path. *)
Theorem route_not_found regs rm path m :
  register_all regs RouteManager_init = Ok rm ->
  find_route rm path m = Ok (None, ∅, [])
  <-> Forall (passes_over path m) regs.
Proof.
  intros Hreg.
  destruct (register_all_dynamic _ _ _ Hreg) as (ds & Hds & Hdyn).
  cbn [dynamic_routes RouteManager_init app] in Hdyn.
  pose proof (register_all_static_none regs _ _ path m Hreg) as Hstatic.
  assert (Hsplit : Forall (passes_over path m) regs
                   <-> Forall (fun r => is_dynamic (reg_path r) = false ->
                                 ~ (reg_path r = path /\ reg_method r = m)) regs
                       /\ Forall (fun r => reg_method r <> m
                                           \/ route_matches r path = Ok None)
                                 (dynamic_regs regs)).
  { clear. unfold dynamic_regs, passes_over.
    induction regs as [|r regs IH];
      [split; [intros _; split; constructor|intros _; constructor]|].
    cbn [List.filter]. destruct (is_dynamic (reg_path r)) eqn:Hd.
    - rewrite !Forall_cons, IH, Hd. intuition (try discriminate).
    - rewrite !Forall_cons, IH, Hd. intuition. }
  rewrite Hsplit, <- (compiled_all_pass _ _ path m Hds), <- find_dynamic_none.
  rewrite <- Hdyn. split.
  - intros Hfind.
    destruct (static_lookup rm path m) as [info|] eqn:Hl.
    + rewrite (find_route_static_hit _ _ _ _ Hl) in Hfind. done.
    + rewrite (find_route_static_miss _ _ _ Hl) in Hfind.
      split; [|done]. by apply Hstatic.
  - intros [Hst Hfind].
    assert (Hl : static_lookup rm path m = None) by (apply Hstatic; by split).
    by rewrite (find_route_static_miss _ _ _ Hl).
Qed.

Lemma find_dynamic_shadowed (ds : list (dyn_route H M)) d d' path m :
  d ∈ ds ->
  dr_pattern d' = dr_pattern d -> dr_method d' = dr_method d ->
  find_dynamic (ds ++ [d']) path m = find_dynamic ds path m.
Proof.
  intros Hin Hp Hm. induction ds as [|x ds IH]; [by apply elem_of_nil in Hin|].
  cbn [app find_dynamic].
  destruct (String.eqb_spec (dr_method x) m) as [Hx|Hx].
  - destruct (URLPattern_match (dr_pattern x) path) as [[ps|]|e|] eqn:Hmatch;
      cbn [mbind res_bind]; try done.
    apply elem_of_cons in Hin as [->|Hin]; [|by apply IH].
    clear IH. induction ds as [|y ds IH2].
    + cbn [app find_dynamic]. rewrite Hm, Hp.
      destruct (String.eqb_spec (dr_method x) m); [|done].
      by rewrite Hmatch.
    + cbn [app find_dynamic]. destruct (String.eqb (dr_method y) m); [|done].
      destruct (URLPattern_match (dr_pattern y) path) as [[ps|]|e|];
        cbn [mbind res_bind]; done.
  - apply elem_of_cons in Hin as [->|Hin]; [|by apply IH].
    clear IH. induction ds as [|y ds IH2].
    + cbn [app find_dynamic]. rewrite Hm.
      by destruct (String.eqb_spec (dr_method x) m).
    + cbn [app find_dynamic]. destruct (String.eqb (dr_method y) m); [|done].
      destruct (URLPattern_match (dr_pattern y) path) as [[ps|]|e|];
        cbn [mbind res_bind]; done.
Qed.

(** A pattern route registered again under the same method is never
    reached: for pattern routes the first registration wins (for exact
    routes the last one does), so the table answers every request as it
    did before the second registration, whatever its handler and
    middlewares. *)
Theorem repeated_pattern_is_never_reached regs rm rm' (r r' : registration H M) :
  register_all regs RouteManager_init = Ok rm ->
  r ∈ regs ->
  is_dynamic (reg_path r) = true ->
  reg_path r' = reg_path r -> reg_method r' = reg_method r ->
  register_all (regs ++ [r']) RouteManager_init = Ok rm' ->
  forall path m, find_route rm' path m = find_route rm path m.
Proof.
  intros Hreg Hin Hdyn Hp Hm Hreg' path m.
  rewrite register_all_app, Hreg in Hreg'. cbn [mbind res_bind register_all] in Hreg'.
  unfold add_route in Hreg'. rewrite Hp, Hdyn in Hreg'.
  destruct (URLPattern_init (reg_path r)) as [u| |] eqn:Hu;
    cbn [mbind res_bind] in Hreg'; [|done..].
  injection Hreg' as <-.
  destruct (register_all_dynamic _ _ _ Hreg) as (ds & Hds & Heq).
  cbn [dynamic_routes RouteManager_init app] in Heq.
  assert (Hd : exists d, d ∈ ds /\ dr_pattern d = u /\ dr_method d = reg_method r).
  { assert (Hin' : r ∈ dynamic_regs regs).
    { unfold dynamic_regs. apply list_elem_of_In, filter_In.
      split; [by apply list_elem_of_In|done]. }
    clear - Hds Hin' Hu.
    induction Hds as [|x d regs' ds Hc _ IH]; [by apply elem_of_nil in Hin'|].
    apply elem_of_cons in Hin' as [->|Hin'].
    - destruct Hc as (u' & Hu' & ->). exists (DynRoute u' (reg_path x) (reg_method x)
                                                (reg_handler x) (or_empty (reg_middlewares x))).
      split; [by left|]. split; [|done]. cbn. congruence.
    - destruct (IH Hin') as (d0 & Hd0 & Hrest). exists d0. split; [by right|done]. }
  destruct Hd as (d & Hdin & Hdp & Hdm).
  unfold find_route. cbn [static_routes dynamic_routes].
  rewrite Heq in *.
  rewrite (find_dynamic_shadowed ds d _ path m Hdin); [done|cbn; congruence..].
Qed.

End RouteTableFacts.

(* ================================================================= *)
(** ** More on URL patterns *)

Lemma URLPattern_init_shape pat u :
  URLPattern_init pat = Ok u ->
  exists body, regex_pattern u = Some ("^" +:+ body +:+ "$") /\ pattern u = pat.
Proof.
  unfold URLPattern_init, _compile_pattern. cbn [pattern parameter_names].
  destruct (re_finditer parameter_regex pat) as [ms| |]; [|done..].
  cbn [mbind res_bind].
  destruct (compile_loop ms ([], pat)) as [[names regex]| |]; [|done..].
  cbn [mbind res_bind]. intros [= <-]. by eexists.
Qed.

Lemma URLPattern_match_compiled pat u url :
  URLPattern_init pat = Ok u ->
  exists rx, regex_pattern u = Some rx
    /\ URLPattern_match u url
       = (m ← re_match rx url;
          match m with
          | None => Ok None
          | Some mo => convert_params mo 0 (parameter_names u) ∅
          end).
Proof.
  intros Hinit. destruct (URLPattern_init_shape _ _ Hinit) as (body & Hrx & _).
  eexists. split; [exact Hrx|]. unfold URLPattern_match. by rewrite Hrx.
Qed.

Lemma convert_params_dom m names : forall i acc ps,
  convert_params m i names acc = Ok (Some ps) ->
  dom ps = dom acc ∪ list_to_set (map fst names).
Proof.
  induction names as [|[name ty] names IH]; intros i acc ps Hrun.
  - cbn [convert_params] in Hrun. injection Hrun as <-.
    cbn [map list_to_set]. by rewrite (right_id_L ∅ (∪)).
  - cbn [convert_params] in Hrun.
    destruct (group m (i + 1)) as [raw| |]; cbn [mbind res_bind] in Hrun; [|done..].
    match type of Hrun with
    | context [try_except ?b ?c ?h] => destruct (try_except b c h) as [[v|]| |]
    end; cbn [mbind res_bind] in Hrun; [|done..].
    rewrite (IH _ _ _ Hrun), dom_insert_L. cbn [map fst list_to_set].
    by rewrite (comm_L (∪) {[name]}), <- (assoc_L (∪)).
Qed.

(** A successful match binds the declared names and nothing else: the
    keys of the dictionary [match] returns are the parameter names of
    the pattern (a name declared twice once). *)
Theorem match_binds_the_declared_names pat u url ps :
  URLPattern_init pat = Ok u ->
  URLPattern_match u url = Ok (Some ps) ->
  dom ps = list_to_set (map fst (parameter_names u)).
Proof.
  intros Hinit Hmatch.
  destruct (URLPattern_match_compiled pat u url Hinit) as (rx & _ & Hrun).
  rewrite Hrun in Hmatch.
  destruct (re_match rx url) as [[mo|]| |]; cbn [mbind res_bind] in Hmatch;
    [|done..].
  rewrite (convert_params_dom _ _ _ _ _ Hmatch), dom_empty_L.
  by rewrite (left_id_L ∅ (∪)).
Qed.

Lemma spans_simple r :
  simple r = true ->
  forall st st', spans r st st' ->
    exists w, st.1.2 = w +:+ st'.1.2
              /\ Str.forallb (char_ok r) w = true
              /\ min_len r <= String.length w.
Proof.
  induction r as [|c| | |neg items| | |r1 IH1 r2 IH2|i r1 IH1|mn mx r1 IH1];
    intros Hs st st' Hspan; try discriminate Hs.
  - cbn [spans] in Hspan. subst. by exists "".
  - destruct Hspan as (x & Hx & Hacc & _). exists (String x "").
    cbn [Str.forallb char_ok String.length min_len]. by rewrite Hacc.
  - destruct Hspan as (x & Hx & Hacc & _). exists (String x "").
    cbn [Str.forallb char_ok String.length min_len]. by rewrite Hacc.
  - destruct Hspan as (x & Hx & Hacc & _). exists (String x "").
    cbn [Str.forallb char_ok String.length min_len]. by rewrite Hacc.
  - destruct Hspan as (x & Hx & Hacc & _). exists (String x "").
    cbn [Str.forallb char_ok String.length min_len]. by rewrite Hacc.
  - cbn [simple] in Hs. apply andb_true_iff in Hs as [Hs1 Hs2].
    cbn [spans] in Hspan. destruct Hspan as (mid & H1 & H2).
    destruct (IH1 Hs1 _ _ H1) as (w1 & Hw1 & Hall1 & Hlen1).
    destruct (IH2 Hs2 _ _ H2) as (w2 & Hw2 & Hall2 & Hlen2).
    exists (w1 +:+ w2). rewrite Hw1, Hw2, str_app_assoc. split; [done|].
    rewrite str_forallb_app, str_length_app. cbn [char_ok min_len]. split; [|lia].
    apply andb_true_iff. split.
    + apply (str_forallb_weaken (char_ok r1)); [|exact Hall1]. by intros c ->.
    + apply (str_forallb_weaken (char_ok r2)); [|exact Hall2].
      intros c ->. by rewrite orb_true_r.
  - cbn [simple] in Hs. cbn [spans] in Hspan.
    destruct (reps_run r1 mn mx Hs 0 _ _ Hspan) as (w & Hw & Hall & Hlen).
    exists w. cbn [char_ok min_len]. split; [done|]. split; [done|lia].
Qed.

Lemma type_body_simple ty :
  simple (type_body ty) = true /\ 1 <= min_len (type_body ty)
  /\ (if String.eqb "path" ty then char_ok (type_body ty) Str.LF = false
      else char_ok (type_body ty) "/" = false).
Proof.
  unfold type_body.
  destruct (String.eqb_spec "string" ty) as [<-|_];
    [cbn; repeat split; reflexivity || lia|].
  destruct (String.eqb_spec "int" ty) as [<-|_];
    [cbn; repeat split; reflexivity || lia|].
  destruct (String.eqb_spec "float" ty) as [<-|_];
    [cbn; repeat split; reflexivity || lia|].
  destruct (String.eqb_spec "path" ty) as [<-|_];
    [cbn; repeat split; reflexivity || lia|].
  destruct (String.eqb_spec "uuid" ty) as [<-|_];
    cbn; repeat split; reflexivity || lia.
Qed.

Lemma spans_type_body ty st st' :
  spans (type_body ty) st st' ->
  exists w, st.1.2 = w +:+ st'.1.2 /\ fits_type ty w.
Proof.
  intros Hspan. destruct (type_body_simple ty) as (Hs & Hmin & Hbad).
  destruct (spans_simple _ Hs _ _ Hspan) as (w & Hw & Hall & Hlen).
  exists w. split; [done|]. split.
  - intros ->. simpl in Hlen. lia.
  - destruct (String.eqb "path" ty); by apply (str_forallb_not_mem _ _ _ Hbad).
Qed.

Lemma spans_items_fit segs : forall n st st',
  spans (seq_of (items segs n ++ [REol])) st st' ->
  groups_fit segs n st'.2.
Proof.
  induction segs as [|[c|ty name] segs IH]; intros n st st' Hspan;
    cbn [items app seq_of foldr spans] in Hspan.
  - intros i nm t Hi. done.
  - destruct Hspan as (mid & _ & Hrest). exact (IH _ _ _ Hrest).
  - destruct Hspan as (mid & (caps1 & Hbody & Hcaps) & Hrest).
    intros [|i] nm t Hi; cbn [holes lookup list_lookup] in Hi.
    + injection Hi as <- <-. rewrite Nat.add_0_r.
      rewrite (spans_frame (seq_of (items segs (S n) ++ [REol])) (S n)
                 (fun Hin => Nat.lt_irrefl _ (items_group_ids _ _ _ Hin))
                 mid st' Hrest).
      rewrite Hcaps, lookup_insert_eq.
      apply spans_type_body in Hbody as (w & Hw & Hfit). cbn [fst snd] in Hw.
      exists w. rewrite Hw, consumed_app. done.
    + destruct (IH _ _ _ Hrest i nm t Hi) as (w & Hw & Hok).
      exists w. split; [|done]. rewrite <- Hw. f_equal. lia.
Qed.

Lemma match_compiled_fit segs url m :
  match_at (compiled_ast segs) (length (holes segs)) 0 url = Some m ->
  m_ngroups m = length (holes segs) /\ groups_fit segs 0 (m_groups m).
Proof.
  unfold match_at. intros Hm.
  apply rmatch_sound in Hm as (pos' & s' & caps' & Hspan & Hm).
  injection Hm as <-. split; [done|]. cbn [m_groups].
  unfold compiled_ast in Hspan. cbn [seq_of foldr spans] in Hspan.
  destruct Hspan as (mid & _ & Hrest).
  exact (spans_items_fit _ _ _ _ Hrest).
Qed.

Lemma convert_params_fit (all : list (string * string)) m names :
  forall i acc ps,
    (forall k name ty, names !! k = Some (name, ty) ->
       (name, ty) ∈ all
       /\ exists w, m_groups m !! (S (i + k)) = Some w /\ fits_type ty w) ->
    i + length names <= m_ngroups m ->
    (forall name v, acc !! name = Some v -> value_fits all name v) ->
    convert_params m i names acc = Ok (Some ps) ->
    forall name v, ps !! name = Some v -> value_fits all name v.
Proof.
  induction names as [|[name ty] names IH]; intros i acc ps Hcaps Hlen Hacc Hrun.
  - cbn [convert_params] in Hrun. by injection Hrun as <-.
  - cbn [convert_params] in Hrun. cbn [length] in Hlen.
    unfold group in Hrun.
    replace (Nat.eqb (i + 1) 0) with false in Hrun
      by (symmetry; apply Nat.eqb_neq; lia).
    replace (Nat.leb (i + 1) (m_ngroups m)) with true in Hrun
      by (symmetry; apply Nat.leb_le; lia).
    cbn [mbind res_bind] in Hrun.
    destruct (Hcaps 0 name ty eq_refl) as (Hin & w & Hw & Hne & Hfit).
    rewrite Nat.add_0_r in Hw. replace (i + 1) with (S i) in Hrun by lia.
    rewrite Hw in Hrun.
    assert (Hnext : forall v, value_fits all name v ->
              convert_params m (S i) names (<[name := v]> acc) = Ok (Some ps) ->
              forall nm v', ps !! nm = Some v' -> value_fits all nm v').
    { intros v Hv Hrest. eapply (IH (S i)); [| | |exact Hrest].
      - intros k nm t Hk. specialize (Hcaps (S k) nm t Hk).
        replace (S (i + S k)) with (S (S i + k)) in Hcaps by lia. exact Hcaps.
      - lia.
      - intros nm v'. destruct (decide (name = nm)) as [<-|Hneq].
        + rewrite lookup_insert_eq. by intros [= <-].
        + rewrite lookup_insert_ne by done. apply Hacc. }
    destruct (String.eqb_spec ty "int") as [->|Hint].
    + destruct (Conv.py_int (Some w)) as [z|e|];
        cbn [mbind res_bind try_except] in Hrun.
      * by apply (Hnext (PInt z)).
      * destruct (existsb (isinstance e) _); by cbn [mbind res_bind] in Hrun.
      * done.
    + destruct (String.eqb_spec ty "float") as [->|Hfloat].
      * unfold Conv.py_float in Hrun. destruct (Conv.plain_decimal w);
          cbn [mbind res_bind try_except] in Hrun; [|done].
        by apply (Hnext (PFloat w)).
      * cbn [mbind res_bind try_except] in Hrun.
        apply (Hnext (PStr w)); [|exact Hrun].
        split; [done|].
        destruct (String.eqb_spec "path" ty) as [<-|_]; [right|left]; done.
Qed.

(** Parameters are path segments.  For a template whose text outside
    the placeholders has no metacharacter of [re], a text bound by a match
    is never empty and holds a slash only under a placeholder typed
    [path] (which in turn holds no newline); and no parameter is bound to
    [None]. *)
Theorem string_parameters_are_segments (segs : list segment) (u : URLPattern)
    (url : string) (ps : params) :
  template_ok plain segs = true ->
  URLPattern_init (render segs) = Ok u ->
  URLPattern_match u url = Ok (Some ps) ->
  forall name v, ps !! name = Some v ->
    match v with
    | PStr s =>
        s <> ""
        /\ (Str.mem "/" s = false
            \/ ((name, "path") ∈ parameter_names u /\ Str.mem Str.LF s = false))
    | PNone => False
    | _ => True
    end.
Proof.
  intros Hok Hinit Hmatch.
  rewrite (URLPattern_init_render any_char) in Hinit
    by (by apply (template_ok_weaken plain)).
  injection Hinit as <-.
  unfold URLPattern_match in Hmatch. cbn [regex_pattern parameter_names] in *.
  change ("^" +:+ regex_src segs +:+ "$")
    with (String "^" (regex_src segs +:+ "$")) in *.
  cbv iota in Hmatch.
  change (String "^" (regex_src segs +:+ "$"))
    with ("^" +:+ regex_src segs +:+ "$") in *.
  unfold re_match in *. rewrite (parse_compiled segs Hok) in *.
  cbn [mbind res_bind] in Hmatch.
  revert Hmatch.
  destruct (match_at (compiled_ast segs) (length (holes segs)) 0 url)
    as [m|] eqn:Hm; [|done].
  intros Hmatch.
  destruct (match_compiled_fit _ _ _ Hm) as [Hn Hcaps].
  apply (convert_params_fit (holes segs) m (holes segs) 0 ∅ ps); [|lia| |exact Hmatch].
  - intros k name ty Hk. split; [by apply (list_elem_of_lookup_2 _ k)|].
    exact (Hcaps k name ty Hk).
  - intros name v. by rewrite lookup_empty.
Qed.

Lemma rmatch_lits_then {A} s segs : forall n pos url caps (k : cont (A:=A)),
  rmatch (seq_of (items (lits s ++ segs) n ++ [REol])) pos url caps k
  = match Str.strip_prefix s url with
    | Some rest =>
        rmatch (seq_of (items segs n ++ [REol])) (pos + String.length s) rest caps k
    | None => None
    end.
Proof.
  induction s as [|c s IH]; intros n pos url caps k.
  - cbn [lits app Str.strip_prefix String.length]. by rewrite Nat.add_0_r.
  - cbn [lits items app seq_of foldr rmatch Str.strip_prefix String.length].
    unfold one_char. destruct url as [|d url]; [done|]. cbn [accepts].
    destruct (Ascii.eqb c d); [|done].
    change (foldr RSeq REmpty (items (lits s ++ segs) n ++ [REol]))
      with (seq_of (items (lits s ++ segs) n ++ [REol])).
    rewrite IH. destruct (Str.strip_prefix s url); [|done].
    f_equal. lia.
Qed.

(** A run of digits under a final [int] placeholder. *)
Lemma rmatch_int_end {A} name n pos w caps (k : cont (A:=A)) :
  w <> "" -> Str.forallb Str.is_digit w = true ->
  rmatch (seq_of (items [Hole (Some "int") name] n ++ [REol])) pos w caps k
  = k (pos + String.length w) "" (<[S n := w]> caps).
Proof.
  intros Hne Hall.
  change (seq_of (items [Hole (Some "int") name] n ++ [REol]))
    with (RSeq (RGroup (S n) (RSeq (RRepeat 1 None RDigit) REmpty))
               (RSeq REol REmpty)).
  change (rmatch _ pos w caps k)
    with (repeat_loop (rmatch RDigit) 1 None
            (fun pos' s' caps' =>
               if at_eol s' then k pos' s' (<[S n := Str.consumed w s']> caps')
               else None)
            (S (String.length w)) 0 pos w caps).
  pose proof (repeat_loop_greedy 1
                (fun pos' s' caps' =>
                   if at_eol s' then k pos' s' (<[S n := Str.consumed w s']> caps')
                   else None)
                RDigit w eq_refl (S (String.length w)) 0 pos caps "") as Hloop.
  rewrite str_app_nil_r in Hloop.
  rewrite Hloop; [|simpl; lia|done|done]. clear Hloop.
  rewrite greedy_only_full.
  - destruct w as [|c w]; [done|].
    replace (Nat.leb 1 (0 + String.length (String c w))) with true by done.
    cbn [at_eol]. rewrite <- (str_app_nil_r (String c w)) at 2.
    by rewrite consumed_app.
  - intros w1 c w2 ->. rewrite str_app_nil_r.
    assert (Hc : Str.is_digit c = true).
    { rewrite str_forallb_app in Hall. apply andb_true_iff in Hall as [_ Hall].
      simpl in Hall. by apply andb_true_iff in Hall as [Hc _]. }
    destruct w2 as [|d w2]; cbn [at_eol]; [|done].
    destruct (Ascii.eqb_spec c Str.LF) as [->|]; done.
Qed.

Lemma render_app a b : render (a ++ b) = render a +:+ render b.
Proof.
  induction a as [|x a IH]; [done|]. cbn [app render].
  by rewrite IH, str_app_assoc.
Qed.

Lemma int_hole_ok name :
  name <> "" -> Str.mem ">" name = false ->
  hole_ok (Some "int") name = true.
Proof.
  intros Hne Hmem. unfold hole_ok.
  destruct name as [|c name]; [done|]. cbn [nonempty andb].
  change (Str.forallb (accepts type_set) "int") with true. cbn [andb].
  clear Hne. revert Hmem. generalize (String c name) as s. clear.
  induction s as [|c s IH]; [done|]. simpl.
  destruct (Ascii.eqb_spec ">" c) as [|Hne]; [done|]. intros Hmem.
  rewrite (IH Hmem), andb_true_r.
  unfold name_set, accepts, in_items, existsb, Str.in_range.
  destruct c as [[] [] [] [] [] [] [] []]; try reflexivity. done.
Qed.

Section IntRoute.
Variables (pre name : string).
Hypothesis Hplain : Str.forallb plain pre = true.
Hypothesis Hfree : Str.mem "<" pre = false.
Hypothesis Hname : name <> "".
Hypothesis Hclose : Str.mem ">" name = false.

Let segs : list segment := lits pre ++ [Hole (Some "int") name].

Lemma int_route_ok : template_ok plain segs = true.
Proof.
  unfold segs. rewrite template_ok_app, (template_ok_lits pre Hplain Hfree).
  cbn [template_ok forallb segment_ok andb]. by rewrite int_hole_ok.
Qed.

Lemma int_route_render : render segs = pre +:+ "<int:" +:+ name +:+ ">".
Proof.
  unfold segs. rewrite render_app, render_lits.
  cbn [render render_segment hole_text]. by rewrite str_app_nil_r.
Qed.

Lemma int_route_holes : holes segs = [(name, "int")].
Proof. unfold segs. by rewrite holes_app, holes_lits. Qed.

Lemma int_route_init :
  URLPattern_init (pre +:+ "<int:" +:+ name +:+ ">")
  = Ok (MkURLPattern (pre +:+ "<int:" +:+ name +:+ ">")
          (Some ("^" +:+ regex_src segs +:+ "$")) [(name, "int")]).
Proof.
  rewrite <- int_route_render, <- int_route_holes.
  apply (URLPattern_init_render plain). apply int_route_ok.
Qed.

Lemma int_route_match_digits w :
  w <> "" -> Str.forallb Str.is_digit w = true ->
  match_at (compiled_ast segs) 1 0 (pre +:+ w)
  = Some (Match (pre +:+ w) {[1 := w]} 1 "").
Proof.
  intros Hne Hall. unfold match_at, compiled_ast, segs.
  change (seq_of (RBol :: items (lits pre ++ [Hole (Some "int") name]) 0 ++ [REol]))
    with (RSeq RBol (seq_of (items (lits pre ++ [Hole (Some "int") name]) 0 ++ [REol]))).
  cbn [rmatch Nat.eqb]. rewrite rmatch_lits_then, strip_prefix_app.
  rewrite rmatch_int_end by done.
  rewrite <- (str_app_nil_r (pre +:+ w)) at 1. by rewrite consumed_app.
Qed.

Lemma int_route_match_other c rest :
  Str.is_digit c = false ->
  match_at (compiled_ast segs) 1 0 (pre +:+ String c rest) = None.
Proof.
  intros Hc. unfold match_at, compiled_ast, segs.
  change (seq_of (RBol :: items (lits pre ++ [Hole (Some "int") name]) 0 ++ [REol]))
    with (RSeq RBol (seq_of (items (lits pre ++ [Hole (Some "int") name]) 0 ++ [REol]))).
  cbn [rmatch Nat.eqb]. rewrite rmatch_lits_then, strip_prefix_app.
  change (seq_of (items [Hole (Some "int") name] 0 ++ [REol]))
    with (RSeq (RGroup 1 (RSeq (RRepeat 1 None RDigit) REmpty))
               (RSeq REol REmpty)).
  cbn [rmatch repeat_loop may_repeat]. unfold one_char. cbn [accepts].
  by rewrite Hc.
Qed.

Lemma int_route_match (z : Z) :
  (0 <= z)%Z ->
  String.length (Str.of_Z z) <= Conv.max_str_digits ->
  URLPattern_match
    (MkURLPattern (pre +:+ "<int:" +:+ name +:+ ">")
       (Some ("^" +:+ regex_src segs +:+ "$")) [(name, "int")])
    (pre +:+ Str.of_Z z)
  = Ok (Some {[name := PInt z]}).
Proof.
  intros Hpos Hlen.
  destruct (of_Z_digits z Hpos) as [Hne Hall].
  unfold URLPattern_match. cbn [regex_pattern parameter_names].
  change ("^" +:+ regex_src segs +:+ "$")
    with (String "^" (regex_src segs +:+ "$")).
  cbv iota.
  change (String "^" (regex_src segs +:+ "$"))
    with ("^" +:+ regex_src segs +:+ "$").
  unfold re_match. rewrite (parse_compiled segs int_route_ok), int_route_holes.
  cbn [length mbind res_bind]. rewrite (int_route_match_digits _ Hne Hall).
  cbn [convert_params group Nat.add Nat.eqb Nat.leb m_ngroups m_groups
       mbind res_bind String.eqb].
  rewrite lookup_singleton_eq.
  change (String.eqb "int" "int") with true. cbv iota.
  rewrite py_int_of_Z by (by rewrite Z.abs_eq). reflexivity.
Qed.

Lemma int_route_match_negative c rest :
  Str.is_digit c = false ->
  URLPattern_match
    (MkURLPattern (pre +:+ "<int:" +:+ name +:+ ">")
       (Some ("^" +:+ regex_src segs +:+ "$")) [(name, "int")])
    (pre +:+ String c rest)
  = Ok None.
Proof.
  intros Hc.
  unfold URLPattern_match. cbn [regex_pattern parameter_names].
  change ("^" +:+ regex_src segs +:+ "$")
    with (String "^" (regex_src segs +:+ "$")).
  cbv iota.
  change (String "^" (regex_src segs +:+ "$"))
    with ("^" +:+ regex_src segs +:+ "$").
  unfold re_match. rewrite (parse_compiled segs int_route_ok), int_route_holes.
  cbn [length mbind res_bind]. by rewrite (int_route_match_other _ _ Hc).
Qed.

End IntRoute.

(* ================================================================= *)
(** ** Registration and [url_for] *)

Lemma replace_param_general pre ty name post v :
  Str.mem "<" pre = false -> Str.mem "<" post = false ->
  no_bracket name = true -> no_bracket (default "" ty) = true ->
  replace_param (param_patterns name) v (pre +:+ hole_text ty name +:+ post)
  = if url_for_knows ty
    then text ← py_str v; Ok (pre +:+ text +:+ post)
    else Ok (pre +:+ hole_text ty name +:+ post).
Proof.
  intros Hpre Hpost Hname Hty.
  assert (Hc : forall p, no_bracket p = true ->
            Str.contains ("<" +:+ (p +:+ name) +:+ ">")
              (pre +:+ hole_text ty name +:+ post)
            = String.eqb p (match ty with Some t => t +:+ ":" | None => "" end))
    by (intros p Hp; by apply contains_spelling).
  assert (Hr : forall p,
            String.eqb p (match ty with Some t => t +:+ ":" | None => "" end) = true ->
            (value ← py_str v;
             Ok (Str.replace ("<" +:+ (p +:+ name) +:+ ">") value
                   (pre +:+ hole_text ty name +:+ post)))
            = (text ← py_str v; Ok (pre +:+ text +:+ post))).
  { intros p ->%String.eqb_eq.
    destruct (py_str v) as [text| |]; [|done..]. cbn [mbind res_bind].
    rewrite <- (replace_spelling pre ty name post text) by done.
    do 2 f_equal. destruct ty as [t|]; cbn [hole_text]; by rewrite ?str_app_assoc. }
  unfold param_patterns. cbn [replace_param].
  change ("<" +:+ name +:+ ">") with ("<" +:+ ("" +:+ name) +:+ ">").
  change ("<string:" +:+ name +:+ ">") with ("<" +:+ ("string:" +:+ name) +:+ ">").
  change ("<int:" +:+ name +:+ ">") with ("<" +:+ ("int:" +:+ name) +:+ ">").
  change ("<float:" +:+ name +:+ ">") with ("<" +:+ ("float:" +:+ name) +:+ ">").
  change ("<path:" +:+ name +:+ ">") with ("<" +:+ ("path:" +:+ name) +:+ ">").
  change ("<uuid:" +:+ name +:+ ">") with ("<" +:+ ("uuid:" +:+ name) +:+ ">").
  rewrite !Hc by reflexivity.
  destruct ty as [t|]; cbn [url_for_knows existsb].
  - replace (String.eqb "" (t +:+ ":")) with false by (by destruct t).
    cbv iota.
    change "string:" with ("string" +:+ ":"). change "int:" with ("int" +:+ ":").
    change "float:" with ("float" +:+ ":"). change "path:" with ("path" +:+ ":").
    change "uuid:" with ("uuid" +:+ ":").
    rewrite !eqb_app_tail.
    rewrite !(String.eqb_sym t).
    destruct (String.eqb "string" t) eqn:E1.
    { cbn [orb]. apply (Hr ("string" +:+ ":")). by rewrite eqb_app_tail. }
    destruct (String.eqb "int" t) eqn:E2.
    { cbn [orb]. apply (Hr ("int" +:+ ":")). by rewrite eqb_app_tail. }
    destruct (String.eqb "float" t) eqn:E3.
    { cbn [orb]. apply (Hr ("float" +:+ ":")). by rewrite eqb_app_tail. }
    destruct (String.eqb "path" t) eqn:E4.
    { cbn [orb]. apply (Hr ("path" +:+ ":")). by rewrite eqb_app_tail. }
    destruct (String.eqb "uuid" t) eqn:E5.
    { cbn [orb]. apply (Hr ("uuid" +:+ ":")). by rewrite eqb_app_tail. }
    reflexivity.
  - change (String.eqb "" "") with true. cbv iota. by apply (Hr "").
Qed.

Lemma replace_param_spelling pre ty name post v text :
  Str.mem "<" pre = false -> Str.mem "<" post = false ->
  no_bracket name = true -> no_bracket (default "" ty) = true ->
  py_str v = Ok text ->
  replace_param (param_patterns name) v (pre +:+ hole_text ty name +:+ post)
  = Ok (if url_for_knows ty then pre +:+ text +:+ post
        else pre +:+ hole_text ty name +:+ post).
Proof.
  intros Hpre Hpost Hname Hty Hv.
  rewrite replace_param_general by done. rewrite Hv.
  by destruct (url_for_knows ty).
Qed.

Section RegistrationFacts.
Context {H M : Type} `{Countable H}.
Variable name_of : H -> string.
Implicit Types self : rocket H M.

Lemma path_or_name_given (path : string) (h : H) :
  path <> "" -> path_or_name name_of (Some path) h = path.
Proof. by destruct path. Qed.

(** What a registration writes.  [route_common] always succeeds; the
    path is the one given, or [/] and the name of the handler when none
    or the empty one is given; afterwards [url_for] of the handler is
    that path, [routes] and [middlewares_for_route] hold the handler and
    the middlewares under path and method, an exact route resolves to
    the handler, and the URLs of the other handlers are as before. *)
Theorem registration_is_recorded self path h method_name mws :
  let path_name := path_or_name name_of path h in
  exists self',
    route_common name_of self path h method_name mws = Ok self'
    /\ url_for name_of self' h [] = Ok path_name
    /\ routes self' !! path_name ≫= (.!! method_name) = Some h
    /\ middlewares_for_route self' !! path_name ≫= (.!! method_name) = Some mws
    /\ (is_dynamic path_name = false ->
        find_route (rocket_manager self') path_name method_name
        = Ok (Some h, ∅, or_empty mws))
    /\ (forall h' params, h' <> h ->
          url_for name_of self' h' params = url_for name_of self h' params).
Proof.
  intros path_name. unfold route_common. fold path_name.
  destruct (add_route_total (rocket_manager self) path_name method_name h mws)
    as (rm & Hadd).
  rewrite Hadd. cbn [mbind res_bind]. eexists. split; [reflexivity|].
  unfold url_for. cbn [route_map routes middlewares_for_route rocket_manager].
  split; [by rewrite lookup_insert_eq|].
  split; [rewrite lookup_insert_eq; cbn; by rewrite lookup_insert_eq|].
  split; [rewrite lookup_insert_eq; cbn; by rewrite lookup_insert_eq|].
  split.
  - intros Hstatic.
    destruct (add_route_static_eq (rocket_manager self) path_name method_name h mws
                Hstatic) as (rm2 & Hadd2 & Hlook & _).
    rewrite Hadd in Hadd2. injection Hadd2 as <-.
    by rewrite (find_route_static_hit _ _ _ _ Hlook).
  - intros h' params Hne. by rewrite lookup_insert_ne.
Qed.

(** Two decorators on one function: with [@app.get(a)] written above
    [@app.post(b)], both routes resolve to the function, each under its
    own method, and [url_for] gives the path of the upper decorator, the
    one applied last. *)
Theorem stacked_decorators self (a b : string) h mws_a mws_b :
  a <> "" -> b <> "" ->
  is_dynamic a = false -> is_dynamic b = false ->
  exists self1 self2,
    rocket_post name_of self (Some b) mws_b h = Ok self1
    /\ rocket_get name_of self1 (Some a) mws_a h = Ok self2
    /\ find_route (rocket_manager self2) a "GET" = Ok (Some h, ∅, or_empty mws_a)
    /\ find_route (rocket_manager self2) b "POST" = Ok (Some h, ∅, or_empty mws_b)
    /\ url_for name_of self2 h [] = Ok a.
Proof.
  intros Ha Hb Hsa Hsb.
  destruct (add_route_static_eq (rocket_manager self) b "POST" h mws_b Hsb)
    as (rm1 & Hadd1 & Hlook1 & _).
  destruct (add_route_static_eq rm1 a "GET" h mws_a Hsa)
    as (rm2 & Hadd2 & Hlook2 & _).
  eexists _, _. split.
  { unfold rocket_post, route_common. rewrite path_or_name_given by done.
    rewrite Hadd1. reflexivity. }
  split.
  { unfold rocket_get, route_common. rewrite path_or_name_given by done.
    cbn [rocket_manager]. rewrite Hadd2. reflexivity. }
  cbn [rocket_manager]. split; [by rewrite (find_route_static_hit _ _ _ _ Hlook2)|].
  split.
  - rewrite (find_route_static_hit rm2 b "POST" (RouteInfo h (or_empty mws_b)));
      [done|].
    rewrite (add_route_static_frame _ _ _ _ _ _ b "POST" Hadd2); [done|].
    by intros [_ [=]].
  - unfold url_for. cbn [route_map fill_params]. by rewrite lookup_insert_eq.
Qed.

(** [url_for] fills the placeholder of the name given when the
    placeholder is written without type or with one of the five types
    [string], [int], [float], [path], [uuid]; a placeholder of any other
    type is left in the URL as it stands, without an error. *)
Theorem url_for_fills_placeholder self h pre ty name post v text :
  route_map self !! h = Some (pre +:+ hole_text ty name +:+ post) ->
  Str.mem "<" pre = false -> Str.mem "<" post = false ->
  no_bracket name = true -> no_bracket (default "" ty) = true ->
  py_str v = Ok text ->
  url_for name_of self h [(name, v)]
  = Ok (if url_for_knows ty then pre +:+ text +:+ post
        else pre +:+ hole_text ty name +:+ post).
Proof.
  intros Hroute Hpre Hpost Hname Hty Hv. unfold url_for. rewrite Hroute.
  cbn [fill_params].
  rewrite (replace_param_spelling pre ty name post v text) by done.
  reflexivity.
Qed.

(** [url_for] against the matcher, for an [int] placeholder that ends a
    template of plain text.  For an integer of at most 4300 digits: the
    URL made for a natural number is matched by the route and gives the
    number back; the URL made for a negative number is one the route
    refuses.  For an integer of more digits [url_for] raises
    [ValueError]: [str] does not write it. *)
Theorem url_for_int_round_trip self h pre name (z : Z) :
  route_map self !! h = Some (pre +:+ "<int:" +:+ name +:+ ">") ->
  Str.forallb plain pre = true -> Str.mem "<" pre = false ->
  name <> "" -> no_bracket name = true ->
  exists u,
    URLPattern_init (pre +:+ "<int:" +:+ name +:+ ">") = Ok u
    /\ (String.length (Str.of_Z (Z.abs z)) <= Conv.max_str_digits ->
        url_for name_of self h [(name, PInt z)] = Ok (pre +:+ Str.of_Z z)
        /\ URLPattern_match u (pre +:+ Str.of_Z z)
           = Ok (if (z <? 0)%Z then None else Some {[name := PInt z]}))
    /\ (Conv.max_str_digits < String.length (Str.of_Z (Z.abs z)) ->
        exists e, url_for name_of self h [(name, PInt z)] = Raise e
                  /\ isinstance e "ValueError" = true).
Proof.
  intros Hroute Hplain Hfree Hname Hnb.
  pose proof Hnb as [Hn1 Hn2]%no_bracket_spec.
  pose proof (replace_param_general pre (Some "int") name "" (PInt z)
                Hfree eq_refl Hnb eq_refl) as Hfill.
  cbn [hole_text url_for_knows existsb py_str] in Hfill.
  rewrite !str_app_nil_r in Hfill.
  replace ("<" +:+ "int" +:+ ":" +:+ name +:+ ">")
    with ("<int:" +:+ name +:+ ">") in Hfill by reflexivity.
  change (String.eqb "int" "string" || (String.eqb "int" "int" || _)) with true
    in Hfill. cbv iota in Hfill.
  eexists. split; [by apply int_route_init|]. split.
  - intros Hlen. split.
    + unfold url_for. rewrite Hroute. cbn [fill_params]. rewrite Hfill.
      rewrite (int_str_ok z Hlen). cbn [mbind res_bind].
      by rewrite str_app_nil_r.
    + destruct (Z.ltb_spec z 0) as [Hneg|Hpos].
      * destruct z as [|p|p]; [lia..|]. cbn [Str.of_Z].
        change ("-" +:+ ?x) with (String "-" x).
        by apply int_route_match_negative.
      * apply int_route_match; [done..|]. by rewrite Z.abs_eq in Hlen.
  - intros Hlen. destruct (int_str_raises z Hlen) as (e & He & Hv).
    exists e. split; [|done].
    unfold url_for. rewrite Hroute. cbn [fill_params]. rewrite Hfill, He.
    reflexivity.
Qed.

End RegistrationFacts.

(* ================================================================= *)
(** ** The text of a query *)

Import ObjectMapper.

Section QuerySetFacts.
Context {V : Type}.
Implicit Types qs : QuerySet V.

Lemma build_where_fold (conds0 : list string) (params0 : list V) conds :
  foldl (fun '(conds, params) '(field_name, operator, value) =>
           (conds ++ [field_name +:+ " " +:+ operator +:+ " ?"],
            params ++ [value]))
        (conds0, params0) conds
  = (conds0 ++ map condition_text conds, params0 ++ map snd conds).
Proof.
  revert conds0 params0.
  induction conds as [|[[f op] v] conds IH]; intros conds0 params0.
  - by rewrite !app_nil_r.
  - cbn [foldl map]. rewrite IH. by rewrite <- !app_assoc.
Qed.

Lemma build_where_spec qs :
  _build_where qs
  = (Str.join " AND " (map condition_text (conditions qs)),
     map snd (conditions qs)).
Proof. unfold _build_where. by rewrite build_where_fold. Qed.

Lemma count_clause_cases (keyword : string) (z : Z) :
  (z = 0%Z -> count_clause keyword (Some z) = Ok "")
  /\ (z <> 0%Z ->
      String.length (Str.of_Z (Z.abs z)) <= Conv.max_str_digits ->
      count_clause keyword (Some z)
      = Ok (" " +:+ keyword +:+ " " +:+ Str.of_Z z))
  /\ (Conv.max_str_digits < String.length (Str.of_Z (Z.abs z)) ->
      exists e, count_clause keyword (Some z) = Raise e
                /\ isinstance e "ValueError" = true).
Proof.
  split; [by intros ->|]. split.
  - intros Hz Hlen. unfold count_clause.
    replace (truthy (Some z)) with (Some z) by (by destruct z).
    by rewrite (int_str_ok z Hlen).
  - intros Hlen. destruct (int_str_raises z Hlen) as (e & He & Hv).
    exists e. split; [|done]. unfold count_clause.
    replace (truthy (Some z)) with (Some z)
      by (destruct z; [by vm_compute in Hlen|done..]).
    by rewrite He.
Qed.

(** The [LIMIT] clause of a query set without offset: [limit(n)] appends
    [ LIMIT n] to the text of the query for every integer [n] of at most
    4300 digits but zero, a negative one too; [limit(0)] gives the query
    without limit, the one that selects every row; for an integer of
    more digits the f-string raises [ValueError].  The parameters are
    those of the query without limit. *)
Theorem limit_clause qs (z : Z) :
  truthy (offset_count qs) = None ->
  exists text params,
    _build_query (limit qs None) = Ok (text, params)
    /\ (z = 0%Z -> _build_query (limit qs (Some z)) = Ok (text, params))
    /\ (z <> 0%Z ->
        String.length (Str.of_Z (Z.abs z)) <= Conv.max_str_digits ->
        _build_query (limit qs (Some z))
        = Ok (text +:+ " LIMIT " +:+ Str.of_Z z, params))
    /\ (Conv.max_str_digits < String.length (Str.of_Z (Z.abs z)) ->
        exists e, _build_query (limit qs (Some z)) = Raise e
                  /\ isinstance e "ValueError" = true).
Proof.
  intros Hoff.
  assert (Hoffc : count_clause "OFFSET" (offset_count qs) = Ok "")
    by (unfold count_clause; by rewrite Hoff).
  unfold _build_query, limit, _clone.
  cbn [model_class conditions order_by_fields limit_count offset_count].
  rewrite Hoffc.
  destruct (match conditions qs with [] => _ | _ => _ end) as [query params].
  destruct (count_clause_cases "LIMIT" z) as (Hzero & Hsome & Hlong).
  change (count_clause "LIMIT" None) with (Ok "" : res string).
  cbn [mbind res_bind].
  eexists _, _. split; [reflexivity|].
  rewrite !str_app_nil_r. split; [|split].
  - intros Hz. rewrite (Hzero Hz). cbn [mbind res_bind].
    by rewrite !str_app_nil_r.
  - intros Hz Hlen. rewrite (Hsome Hz Hlen). cbn [mbind res_bind].
    by rewrite !str_app_nil_r.
  - intros Hlen. destruct (Hlong Hlen) as (e & -> & Hv). by exists e.
Qed.

Lemma filter_conditions qs kwargs :
  conditions (filter qs kwargs)
  = conditions qs ++ map (fun '(field_name, value) => (field_name, "=", value)) kwargs.
Proof.
  unfold filter, add_conditions, _clone. cbn [conditions].
  generalize (conditions qs) as conds.
  induction kwargs as [|[f v] kwargs IH]; intros conds.
  - by rewrite app_nil_r.
  - cbn [foldl map]. rewrite IH. by rewrite <- app_assoc.
Qed.

(** The query of [filter] on a fresh query set: one [field = ?] per
    keyword argument, in their order, joined by [AND], the values beside
    it in the same order; no [WHERE] without arguments. *)
Theorem filter_query (table : string) (kwargs : list (string * V)) :
  _build_query (filter (QuerySet_init table) kwargs)
  = Ok ("SELECT * FROM " +:+ table
        +:+ match kwargs with
            | [] => ""
            | _ => " WHERE "
                   +:+ Str.join " AND " (map (fun kv => kv.1 +:+ " = ?") kwargs)
            end,
        map snd kwargs).
Proof.
  unfold _build_query. rewrite build_where_spec, filter_conditions.
  cbn [QuerySet_init conditions app].
  assert (Ht : map condition_text
                 (map (fun '(field_name, value) => (field_name, "=", value)) kwargs)
               = map (fun kv => kv.1 +:+ " = ?") kwargs).
  { induction kwargs as [|[f v] kwargs IH]; [done|]. cbn [map]. by rewrite IH. }
  assert (Hp : map snd
                 (map (fun '(field_name, value) => (field_name, "=", value)) kwargs)
               = map snd kwargs).
  { clear. induction kwargs as [|[f v] kwargs IH]; [done|]. cbn [map snd].
    f_equal. exact IH. }
  rewrite Ht, Hp.
  destruct kwargs as [|[f v] kwargs]; cbn [map].
  - cbn. by rewrite !str_app_nil_r.
  - cbn [filter add_conditions _clone QuerySet_init model_class order_by_fields
         limit_count offset_count count_clause truthy mbind res_bind].
    by rewrite !str_app_nil_r.
Qed.

End QuerySetFacts.

(** The text of a query does not depend on the values compared with:
    two query sets that agree on table, fields, operators, ordering and
    counts build the same text, and the values go to the parameter list
    in the order of the conditions, none of them into the text; when a
    count has too many digits for the f-string, both raise the same
    error. *)
Theorem query_text_ignores_values {V W : Type} (qs : QuerySet V) (qs' : QuerySet W) :
  model_class qs = model_class qs' ->
  map fst (conditions qs) = map fst (conditions qs') ->
  order_by_fields qs = order_by_fields qs' ->
  limit_count qs = limit_count qs' ->
  offset_count qs = offset_count qs' ->
  match _build_query qs, _build_query qs' with
  | Ok (text, params), Ok (text', params') =>
      text = text'
      /\ params = map snd (conditions qs)
      /\ params' = map snd (conditions qs')
  | Raise e, Raise e' => e = e'
  | _, _ => False
  end.
Proof.
  intros Hm Hc Ho Hl Hoff. unfold _build_query.
  rewrite !build_where_spec, Hm, Ho, Hl, Hoff.
  assert (Htext : map condition_text (conditions qs)
                  = map condition_text (conditions qs')).
  { clear - Hc. revert Hc. generalize (conditions qs') as l'.
    induction (conditions qs) as [|[[f op] v] l IH]; intros [|[[f' op'] v'] l'] Heq;
      try done.
    cbn [map fst] in Heq. injection Heq as -> -> Heq.
    cbn [map condition_text]. by rewrite (IH l'). }
  rewrite Htext.
  assert (Hclause : forall keyword count,
            match count_clause keyword count with
            | Unmodelled => False
            | _ => True
            end).
  { intros keyword count. unfold count_clause, Conv.int_str.
    destruct (truthy count); [|done]. by destruct (Nat.ltb _ _). }
  pose proof (Hclause "LIMIT" (limit_count qs')) as H1.
  pose proof (Hclause "OFFSET" (offset_count qs')) as H2.
  destruct (count_clause "LIMIT" (limit_count qs')) as [lt|e1|];
    destruct (count_clause "OFFSET" (offset_count qs')) as [ot|e2|];
    destruct (conditions qs) as [|c l] eqn:E;
    destruct (conditions qs') as [|c' l'];
    try done.
Qed.

(* ================================================================= *)
(** ** The further properties on examples *)

Lemma every_request_is_answered_witness :
  exists tail,
    Server.handle_request Demo.same Demo.fixed
      (Server.Socket (Bytes.encode (Demo.raw_get "/x")) false [] false)
      "127.0.0.1"
    = (Server.Socket (Bytes.encode (Demo.raw_get "/x")) false
         [Bytes.encode "HTTP/1.1 " ++ tail] true,
       Ok tt).
Proof.
  apply (every_request_is_answered Demo.same Demo.fixed
           (Server.Socket (Bytes.encode (Demo.raw_get "/x")) false [] false)
           "127.0.0.1" (Demo.raw_get "/x")).
  - vm_compute; reflexivity.
  - discriminate.
  - reflexivity.
  - vm_compute. exact I.
Defined.

Lemma bad_request_line_gives_500_witness :
  exists e,
    isinstance e "ValueError" = true
    /\ Server.handle_request Demo.same Demo.fixed
         (Server.Socket (Bytes.encode ("GET /" +:+ Str.CRLF +:+ Str.CRLF))
            false [] false)
         "127.0.0.1"
       = (Server.Socket (Bytes.encode ("GET /" +:+ Str.CRLF +:+ Str.CRLF))
            false [Server.create_error_response 500 (exn_msg e)] true,
          Ok tt).
Proof.
  apply (bad_request_line_gives_500 Demo.same Demo.fixed
           (Server.Socket (Bytes.encode ("GET /" +:+ Str.CRLF +:+ Str.CRLF))
              false [] false)
           "127.0.0.1" ("GET /" +:+ Str.CRLF +:+ Str.CRLF) "GET /" [""; ""]).
  - vm_compute; reflexivity.
  - discriminate.
  - reflexivity.
  - vm_compute; reflexivity.
  - vm_compute. lia.
Defined.

Lemma empty_request_gets_no_answer_witness :
  Server.handle_request Demo.same Demo.fixed
    (Server.Socket [] false [] false) "127.0.0.1"
  = (Server.Socket [] false [] true, Ok tt).
Proof.
  apply (empty_request_gets_no_answer Demo.same Demo.fixed
           (Server.Socket [] false [] false) "127.0.0.1").
  reflexivity.
Defined.

Lemma parse_http_request_wellformed_witness :
  let headers : gmap string string :=
    foldl (fun m '(_, key, value) => <[key := Str.strip value]> m) ∅
          [("Host", "HOST", " example");
           ("Content-Type", "CONTENT_TYPE", " text/plain");
           ("x-token", "X_TOKEN", " abc ")] in
  Server.parse_http_request Demo.same
    ("POST /search?q=cats HTTP/1.1" +:+ Str.CRLF
     +:+ "Host: example" +:+ Str.CRLF
     +:+ "Content-Type: text/plain" +:+ Str.CRLF
     +:+ "x-token: abc " +:+ Str.CRLF
     +:+ Str.CRLF +:+ "one" +:+ Str.CRLF +:+ "two")
    "10.0.0.1"
  = Ok (Environ (Some "POST") (Some "/search") (Some "q=cats")
          (Some (default "" (headers !! "CONTENT_TYPE")))
          (Some (default "" (headers !! "CONTENT_LENGTH")))
          (Some (InputStr ("one" +:+ Str.CRLF +:+ "two")))
          (Some "10.0.0.1")
          (delete "CONTENT_TYPE" (delete "CONTENT_LENGTH" headers))).
Proof.
  apply (parse_http_request_wellformed Demo.same "POST" "/search" "HTTP/1.1"
           (Some "q=cats")
           [("Host", "HOST", " example");
            ("Content-Type", "CONTENT_TYPE", " text/plain");
            ("x-token", "X_TOKEN", " abc ")]
           ("one" +:+ Str.CRLF +:+ "two") "10.0.0.1");
    try reflexivity.
  repeat (constructor; [repeat split; reflexivity|]). constructor.
Defined.

Lemma content_length_not_a_number_witness :
  let env := Environ (Some "POST") (Some "/") (Some "") (Some "")
               (Some "a\b") (Some (InputStr "")) (Some "127.0.0.1") ∅ in
  let e := ValueError "invalid literal for int() with base 10: 'a\\b'" in
  isinstance e "ValueError" = true
  /\ Request_init Demo.no_pairs Demo.no_lists Demo.no_json env = Raise e
  /\ Server.handle_wsgi_request
       (live_rocket_call Demo.no_pairs Demo.no_lists Demo.no_json Demo.app) env
     = Ok (Server.create_error_response 500
             ("Internal Server Error: " +:+ exn_msg e)).
Proof.
  apply (content_length_not_a_number Demo.no_pairs Demo.no_lists Demo.no_json
           Demo.app
           (Environ (Some "POST") (Some "/") (Some "") (Some "")
              (Some "a\b") (Some (InputStr "")) (Some "127.0.0.1") ∅)
           "a\b"
           (ValueError "invalid literal for int() with base 10: 'a\\b'")).
  - reflexivity.
  - discriminate.
  - vm_compute; reflexivity.
Defined.

Lemma no_body_without_positive_length_witness :
  let env := Environ (Some "POST") (Some "/items") (Some "")
               (Some "application/json") (Some "-3") (Some (InputStr "{}"))
               (Some "127.0.0.1") ∅ in
  exists req,
    Request_init Demo.no_pairs Demo.no_lists Demo.no_json env = Ok req
    /\ body req = BodyDict ∅ /\ body_raw req = None.
Proof.
  intros env.
  apply (no_body_without_positive_length Demo.no_pairs Demo.no_lists
           Demo.no_json env).
  right. right. exists "-3", (-3)%Z.
  split; [reflexivity|]. split; [vm_compute; reflexivity|lia].
Defined.

Lemma other_content_is_kept_raw_witness :
  let env := Environ (Some "POST") (Some "/notes") (Some "") (Some "text/plain")
               (Some "5") (Some (InputStr "hello world")) (Some "127.0.0.1") ∅ in
  exists req,
    Request_init Demo.no_pairs Demo.no_lists Demo.no_json env = Ok req
    /\ body req = BodyDict ∅
    /\ body_raw req = Some (input_read (InputStr "hello world") (Z.to_nat 5)).
Proof.
  apply (other_content_is_kept_raw Demo.no_pairs Demo.no_lists Demo.no_json
           (Environ (Some "POST") (Some "/notes") (Some "") (Some "text/plain")
              (Some "5") (Some (InputStr "hello world")) (Some "127.0.0.1") ∅)
           "5" 5 (InputStr "hello world")).
  - reflexivity.
  - vm_compute; reflexivity.
  - lia.
  - by vm_compute.
  - reflexivity.
  - vm_compute; reflexivity.
  - vm_compute; reflexivity.
Defined.

Lemma decoded_body_from_text_stream_raises_witness :
  Request_init Demo.no_pairs Demo.no_lists Demo.no_json
    (Demo.post_form (InputStr "name=Ada&t=a&t=b"))
  = Raise (AttributeError "'str' object has no attribute 'decode'").
Proof.
  apply (decoded_body_from_text_stream_raises Demo.no_pairs Demo.no_lists
           Demo.no_json (Demo.post_form (InputStr "name=Ada&t=a&t=b"))
           "16" 16 "name=Ada&t=a&t=b").
  - reflexivity.
  - vm_compute; reflexivity.
  - lia.
  - by vm_compute.
  - reflexivity.
  - vm_compute; reflexivity.
Defined.

Lemma form_body_fields_witness :
  exists req,
    Request_init Demo.no_pairs Demo.lists Demo.no_json
      (Demo.post_form (InputBytes (Bytes.encode "name=Ada&t=a&t=b"))) = Ok req
    /\ body_raw req = None
    /\ get_body_param req "t" None = Ok (Some (FormMany ["a"; "b"]))
    /\ forall other default,
         other ∉ map fst (Demo.lists "name=Ada&t=a&t=b") ->
         get_body_param req other default = Ok default.
Proof.
  apply (form_body_fields Demo.no_pairs Demo.lists Demo.no_json
           (Demo.post_form (InputBytes (Bytes.encode "name=Ada&t=a&t=b")))
           "16" 16 (Bytes.encode "name=Ada&t=a&t=b") "name=Ada&t=a&t=b"
           [("name", ["Ada"])] [] "t" ["a"; "b"]).
  - reflexivity.
  - vm_compute; reflexivity.
  - lia.
  - by vm_compute.
  - reflexivity.
  - vm_compute; reflexivity.
  - vm_compute; reflexivity.
  - vm_compute; reflexivity.
  - apply not_elem_of_nil.
Defined.

Lemma query_param_last_wins_witness :
  let env := Environ (Some "GET") (Some "/search")
               (Some "q=cats&page=1&q=dogs") (Some "") (Some "")
               (Some (InputStr "")) (Some "127.0.0.1") ∅ in
  exists req,
    Request_init Demo.pairs Demo.no_lists Demo.no_json env = Ok req
    /\ (forall pre post key val default,
          "q=cats&page=1&q=dogs" <> "" ->
          Demo.pairs "q=cats&page=1&q=dogs" = pre ++ (key, val) :: post ->
          key ∉ map fst post ->
          get_query_param req key default = Some val)
    /\ (forall key default,
          "q=cats&page=1&q=dogs" = ""
          \/ key ∉ map fst (Demo.pairs "q=cats&page=1&q=dogs") ->
          get_query_param req key default = default).
Proof.
  intros env. eexists. split; [vm_compute; reflexivity|].
  apply (query_param_last_wins Demo.pairs Demo.no_lists Demo.no_json env _
           "q=cats&page=1&q=dogs").
  - vm_compute; reflexivity.
  - reflexivity.
Defined.

Lemma handler_response_reaches_client_witness :
  Server.handle_wsgi_request
    (live_rocket_call Demo.no_pairs Demo.no_lists Demo.no_json Demo.app)
    (Demo.get "/ping")
  = Ok (Server.build_http_response "404 Not Found"
          [("Content-Type", "text/plain")] (Bytes.encode "Route not Found")).
Proof.
  apply (handler_response_reaches_client Demo.no_pairs Demo.no_lists
           Demo.no_json Demo.app (Demo.get "/ping") Demo.idle
           (Demo.request "/ping") ∅ (Response_init None None)).
  - exists (Demo.request "/ping"), (Demo.request "/ping"), [].
    repeat split; vm_compute; reflexivity.
  - reflexivity.
Defined.

Lemma send_reaches_client_witness :
  (Response_send (Response_init None None) "hi" (StatusInt 201)).2 = Ok tt
  /\ Server.handle_wsgi_request
       (live_rocket_call Demo.no_pairs Demo.no_lists Demo.no_json Demo.app_hello)
       (Demo.get "/hello")
     = Ok (Bytes.encode
             ("HTTP/1.1 201 OK" +:+ Str.CRLF
              +:+ "Content-Type: text/plain" +:+ Str.CRLF
              +:+ "Content-Length: 2" +:+ Str.CRLF
              +:+ "Connection: close" +:+ Str.CRLF +:+ Str.CRLF)
           ++ Bytes.encode "hi").
Proof.
  apply (send_reaches_client Demo.no_pairs Demo.no_lists Demo.no_json
           Demo.app_hello (Demo.get "/hello") Demo.hello
           (Demo.request "/hello") ∅ "hi" (StatusInt 201)).
  - exists (Demo.request "/hello"), (Demo.request "/hello"), [].
    repeat split; vm_compute; reflexivity.
  - vm_compute. lia.
  - vm_compute; reflexivity.
Defined.

Lemma route_not_found_witness :
  let regs : list (registration nat nat) :=
    [Reg "/home" "GET" 1 None; Reg "/u/<int:id>" "GET" 2 None] in
  exists rm,
    register_all regs RouteManager_init = Ok rm
    /\ (find_route rm "/u/abc" "GET" = Ok (None, ∅, [])
        <-> Forall (passes_over "/u/abc" "GET") regs).
Proof.
  intros regs. eexists. split; [vm_compute; reflexivity|].
  apply (route_not_found regs _ "/u/abc" "GET").
  vm_compute; reflexivity.
Defined.

Lemma repeated_pattern_is_never_reached_witness :
  let regs : list (registration nat nat) := [Reg "/u/<id>" "GET" 1 None] in
  exists rm rm',
    register_all regs RouteManager_init = Ok rm
    /\ register_all (regs ++ [Reg "/u/<id>" "GET" 2 (Some [7])]) RouteManager_init
       = Ok rm'
    /\ forall path m, find_route rm' path m = find_route rm path m.
Proof.
  intros regs. eexists _, _. split; [vm_compute; reflexivity|].
  split; [vm_compute; reflexivity|].
  apply (repeated_pattern_is_never_reached regs _ _
           (Reg "/u/<id>" "GET" 1 None) (Reg "/u/<id>" "GET" 2 (Some [7]))).
  - vm_compute; reflexivity.
  - apply list_elem_of_here.
  - reflexivity.
  - reflexivity.
  - reflexivity.
  - vm_compute; reflexivity.
Defined.

Lemma match_binds_the_declared_names_witness :
  exists u ps,
    URLPattern_init "/u/<int:id>/<slug>" = Ok u
    /\ URLPattern_match u "/u/7/abc" = Ok (Some ps)
    /\ dom ps = list_to_set (map fst (parameter_names u)).
Proof.
  eexists _, _. split; [vm_compute; reflexivity|].
  split; [vm_compute; reflexivity|].
  apply (match_binds_the_declared_names "/u/<int:id>/<slug>" _ "/u/7/abc");
    vm_compute; reflexivity.
Defined.

Lemma string_parameters_are_segments_witness :
  exists u ps,
    URLPattern_init "/f/<name>" = Ok u
    /\ URLPattern_match u "/f/readme" = Ok (Some ps)
    /\ forall name v, ps !! name = Some v ->
         match v with
         | PStr s =>
             s <> ""
             /\ (Str.mem "/" s = false
                 \/ ((name, "path") ∈ parameter_names u
                     /\ Str.mem Str.LF s = false))
         | PNone => False
         | _ => True
         end.
Proof.
  eexists _, _. split; [vm_compute; reflexivity|].
  split; [vm_compute; reflexivity|].
  apply (string_parameters_are_segments
           [Lit "/"; Lit "f"; Lit "/"; Hole None "name"] _ "/f/readme").
  - reflexivity.
  - vm_compute; reflexivity.
  - vm_compute; reflexivity.
Defined.

Lemma url_for_fills_placeholder_witness :
  let self : rocket nat nat :=
    Rocket RouteManager_init {[ 1 := "/users/<int:id>/posts" ]} ∅ ∅ in
  url_for (fun _ => "show") self 1 [("id", PInt 7)] = Ok "/users/7/posts".
Proof.
  intros self.
  apply (url_for_fills_placeholder (fun _ => "show") self 1
           "/users/" (Some "int") "id" "/posts" (PInt 7) "7");
    reflexivity.
Defined.

Lemma url_for_int_round_trip_witness :
  let self : rocket nat nat :=
    Rocket RouteManager_init {[ 1 := "/users/<int:id>" ]} ∅ ∅ in
  exists u,
    URLPattern_init "/users/<int:id>" = Ok u
    /\ url_for (fun _ => "show") self 1 [("id", PInt 42)] = Ok "/users/42"
    /\ URLPattern_match u "/users/42" = Ok (Some {[ "id" := PInt 42 ]}).
Proof.
  intros self.
  destruct (url_for_int_round_trip (fun _ => "show") self 1 "/users/" "id" 42)
    as (u & Hinit & Hfits & _);
    [reflexivity|reflexivity|reflexivity|discriminate|reflexivity|].
  exists u. split; [exact Hinit|]. apply Hfits. vm_compute. lia.
Defined.

Lemma stacked_decorators_witness :
  exists self1 self2 : rocket nat nat,
    rocket_post (fun _ => "item") rocket_init (Some "/items") (Some []) 1 = Ok self1
    /\ rocket_get (fun _ => "item") self1 (Some "/item") (Some []) 1 = Ok self2
    /\ find_route (rocket_manager self2) "/item" "GET" = Ok (Some 1, ∅, [])
    /\ find_route (rocket_manager self2) "/items" "POST" = Ok (Some 1, ∅, [])
    /\ url_for (fun _ => "item") self2 1 [] = Ok "/item".
Proof.
  apply (stacked_decorators (fun _ => "item") rocket_init "/item" "/items" 1
           (Some []) (Some []));
    [discriminate|discriminate|reflexivity|reflexivity].
Defined.

Lemma query_text_ignores_values_witness :
  let qs : QuerySet nat :=
    MkQuerySet "users" [("age", "=", 30); ("id", "!=", 7)] ["-age"] (Some 5%Z) None in
  let qs' : QuerySet string :=
    MkQuerySet "users" [("age", "=", "x' OR 1=1"); ("id", "!=", "")] ["-age"]
               (Some 5%Z) None in
  match _build_query qs, _build_query qs' with
  | Ok (text, params), Ok (text', params') =>
      text = text'
      /\ params = map snd (conditions qs)
      /\ params' = map snd (conditions qs')
  | Raise e, Raise e' => e = e'
  | _, _ => False
  end.
Proof.
  intros qs qs'.
  apply (query_text_ignores_values qs qs'); reflexivity.
Defined.

Lemma limit_clause_witness :
  let qs : QuerySet nat :=
    order_by (filter (QuerySet_init "users") [("age", 30)]) ["name"] in
  _build_query (limit qs (Some 5%Z))
  = Ok ("SELECT * FROM users WHERE age = ? ORDER BY name ASC LIMIT 5", [30])
  /\ _build_query (limit qs (Some (-1)%Z))
     = Ok ("SELECT * FROM users WHERE age = ? ORDER BY name ASC LIMIT -1", [30])
  /\ _build_query (limit qs (Some 0%Z))
     = Ok ("SELECT * FROM users WHERE age = ? ORDER BY name ASC", [30]).
Proof.
  intros qs.
  destruct (limit_clause qs 5 eq_refl) as (text & params & Hbase & _ & Hfive & _).
  destruct (limit_clause qs (-1) eq_refl) as (text1 & params1 & Hbase1 & _ & Hneg & _).
  destruct (limit_clause qs 0 eq_refl) as (text0 & params0 & Hbase0 & Hzero & _).
  rewrite Hbase in Hbase1, Hbase0.
  injection Hbase1 as <- <-. injection Hbase0 as <- <-.
  vm_compute in Hbase. injection Hbase as <- <-.
  rewrite Hfive, Hneg, Hzero; [done|done|discriminate|by (vm_compute; lia)
                               |discriminate|by (vm_compute; lia)].
Defined.
